(** * go-tupleconv: converters, factory and tuple mapper

    A shallow embedding of [converter.go], [tt.go] and [mapper.go] of
    [github.com/tarantool/go-tupleconv], together with the parts of the Go
    standard library the converters call ([strings], [strconv], [unicode/utf8],
    [fmt], [encoding/json]).

    Conventions.
    - A Go [string] is a sequence of bytes: [String.string], one [ascii] per byte.
    - Fixed-width integers are [Z] with the wrap-around written out.
    - A Go result pair [(T, error)] is [result T]; the value that accompanies a
      non-nil error is never inspected by this package and is not kept.
    - An interface value [Converter[S, T]] is the function its [Convert] method
      computes. *)

From Stdlib Require Import ZArith List String Ascii Bool Lia.
Import ListNotations.
Local Open Scope string_scope.
Local Open Scope Z_scope.

Set Implicit Arguments.

(* ================================================================== *)
(** ** Bytes *)

Definition byte (c : ascii) : Z := Z.of_N (N_of_ascii c).
Definition ascii_of_Z (z : Z) : ascii := ascii_of_N (Z.to_N z).

Definition string_of_bytes (l : list Z) : string :=
  fold_right (fun b s => String (ascii_of_Z b) s) "" l.

Definition len (s : string) : nat := String.length s.

Fixpoint drop (n : nat) (s : string) : string :=
  match n, s with
  | O, _ => s
  | S k, String _ t => drop k t
  | S _, "" => ""
  end.

(* ================================================================== *)
(** ** Errors and results *)

(** [strconv.ErrSyntax] and [strconv.ErrRange]. *)
Inductive numErr := ErrSyntax | ErrRange.

(** The error values that reach a caller.  Every [fmt.Errorf] and
    [errors.New] site of the package has a constructor of its own, which keeps
    the arguments of the format string rather than the rendered text. *)
Inductive error :=
| NumError (func num : string) (err : numErr)
    (* *strconv.NumError{Func, Num, Err} *)
| ErrSeqUnexpectedValue (src : string)
    (* MakeSequenceConverter: "unexpected value %v" *)
| ErrNullUnexpectedValue (src : string)
    (* StringToNullConverter: "unexpected value: %v" *)
| ErrUnexpectedIntervalFmt
    (* errUnexpectedIntervalFmt: "unexpected interval format" *)
| ErrUnexpectedType (typ : string)
    (* GetConverterByType: "unexpected type: %s" *)
| ErrUnexpectedValueForType (src : string) (typ : string)
    (* MakeTypeToTTConverters: "unexpected value %v for type %q" *)
| ErrTupleLength
    (* Mapper.validateTuple: "tuple length should be less or equal ..." *)
| ErrJSON (msg : string)
    (* encoding/json: *SyntaxError, *UnmarshalTypeError *)
| ErrLib (msg : string).
    (* errors of time, uuid, decimal and datetime *)

Inductive result (T : Type) :=
| Ok (v : T)
| Err (e : error).
Arguments Ok {T} v.
Arguments Err {T} e.

Definition is_ok {T} (r : result T) : bool :=
  match r with Ok _ => true | Err _ => false end.

(** [%v] of a value, as [fmt] renders it. *)
Class Fmt (S : Type) := fmt_v : S -> string.
#[export] Instance Fmt_string : Fmt string := fun s => s.

(* ================================================================== *)
(** ** unicode/utf8 *)

Module utf8.

Definition RuneError : Z := 0xFFFD.
Definition MaxRune : Z := 0x10FFFF.
Definition surrogateMin : Z := 0xD800.
Definition surrogateMax : Z := 0xDFFF.

Definition t2 : Z := 0xC0.
Definition t3 : Z := 0xE0.
Definition t4 : Z := 0xF0.
Definition tx : Z := 0x80.
Definition maskx : Z := 0x3F.
Definition mask2 : Z := 0x1F.
Definition mask3 : Z := 0x0F.
Definition mask4 : Z := 0x07.
Definition locb : Z := 0x80.
Definition hicb : Z := 0xBF.

Definition rune1Max : Z := 0x7F.
Definition rune2Max : Z := 0x7FF.
Definition rune3Max : Z := 0xFFFF.

(** The size and the accepted range of the second byte for a lead byte
    (the tables [first] and [acceptRanges]); [None] for a byte that cannot
    start a multi-byte sequence. *)
Definition lead (s0 : Z) : option (nat * Z * Z) :=
  if s0 <? 0xC2 then None
  else if s0 <=? 0xDF then Some (2%nat, locb, hicb)
  else if s0 =? 0xE0 then Some (3%nat, 0xA0, hicb)
  else if s0 <=? 0xEC then Some (3%nat, locb, hicb)
  else if s0 =? 0xED then Some (3%nat, locb, 0x9F)
  else if s0 <=? 0xEF then Some (3%nat, locb, hicb)
  else if s0 =? 0xF0 then Some (4%nat, 0x90, hicb)
  else if s0 <=? 0xF3 then Some (4%nat, locb, hicb)
  else if s0 =? 0xF4 then Some (4%nat, locb, 0x8F)
  else None.

Definition cont (b : Z) : bool := (locb <=? b) && (b <=? hicb).

(** [utf8.DecodeRuneInString]: the first rune of [s] and its width in bytes;
    [(RuneError, 1)] for an invalid or short encoding, [(RuneError, 0)] for
    the empty string. *)
Definition DecodeRuneInString (s : string) : Z * nat :=
  match s with
  | "" => (RuneError, 0%nat)
  | String c0 r0 =>
    let s0 := byte c0 in
    if s0 <? 0x80 then (s0, 1%nat)
    else
      match lead s0 with
      | None => (RuneError, 1%nat)
      | Some (sz, lo, hi) =>
        if (len s <? sz)%nat then (RuneError, 1%nat)
        else
          match r0 with
          | "" => (RuneError, 1%nat)
          | String c1 r1 =>
            let s1 := byte c1 in
            if (s1 <? lo) || (hi <? s1) then (RuneError, 1%nat)
            else if (sz <=? 2)%nat then
              (Z.lor (Z.shiftl (Z.land s0 mask2) 6) (Z.land s1 maskx), 2%nat)
            else
              match r1 with
              | "" => (RuneError, 1%nat)
              | String c2 r2 =>
                let s2 := byte c2 in
                if negb (cont s2) then (RuneError, 1%nat)
                else if (sz <=? 3)%nat then
                  (Z.lor (Z.lor (Z.shiftl (Z.land s0 mask3) 12)
                                (Z.shiftl (Z.land s1 maskx) 6))
                         (Z.land s2 maskx), 3%nat)
                else
                  match r2 with
                  | "" => (RuneError, 1%nat)
                  | String c3 _ =>
                    let s3 := byte c3 in
                    if negb (cont s3) then (RuneError, 1%nat)
                    else
                      (Z.lor (Z.lor (Z.lor (Z.shiftl (Z.land s0 mask4) 18)
                                           (Z.shiftl (Z.land s1 maskx) 12))
                                    (Z.shiftl (Z.land s2 maskx) 6))
                             (Z.land s3 maskx), 4%nat)
                  end
              end
          end
      end
  end.

(** [byte(x)]: truncation to 8 bits. *)
Definition to_byte (x : Z) : Z := x mod 256.

(** The bytes [utf8.AppendRune] (and the conversion [string(r)]) writes for
    the rune [r]; a surrogate or out-of-range value is written as
    [RuneError]. *)
Definition three (r : Z) : list Z :=
  [ Z.lor t3 (to_byte (Z.shiftr r 12));
    Z.lor tx (Z.land (to_byte (Z.shiftr r 6)) maskx);
    Z.lor tx (Z.land (to_byte r) maskx) ].

Definition EncodeRune (r : Z) : list Z :=
  if (0 <=? r) && (r <=? rune1Max) then [ to_byte r ]
  else if (0 <=? r) && (r <=? rune2Max) then
    [ Z.lor t2 (to_byte (Z.shiftr r 6));
      Z.lor tx (Z.land (to_byte r) maskx) ]
  else if (r <? 0) || (MaxRune <? r)
          || ((surrogateMin <=? r) && (r <=? surrogateMax)) then
    three RuneError
  else if r <=? rune3Max then three r
  else
    [ Z.lor t4 (to_byte (Z.shiftr r 18));
      Z.lor tx (Z.land (to_byte (Z.shiftr r 12)) maskx);
      Z.lor tx (Z.land (to_byte (Z.shiftr r 6)) maskx);
      Z.lor tx (Z.land (to_byte r) maskx) ].

End utf8.

(** [string(r)] for a rune [r]. *)
Definition string_of_rune (r : Z) : string :=
  string_of_bytes (utf8.EncodeRune r).

(** [for _, r := range s]: the runes of [s] in order.  Every step consumes at
    least one byte, so [len s] steps are enough. *)
Fixpoint range_runes_fuel (fuel : nat) (s : string) : list Z :=
  match fuel with
  | O => []
  | S f =>
    match s with
    | "" => []
    | _ =>
      let '(r, w) := utf8.DecodeRuneInString s in
      r :: range_runes_fuel f (drop w s)
    end
  end.

Definition range_runes (s : string) : list Z := range_runes_fuel (len s) s.

(* ================================================================== *)
(** ** strings *)

Module strings.

(** [strings.HasPrefix]. *)
Fixpoint HasPrefix (s prefix : string) {struct prefix} : bool :=
  match prefix, s with
  | "", _ => true
  | String _ _, "" => false
  | String a p, String b t => Ascii.eqb a b && HasPrefix t p
  end.

(** [strings.Cut(s, sep)]: [s] around the first instance of [sep]. *)
Fixpoint Cut (s sep : string) : string * string * bool :=
  if HasPrefix s sep then ("", drop (len sep) s, true)
  else
    match s with
    | "" => (s, "", false)
    | String c t =>
      match Cut t sep with
      | (before, after, true) => (String c before, after, true)
      | (_, _, false) => (s, "", false)
      end
    end.

(** The left-to-right scan shared by [Split] and [ReplaceAll] for a non-empty
    separator: [skip] counts the bytes of a matched separator still to be
    passed over, so that matches never overlap. *)
Fixpoint split_go (sep : string) (skip : nat) (s : string) : list string :=
  match s with
  | "" => [""]
  | String c t =>
    match skip with
    | S k => split_go sep k t
    | O =>
      if HasPrefix s sep then "" :: split_go sep (len sep - 1) t
      else
        match split_go sep 0 t with
        | h :: tl => String c h :: tl
        | [] => [String c ""]
        end
    end
  end.

(** [strings.Split(s, sep)] for a non-empty [sep]: the substrings between
    the non-overlapping instances of [sep], [Count(s, sep) + 1] of them.
    (For an empty [sep] Go explodes [s] rune by rune; no caller in this
    package passes one, and [s] is returned whole here.) *)
Definition Split (s sep : string) : list string :=
  match sep with
  | "" => [s]
  | _ => split_go sep 0 s
  end.

Fixpoint replace_go (old new : string) (skip : nat) (s : string) : string :=
  match s with
  | "" => ""
  | String c t =>
    match skip with
    | S k => replace_go old new k t
    | O =>
      if HasPrefix s old then new ++ replace_go old new (len old - 1) t
      else String c (replace_go old new 0 t)
    end
  end.

(** [strings.ReplaceAll(s, old, new)] for a non-empty [old]: every
    non-overlapping instance of [old], found left to right, replaced by
    [new].  (For an empty [old] Go inserts [new] around every rune; no caller
    in this package passes one, and [s] is returned unchanged here.) *)
Definition ReplaceAll (s old new : string) : string :=
  match old with
  | "" => s
  | _ => if String.eqb old new then s else replace_go old new 0 s
  end.

End strings.

(* ================================================================== *)
(** ** strconv and fmt *)

Definition wrap64 (x : Z) : Z := x mod 2 ^ 64.

Module strconv.

Definition syntaxError (fn str : string) : error := NumError fn str ErrSyntax.
Definition rangeError (fn str : string) : error := NumError fn str ErrRange.

(** [strconv.ParseBool]. *)
Definition ParseBool (str : string) : result bool :=
  if existsb (String.eqb str) ["1"; "t"; "T"; "true"; "TRUE"; "True"]
  then Ok true
  else if existsb (String.eqb str) ["0"; "f"; "F"; "false"; "FALSE"; "False"]
  then Ok false
  else Err (syntaxError "ParseBool" str).

Definition maxUint64 : Z := 2 ^ 64 - 1.

(** [strconv.IntSize]: the size of an [int], 64 bits on the 64-bit platforms
    (amd64, arm64, ...) this development is about. *)
Definition IntSize : Z := 64.

(** [lower(c)]: [c | ('x' - 'X')]. *)
Definition lower (c : Z) : Z := Z.lor c 32.

(** The value of one byte as a digit, letters included, as the [switch] of
    [ParseUint] computes it. *)
Definition digit_of (c : Z) : option Z :=
  if (48 <=? c) && (c <=? 57) then Some (c - 48)
  else if (97 <=? lower c) && (lower c <=? 122) then Some (lower c - 97 + 10)
  else None.

(** The digit loop of [strconv.ParseUint(s0, base, 64)] for an explicit base
    between 2 and 36 (no prefix, no underscores): [n] is the value read so
    far, [cutoff] the smallest number whose product with [base] overflows. *)
Fixpoint ParseUint_loop (base cutoff : Z) (s0 s : string) (n : Z)
  : result Z :=
  match s with
  | "" => Ok n
  | String c rest =>
    match digit_of (byte c) with
    | None => Err (syntaxError "ParseUint" s0)
    | Some d =>
      if d >=? base then Err (syntaxError "ParseUint" s0)
      else if n >=? cutoff then Err (rangeError "ParseUint" s0)
      else
        let n' := wrap64 (n * base) in
        let n1 := wrap64 (n' + d) in
        if (n1 <? n') || (n1 >? maxUint64)
        then Err (rangeError "ParseUint" s0)
        else ParseUint_loop base cutoff s0 rest n1
    end
  end.

(** [strconv.ParseUint(s, 10, 64)]. *)
Definition ParseUint (s : string) : result Z :=
  match s with
  | "" => Err (syntaxError "ParseUint" s)
  | _ => ParseUint_loop 10 (maxUint64 / 10 + 1) s s 0
  end.

(** [*NumError] of [ParseUint] relabelled by [ParseInt]. *)
Definition relabel (s0 : string) (e : error) : error :=
  match e with
  | NumError _ _ k => NumError "ParseInt" s0 k
  | _ => e
  end.

(** [strconv.ParseInt(s, 10, 64)]. *)
Definition ParseInt (s0 : string) : result Z :=
  match s0 with
  | "" => Err (syntaxError "ParseInt" s0)
  | String c t =>
    let '(neg, s) :=
      if Ascii.eqb c "+" then (false, t)
      else if Ascii.eqb c "-" then (true, t)
      else (false, s0) in
    let cutoff := 2 ^ 63 in
    match ParseUint s with
    | Err (NumError _ _ ErrRange) =>
      (* un is maxUint64 here, past the cutoff for either sign *)
      Err (rangeError "ParseInt" s0)
    | Err e => Err (relabel s0 e)
    | Ok un =>
      if negb neg && (un >=? cutoff) then Err (rangeError "ParseInt" s0)
      else if neg && (un >? cutoff) then Err (rangeError "ParseInt" s0)
      else Ok (if neg then - un else un)
    end
  end.

End strconv.

Module fmt.

Definition digit_char (d : Z) : ascii := ascii_of_Z (48 + d).

(** The digit loop of [fmt]'s integer formatting, least significant digit
    first into the front of [acc]: [for u >= 10 { ... u = u / 10 }] and the
    last digit.  Twenty rounds cover every 64-bit value. *)
Fixpoint digits (fuel : nat) (u : Z) (acc : string) : string :=
  match fuel with
  | O => acc
  | S f =>
    if u <? 10 then String (digit_char u) acc
    else digits f (u / 10) (String (digit_char (u mod 10)) acc)
  end.

(** [%d] of a signed 64-bit integer. *)
Definition d (x : Z) : string :=
  if x <? 0 then String "-" (digits 20 (- x) "") else digits 20 x "".

End fmt.

(* ================================================================== *)
(** ** Values of the collaborating packages *)

(** A [float64] by its IEEE-754 binary64 bit pattern ([math.Float64bits]). *)
Definition float64 : Type := Z.

(** [decimal.Decimal]: an arbitrary-precision coefficient and a power of ten. *)
Record Decimal := { coef : Z; exp10 : Z }.

(** [uuid.UUID]: sixteen bytes. *)
Definition UUID : Type := list Z.

Module time.

(** [*time.Location] by its name and, for an instant in Unix seconds, the
    abbreviation and the offset east of UTC in force. *)
Record Location := { name : string; lookup : Z -> string * Z }.

(** [time.Time]: an instant and the location it is presented in. *)
Record Time := { unixSec : Z; nsec : Z; loc : Location }.

(** [time.FixedZone(name, offset)]. *)
Definition FixedZone (nm : string) (offset : Z) : Location :=
  {| name := nm; lookup := fun _ => (nm, offset) |}.

(** [t.Zone()]. *)
Definition Zone (t : Time) : string * Z := lookup (loc t) (unixSec t).

(** [t.In(loc)]: the same instant presented in [loc]. *)
Definition In (t : Time) (l : Location) : Time :=
  {| unixSec := unixSec t; nsec := nsec t; loc := l |}.

End time.

Module datetime.

(** [datetime.Datetime] wraps a [time.Time]. *)
Record Datetime := { ToTime : time.Time }.

(** [datetime.NoTimezone]. *)
Definition NoTimezone : string := "".

(** [type Adjust int] and its three constants. *)
Definition NoneAdjust : Z := 0.
Definition ExcessAdjust : Z := 1.
Definition LastAdjust : Z := 2.

(** The conversion [datetime.Adjust(x)] of an [int64] [x]: the value
    truncated to the [intSize] bits of an [int], read as signed. *)
Definition Adjust_of_int64 (intSize : Z) (x : Z) : Z :=
  (x + 2 ^ (intSize - 1)) mod 2 ^ intSize - 2 ^ (intSize - 1).

(** [datetime.Interval]: eight [int64] fields and the [Adjust]. *)
Record Interval := {
  Year : Z; Month : Z; Week : Z; Day : Z; Hour : Z; Min : Z; Sec : Z;
  Nsec : Z; Adjust : Z
}.

End datetime.

(** What a converter to [any] can return. *)
#[local] Set Warnings "-register-all".
Inductive value :=
| VNil
| VBool (b : bool)
| VUint64 (n : Z)
| VInt64 (n : Z)
| VFloat64 (f : float64)
| VDecimal (d : Decimal)
| VUUID (u : UUID)
| VDatetime (d : datetime.Datetime)
| VInterval (i : datetime.Interval)
| VString (s : string)
| VBytes (b : string)
| VSlice (l : list value)                 (* []any *)
| VMap (m : list (string * value)).       (* map[string]any, keys distinct *)
#[local] Set Warnings "register-all".

(** The collaborators whose code is outside the package and whose results no
    property below computes with: each is an arbitrary function of its
    arguments. *)
Class GoLibs := {
  strconv_ParseFloat : string -> result float64;
  decimal_NewDecimalFromString : string -> result Decimal;
  uuid_Parse : string -> result UUID;
  time_Parse : string -> string -> result time.Time;
  time_LoadLocation : string -> result time.Location;
  time_ParseInLocation : string -> string -> time.Location -> result time.Time;
  time_Format : time.Time -> string -> string;
  datetime_NewDatetime : time.Time -> result datetime.Datetime
}.

(* ================================================================== *)
(** ** encoding/json: [Unmarshal] into an empty interface *)

Module json.

Definition isSpace (c : ascii) : bool :=
  let b := byte c in (b =? 32) || (b =? 9) || (b =? 13) || (b =? 10).

Fixpoint skip_ws (s : string) : string :=
  match s with
  | String c t => if isSpace c then skip_ws t else s
  | "" => ""
  end.

Definition is_dig (c : ascii) : bool := (48 <=? byte c) && (byte c <=? 57).

(** A run of decimal digits: the value accumulated onto [acc], the number of
    digits read and the rest of the input. *)
Fixpoint digits (s : string) (acc n : Z) : Z * Z * string :=
  match s with
  | String c t =>
    if is_dig c then digits t (10 * acc + (byte c - 48)) (n + 1)
    else (acc, n, s)
  | "" => (acc, n, s)
  end.

(** A JSON number literal at the head of [s]: its sign, the integer [m] its
    digits spell without the point, the power of ten [e] with the literal
    equal to [m * 10^e], and the rest of the input. *)
Definition number (s : string) : option (bool * Z * Z * string) :=
  let '(neg, s1) :=
    match s with
    | String "-" t => (true, t)
    | _ => (false, s)
    end in
  match s1 with
  | "" => None
  | String c t =>
    if negb (is_dig c) then None
    else
      let '(ip, s2) :=
        if byte c =? 48 then (0, t)
        else let '(v, _, r) := digits s1 0 0 in (v, r) in
      let frac :=
        match s2 with
        | String "." t2 =>
          let '(v, n, r) := digits t2 ip 0 in
          if n =? 0 then None else Some (v, n, r)
        | _ => Some (ip, 0, s2)
        end in
      match frac with
      | None => None
      | Some (m, fd, s3) =>
        let exponent (t3 : string) :=
          let '(eneg, t4) :=
            match t3 with
            | String "+" u => (false, u)
            | String "-" u => (true, u)
            | _ => (false, t3)
            end in
          let '(ev, n, r) := digits t4 0 0 in
          if n =? 0 then None
          else Some (neg, m, (if eneg then - ev else ev) - fd, r) in
        match s3 with
        | String "e" t3 => exponent t3
        | String "E" t3 => exponent t3
        | _ => Some (neg, m, - fd, s3)
        end
      end
  end.

(** [p / q >= 2^e] for [p >= 0] and [q > 0]. *)
Definition ge_pow2 (p q e : Z) : bool :=
  if 0 <=? e then q * 2 ^ e <=? p else q <=? p * 2 ^ (- e).

(** The binary64 nearest to [p / q] (ties to even), as [strconv.ParseFloat]
    rounds a decimal literal; [None] when it is infinite, which [ParseFloat]
    reports as a range error. *)
Definition round_float64 (neg : bool) (p q : Z) : option float64 :=
  let sign := if neg then 2 ^ 63 else 0 in
  if p =? 0 then Some sign
  else
    let e0 := Z.log2 p - Z.log2 q in
    let e := if ge_pow2 p q e0 then e0 else e0 - 1 in
    let ex := Z.max e (-1022) in
    let sh := 52 - ex in
    let '(num, den) :=
      if 0 <=? sh then (p * 2 ^ sh, q) else (p, q * 2 ^ (- sh)) in
    let qu := num / den in
    let r := num mod den in
    let m := if (den <? 2 * r) || ((2 * r =? den) && Z.odd qu)
             then qu + 1 else qu in
    let '(m, ex) := if m =? 2 ^ 53 then (2 ^ 52, ex + 1) else (m, ex) in
    if 1023 <? ex then None
    else if m <? 2 ^ 52 then Some (sign + m)
    else Some (sign + (ex + 1023) * 2 ^ 52 + (m - 2 ^ 52)).

Definition float_of_literal (neg : bool) (m e : Z) : option float64 :=
  if 0 <=? e then round_float64 neg (m * 10 ^ e) 1
  else round_float64 neg m (10 ^ (- e)).

Definition hex_of (c : ascii) : option Z :=
  let b := byte c in
  if (48 <=? b) && (b <=? 57) then Some (b - 48)
  else if (97 <=? b) && (b <=? 102) then Some (b - 97 + 10)
  else if (65 <=? b) && (b <=? 70) then Some (b - 65 + 10)
  else None.

(** [getu4]: the rune of a [\uXXXX] escape at the head of [s], or [-1]. *)
Definition getu4 (s : string) : Z :=
  match s with
  | String "\" (String "u" (String a (String b (String c (String d _))))) =>
    match hex_of a, hex_of b, hex_of c, hex_of d with
    | Some x, Some y, Some z, Some w => ((x * 16 + y) * 16 + z) * 16 + w
    | _, _, _, _ => -1
    end
  | _ => -1
  end.

(** [utf16.DecodeRune]. *)
Definition utf16_DecodeRune (r1 r2 : Z) : Z :=
  if (0xD800 <=? r1) && (r1 <? 0xDC00) && (0xDC00 <=? r2) && (r2 <? 0xE000)
  then Z.lor (Z.shiftl (r1 - 0xD800) 10) (r2 - 0xDC00) + 0x10000
  else utf8.RuneError.

Definition utf16_IsSurrogate (r : Z) : bool := (0xD800 <=? r) && (r <? 0xE000).

Definition simple_escape (c : ascii) : option ascii :=
  let b := byte c in
  if (b =? 34) || (b =? 92) || (b =? 47) then Some c       (* quote, \, / *)
  else if b =? 98 then Some (ascii_of_Z 8)                  (* \b *)
  else if b =? 102 then Some (ascii_of_Z 12)                (* \f *)
  else if b =? 110 then Some (ascii_of_Z 10)                (* \n *)
  else if b =? 114 then Some (ascii_of_Z 13)                (* \r *)
  else if b =? 116 then Some (ascii_of_Z 9)                 (* \t *)
  else None.

(** The body of a string literal after its opening quote, unquoted as
    [unquote] does (escapes decoded, ill-formed UTF-8 coerced to U+FFFD), and
    the input after the closing quote. *)
Fixpoint string_body (fuel : nat) (s : string) : option (string * string) :=
  match fuel with
  | O => None
  | S f =>
    match s with
    | "" => None
    | String c t =>
      let b := byte c in
      if b =? 34 then Some ("", t)
      else if b <? 32 then None
      else if b =? 92 then
        match t with
        | "" => None
        | String e t' =>
          if byte e =? 117 then
            let rr := getu4 s in
            if rr <? 0 then None
            else
              let after := drop 6 s in
              let '(rr', after') :=
                if utf16_IsSurrogate rr then
                  let dec := utf16_DecodeRune rr (getu4 after) in
                  if dec =? utf8.RuneError then (utf8.RuneError, after)
                  else (dec, drop 6 after)
                else (rr, after) in
              match string_body f after' with
              | Some (r, rest) => Some (string_of_rune rr' ++ r, rest)
              | None => None
              end
          else
            match simple_escape e with
            | None => None
            | Some x =>
              match string_body f t' with
              | Some (r, rest) => Some (String x r, rest)
              | None => None
              end
            end
        end
      else if b <? 0x80 then
        match string_body f t with
        | Some (r, rest) => Some (String c r, rest)
        | None => None
        end
      else
        let '(rr, size) := utf8.DecodeRuneInString s in
        match string_body f (drop size s) with
        | Some (r, rest) => Some (string_of_rune rr ++ r, rest)
        | None => None
        end
    end
  end.

(** [m[key] = v] on the association list of a decoded object. *)
Fixpoint map_set (k : string) (v : value) (m : list (string * value))
  : list (string * value) :=
  match m with
  | [] => [(k, v)]
  | (k', v') :: t =>
    if String.eqb k k' then (k, v) :: t else (k', v') :: map_set k v t
  end.

Definition maxNestingDepth : Z := 10000.

(** One JSON value at the head of [s] (leading white space skipped), decoded
    into [nil], [bool], [float64], [string], [[]any] or [map[string]any], and
    the input that follows it.  [depth] counts the enclosing arrays and
    objects. *)
Fixpoint decodeValue (fuel : nat) (depth : Z) (s : string)
  : option (value * string) :=
  match fuel with
  | O => None
  | S f =>
    let s := skip_ws s in
    match s with
    | "" => None
    | String c t =>
      let b := byte c in
      if b =? 123 then                               (* { *)
        if maxNestingDepth <? depth + 1 then None
        else
          match skip_ws t with
          | String "}" r => Some (VMap [], r)
          | t' =>
            match decodeObject f (depth + 1) t' [] with
            | Some (m, r) => Some (VMap m, r)
            | None => None
            end
          end
      else if b =? 91 then                           (* [ *)
        if maxNestingDepth <? depth + 1 then None
        else
          match skip_ws t with
          | String "]" r => Some (VSlice [], r)
          | t' =>
            match decodeArray f (depth + 1) t' with
            | Some (l, r) => Some (VSlice l, r)
            | None => None
            end
          end
      else if b =? 34 then                           (* quote *)
        match string_body (S (len t)) t with
        | Some (str, r) => Some (VString str, r)
        | None => None
        end
      else if (b =? 45) || is_dig c then
        match number s with
        | Some (neg, m, e, r) =>
          match float_of_literal neg m e with
          | Some x => Some (VFloat64 x, r)
          | None => None
          end
        | None => None
        end
      else if strings.HasPrefix s "true" then Some (VBool true, drop 4 s)
      else if strings.HasPrefix s "false" then Some (VBool false, drop 5 s)
      else if strings.HasPrefix s "null" then Some (VNil, drop 4 s)
      else None
    end
  end

with decodeArray (fuel : nat) (depth : Z) (s : string)
  : option (list value * string) :=
  match fuel with
  | O => None
  | S f =>
    match decodeValue f depth s with
    | None => None
    | Some (v, r) =>
      match skip_ws r with
      | String "," r' =>
        match decodeArray f depth r' with
        | Some (l, r'') => Some (v :: l, r'')
        | None => None
        end
      | String "]" r' => Some ([v], r')
      | _ => None
      end
    end
  end

with decodeObject (fuel : nat) (depth : Z) (s : string)
                  (acc : list (string * value))
  : option (list (string * value) * string) :=
  match fuel with
  | O => None
  | S f =>
    match skip_ws s with
    | "" => None
    | String c t =>
      if negb (byte c =? 34) then None                (* a key opens with a quote *)
      else
        match string_body (S (len t)) t with
        | None => None
        | Some (key, r) =>
          match skip_ws r with
          | String ":" r1 =>
            match decodeValue f depth r1 with
            | None => None
            | Some (v, r2) =>
              let acc' := map_set key v acc in
              match skip_ws r2 with
              | String "," r3 => decodeObject f depth r3 acc'
              | String "}" r3 => Some (acc', r3)
              | _ => None
              end
            end
          | _ => None
          end
        end
    end
  end.

(** [json.Unmarshal([]byte(src), &result)] for [var result any]: the decoded
    value when [src] is one JSON value surrounded by optional white space and
    every number fits a [float64]; an error otherwise. *)
Definition Unmarshal (src : string) : result value :=
  match decodeValue (2 * len src + 2) 0 src with
  | Some (v, r) =>
    match skip_ws r with
    | "" => Ok v
    | _ => Err (ErrJSON "invalid character after top-level value")
    end
  | None => Err (ErrJSON "invalid JSON or number out of range")
  end.

End json.

(* ================================================================== *)
(** ** converter.go *)

(** [Converter[S, T]]: the [Convert] method of an interface value. *)
Definition Converter (S T : Type) : Type := S -> result T.

(** The conversion of a value to [any]. *)
Class Boxed (S : Type) := box : S -> value.
#[export] Instance Boxed_string : Boxed string := VString.

Module IdentityConverter.
Definition Convert {S} `{Boxed S} : Converter S value :=
  fun src => Ok (box src).
End IdentityConverter.
Definition MakeIdentityConverter {S} `{Boxed S} : Converter S value :=
  IdentityConverter.Convert.

Module FuncConverter.
Record t (S T : Type) := Make { convFunc : S -> result T }.
Definition Convert {S T} (conv : t S T) : Converter S T :=
  fun src => convFunc conv src.
End FuncConverter.
Definition MakeFuncConverter {S T} (convFunc : S -> result T)
  : FuncConverter.t S T := FuncConverter.Make convFunc.

(** The loop of [MakeSequenceConverter]: the first converter that returns a
    nil error decides; the errors of the others are dropped. *)
Fixpoint sequence_loop {S T} `{Fmt S} (converters : list (Converter S T))
    (src : S) : result T :=
  match converters with
  | [] => Err (ErrSeqUnexpectedValue (fmt_v src))
  | conv :: rest =>
    match conv src with
    | Ok r => Ok r
    | Err _ => sequence_loop rest src
    end
  end.

Definition MakeSequenceConverter {S T} `{Fmt S}
    (converters : list (Converter S T)) : Converter S T :=
  FuncConverter.Convert (MakeFuncConverter (sequence_loop converters)).

(** [replaceCharacters]: for every rune [char] of [charsToReplace] in turn,
    [src = strings.ReplaceAll(src, string(char), replaceTo)]. *)
Definition replaceCharacters (src charsToReplace replaceTo : string)
  : string :=
  fold_left
    (fun src char => strings.ReplaceAll src (string_of_rune char) replaceTo)
    (range_runes charsToReplace) src.

Definition lift {A} (f : A -> value) (r : result A) : result value :=
  match r with Ok a => Ok (f a) | Err e => Err e end.

Module StringToBoolConverter.
Definition Convert : Converter string value :=
  fun src => lift VBool (strconv.ParseBool src).
End StringToBoolConverter.
Definition MakeStringToBoolConverter : Converter string value :=
  StringToBoolConverter.Convert.

Module StringToUIntConverter.
Record t := Make { ignoreChars : string }.
Definition Convert (conv : t) : Converter string value :=
  fun src =>
    let src := replaceCharacters src (ignoreChars conv) "" in
    lift VUint64 (strconv.ParseUint src).
End StringToUIntConverter.
Definition MakeStringToUIntConverter (ignoreChars : string)
  : Converter string value :=
  StringToUIntConverter.Convert (StringToUIntConverter.Make ignoreChars).

Module StringToIntConverter.
Record t := Make { ignoreChars : string }.
Definition Convert (conv : t) : Converter string value :=
  fun src =>
    let src := replaceCharacters src (ignoreChars conv) "" in
    lift VInt64 (strconv.ParseInt src).
End StringToIntConverter.
Definition MakeStringToIntConverter (ignoreChars : string)
  : Converter string value :=
  StringToIntConverter.Convert (StringToIntConverter.Make ignoreChars).

Module StringToFloatConverter.
Record t := Make { ignoreChars : string; decSeparators : string }.
Definition Convert `{GoLibs} (conv : t) : Converter string value :=
  fun src =>
    let src := replaceCharacters src (ignoreChars conv) "" in
    let src := replaceCharacters src (decSeparators conv) "." in
    lift VFloat64 (strconv_ParseFloat src).
End StringToFloatConverter.
Definition MakeStringToFloatConverter `{GoLibs}
    (ignoreChars decSeparators : string) : Converter string value :=
  StringToFloatConverter.Convert
    (StringToFloatConverter.Make ignoreChars decSeparators).

Module StringToDecimalConverter.
Record t := Make { ignoreChars : string; decSeparators : string }.
Definition Convert `{GoLibs} (conv : t) : Converter string value :=
  fun src =>
    let src := replaceCharacters src (ignoreChars conv) "" in
    let src := replaceCharacters src (decSeparators conv) "." in
    lift VDecimal (decimal_NewDecimalFromString src).
End StringToDecimalConverter.
Definition MakeStringToDecimalConverter `{GoLibs}
    (ignoreChars decSeparators : string) : Converter string value :=
  StringToDecimalConverter.Convert
    (StringToDecimalConverter.Make ignoreChars decSeparators).

Module StringToUUIDConverter.
Definition Convert `{GoLibs} : Converter string value :=
  fun src => lift VUUID (uuid_Parse src).
End StringToUUIDConverter.
Definition MakeStringToUUIDConverter `{GoLibs} : Converter string value :=
  StringToUUIDConverter.Convert.

(** The datetime converter is the one of release 0.1.0, which the changelog
    describes: two formats, one with a numeric offset and one with a zone
    name.  (The tree also holds the revision before it, which tried four
    layouts in turn and converted to UTC.) *)
Definition dateTimeLayout : string := "2006-01-02T15:04:05.999999999".
Definition dateTimeOffsetLayout : string :=
  "2006-01-02T15:04:05.999999999-0700".

Module StringToDatetimeConverter.
Definition Convert `{GoLibs} : Converter string value :=
  fun src =>
    let '(date, tzName, ok) := strings.Cut src " " in
    if negb ok then
      match time_Parse dateTimeOffsetLayout src with
      | Err err => Err err
      | Ok tm =>
        let '(_, offset) := time.Zone tm in
        let tm := time.In tm (time.FixedZone datetime.NoTimezone offset) in
        lift VDatetime (datetime_NewDatetime tm)
      end
    else
      match time_LoadLocation tzName with
      | Err err => Err err
      | Ok loc =>
        match time_ParseInLocation dateTimeLayout date loc with
        | Err err => Err err
        | Ok tm => lift VDatetime (datetime_NewDatetime tm)
        end
      end.
End StringToDatetimeConverter.
Definition MakeStringToDatetimeConverter `{GoLibs} : Converter string value :=
  StringToDatetimeConverter.Convert.

Module StringToMapConverter.
Definition Convert : Converter string value :=
  fun src =>
    match json.Unmarshal src with
    | Err err => Err err
    | Ok result => Ok result
    end.
End StringToMapConverter.
Definition MakeStringToMapConverter : Converter string value :=
  StringToMapConverter.Convert.

Module StringToSliceConverter.
Definition Convert : Converter string value :=
  fun src =>
    match json.Unmarshal src with
    | Err err => Err err
    | Ok result => Ok result
    end.
End StringToSliceConverter.
Definition MakeStringToSliceConverter : Converter string value :=
  StringToSliceConverter.Convert.

Module StringToBinaryConverter.
Definition Convert : Converter string value := fun src => Ok (VBytes src).
End StringToBinaryConverter.
Definition MakeStringToBinaryConverter : Converter string value :=
  StringToBinaryConverter.Convert.

Module StringToNullConverter.
Record t := Make { nullValue : string }.
Definition Convert (conv : t) : Converter string value :=
  fun src =>
    if negb (String.eqb src (nullValue conv))
    then Err (ErrNullUnexpectedValue src)
    else Ok VNil.
End StringToNullConverter.
Definition MakeStringToNullConverter (nullValue : string)
  : Converter string value :=
  StringToNullConverter.Convert (StringToNullConverter.Make nullValue).

Definition intervalFieldsNumber : nat := 9.
Definition errUnexpectedIntervalFmt : error := ErrUnexpectedIntervalFmt.

Module StringToIntervalConverter.

(** [for i, part := range parts { partsAsInt64[i], err = ParseInt(part) }],
    stopping at the first error. *)
Fixpoint parse_parts (parts : list string) : result (list Z) :=
  match parts with
  | [] => Ok []
  | part :: rest =>
    match strconv.ParseInt part with
    | Err _ => Err errUnexpectedIntervalFmt
    | Ok x =>
      match parse_parts rest with
      | Err e => Err e
      | Ok xs => Ok (x :: xs)
      end
    end
  end.

(** [Convert] where an [int] has [intSize] bits. *)
Definition Convert_sized (intSize : Z) : Converter string value :=
  fun src =>
    let parts := strings.Split src "," in
    if negb (Nat.eqb (List.length parts) intervalFieldsNumber)
    then Err errUnexpectedIntervalFmt
    else
      match parse_parts parts with
      | Err e => Err e
      | Ok partsAsInt64 =>
        let at_ i := nth i partsAsInt64 0 in
        let adjust := datetime.Adjust_of_int64 intSize (at_ 8%nat) in
        if negb (adjust =? datetime.NoneAdjust)
           && negb (adjust =? datetime.ExcessAdjust)
           && negb (adjust =? datetime.LastAdjust)
        then Err errUnexpectedIntervalFmt
        else
          Ok (VInterval
                {| datetime.Year := at_ 0%nat;
                   datetime.Month := at_ 1%nat;
                   datetime.Week := at_ 2%nat;
                   datetime.Day := at_ 3%nat;
                   datetime.Hour := at_ 4%nat;
                   datetime.Min := at_ 5%nat;
                   datetime.Sec := at_ 6%nat;
                   datetime.Nsec := at_ 7%nat;
                   datetime.Adjust := adjust |})
      end.

Definition Convert : Converter string value := Convert_sized strconv.IntSize.

End StringToIntervalConverter.
Definition MakeStringToIntervalConverter : Converter string value :=
  StringToIntervalConverter.Convert.

Module DatetimeToStringConverter.
Definition Convert `{GoLibs} : Converter datetime.Datetime string :=
  fun dt =>
    let tm := datetime.ToTime dt in
    let zone := time.name (time.loc tm) in
    if negb (String.eqb zone "")
    then Ok (time_Format tm dateTimeLayout ++ " " ++ zone)
    else Ok (time_Format tm dateTimeOffsetLayout).
End DatetimeToStringConverter.

Module IntervalToStringConverter.
Definition Convert : Converter datetime.Interval string :=
  fun interval =>
    let ret :=
      String.concat ","
        (map fmt.d
           [ datetime.Year interval; datetime.Month interval;
             datetime.Week interval; datetime.Day interval;
             datetime.Hour interval; datetime.Min interval;
             datetime.Sec interval; datetime.Nsec interval;
             datetime.Adjust interval ]) in
    Ok ret.
End IntervalToStringConverter.
Definition MakeIntervalToStringConverter : Converter datetime.Interval string :=
  IntervalToStringConverter.Convert.

(* ================================================================== *)
(** ** tt.go *)

Definition TypeName : Type := string.

Definition TypeBoolean : TypeName := "boolean".
Definition TypeString : TypeName := "string".
Definition TypeInteger : TypeName := "integer".
Definition TypeUnsigned : TypeName := "unsigned".
Definition TypeDouble : TypeName := "double".
Definition TypeNumber : TypeName := "number".
Definition TypeDecimal : TypeName := "decimal".
Definition TypeDatetime : TypeName := "datetime".
Definition TypeUUID : TypeName := "uuid".
Definition TypeArray : TypeName := "array".
Definition TypeMap : TypeName := "map".
Definition TypeVarbinary : TypeName := "varbinary".
Definition TypeScalar : TypeName := "scalar".
Definition TypeAny : TypeName := "any".
Definition TypeInterval : TypeName := "interval".

Definition defaultThousandSeparators : string := "".
Definition defaultDecimalSeparators : string := ".".
Definition defaultNullValue : string := "".

(** The interface [TTConvFactory[Type]]: one method per field. *)
Record TTConvFactory (Ty : Type) := {
  GetBooleanConverter : Converter Ty value;
  GetStringConverter : Converter Ty value;
  GetUnsignedConverter : Converter Ty value;
  GetDatetimeConverter : Converter Ty value;
  GetUUIDConverter : Converter Ty value;
  GetMapConverter : Converter Ty value;
  GetArrayConverter : Converter Ty value;
  GetVarbinaryConverter : Converter Ty value;
  GetDoubleConverter : Converter Ty value;
  GetDecimalConverter : Converter Ty value;
  GetIntegerConverter : Converter Ty value;
  GetNumberConverter : Converter Ty value;
  GetAnyConverter : Converter Ty value;
  GetScalarConverter : Converter Ty value;
  GetIntervalConverter : Converter Ty value;
  MakeNullableConverter : Converter Ty value -> Converter Ty value
}.

Module StringToTTConvFactory.

Record t := Make {
  thousandSeparators : string;
  decimalSeparators : string;
  nullValue : string
}.

Section Methods.
Context `{GoLibs}.
Variable fac : t.

Definition GetBooleanConverter : Converter string value :=
  MakeStringToBoolConverter.
Definition GetStringConverter : Converter string value :=
  MakeIdentityConverter.
Definition GetUnsignedConverter : Converter string value :=
  MakeStringToUIntConverter (thousandSeparators fac).
Definition GetDatetimeConverter : Converter string value :=
  MakeStringToDatetimeConverter.
Definition GetUUIDConverter : Converter string value :=
  MakeStringToUUIDConverter.
Definition GetMapConverter : Converter string value :=
  MakeStringToMapConverter.
Definition GetArrayConverter : Converter string value :=
  MakeStringToSliceConverter.
Definition GetVarbinaryConverter : Converter string value :=
  MakeStringToBinaryConverter.
Definition GetDoubleConverter : Converter string value :=
  MakeStringToFloatConverter (thousandSeparators fac)
                             (decimalSeparators fac).
Definition GetDecimalConverter : Converter string value :=
  MakeStringToDecimalConverter (thousandSeparators fac)
                               (decimalSeparators fac).
Definition GetIntegerConverter : Converter string value :=
  MakeSequenceConverter
    [ MakeStringToUIntConverter (thousandSeparators fac);
      MakeStringToIntConverter (thousandSeparators fac) ].
Definition GetNumberConverter : Converter string value :=
  MakeSequenceConverter
    [ MakeStringToUIntConverter (thousandSeparators fac);
      MakeStringToIntConverter (thousandSeparators fac);
      MakeStringToFloatConverter (thousandSeparators fac)
                                 (decimalSeparators fac) ].
Definition GetIntervalConverter : Converter string value :=
  MakeStringToIntervalConverter.
Definition GetAnyConverter : Converter string value :=
  MakeSequenceConverter
    [ GetNumberConverter;
      GetDecimalConverter;
      GetBooleanConverter;
      GetDatetimeConverter;
      GetUUIDConverter;
      GetIntervalConverter;
      GetStringConverter ].
Definition GetScalarConverter : Converter string value :=
  MakeSequenceConverter
    [ GetNumberConverter;
      GetDecimalConverter;
      GetBooleanConverter;
      GetDatetimeConverter;
      GetUUIDConverter;
      GetIntervalConverter;
      GetStringConverter ].
Definition MakeNullableConverter (converter : Converter string value)
  : Converter string value :=
  MakeSequenceConverter
    [ MakeStringToNullConverter (nullValue fac);
      converter ].
End Methods.

Definition WithNullValue (fac : t) (nullValue : string) : t :=
  Make (thousandSeparators fac) (decimalSeparators fac) nullValue.
Definition WithThousandSeparators (fac : t) (separators : string) : t :=
  Make separators (decimalSeparators fac) (nullValue fac).
Definition WithDecimalSeparators (fac : t) (separators : string) : t :=
  Make (thousandSeparators fac) separators (nullValue fac).

(** The struct seen through the interface [TTConvFactory[string]]
    (the declaration [var _ TTConvFactory[string]] of the source). *)
Definition as_factory `{GoLibs} (fac : t) : TTConvFactory string :=
  Build_TTConvFactory
    GetBooleanConverter
    GetStringConverter
    (GetUnsignedConverter fac)
    GetDatetimeConverter
    GetUUIDConverter
    GetMapConverter
    GetArrayConverter
    GetVarbinaryConverter
    (GetDoubleConverter fac)
    (GetDecimalConverter fac)
    (GetIntegerConverter fac)
    (GetNumberConverter fac)
    (GetAnyConverter fac)
    (GetScalarConverter fac)
    GetIntervalConverter
    (MakeNullableConverter fac).

End StringToTTConvFactory.

Definition MakeStringToTTConvFactory : StringToTTConvFactory.t :=
  StringToTTConvFactory.Make defaultThousandSeparators
                             defaultDecimalSeparators
                             defaultNullValue.

(** [GetConverterByType]: the [switch] over the type name. *)
Definition GetConverterByType {Ty} (fac : TTConvFactory Ty)
    (typ : TypeName) : result (Converter Ty value) :=
  if String.eqb typ TypeBoolean then Ok (GetBooleanConverter fac)
  else if String.eqb typ TypeString then Ok (GetStringConverter fac)
  else if String.eqb typ TypeUnsigned then Ok (GetUnsignedConverter fac)
  else if String.eqb typ TypeDatetime then Ok (GetDatetimeConverter fac)
  else if String.eqb typ TypeUUID then Ok (GetUUIDConverter fac)
  else if String.eqb typ TypeMap then Ok (GetMapConverter fac)
  else if String.eqb typ TypeArray then Ok (GetArrayConverter fac)
  else if String.eqb typ TypeVarbinary then Ok (GetVarbinaryConverter fac)
  else if String.eqb typ TypeDouble then Ok (GetDoubleConverter fac)
  else if String.eqb typ TypeDecimal then Ok (GetDecimalConverter fac)
  else if String.eqb typ TypeInteger then Ok (GetIntegerConverter fac)
  else if String.eqb typ TypeNumber then Ok (GetNumberConverter fac)
  else if String.eqb typ TypeAny then Ok (GetAnyConverter fac)
  else if String.eqb typ TypeScalar then Ok (GetScalarConverter fac)
  else if String.eqb typ TypeInterval then Ok (GetIntervalConverter fac)
  else Err (ErrUnexpectedType typ).

(** [SpaceField]. *)
Record SpaceField := {
  Id : Z;
  Name : string;
  Type_ : TypeName;
  IsNullable : bool
}.

(** The converter [MakeTypeToTTConverters] stores for one field: the field's
    converter with every error re-reported under the field's type name. *)
Definition field_converter {Ty} `{Fmt Ty} (typ : TypeName)
    (conv : Converter Ty value) : Converter Ty value :=
  FuncConverter.Convert
    (MakeFuncConverter
       (fun s =>
          match conv s with
          | Err _ => Err (ErrUnexpectedValueForType (fmt_v s) typ)
          | Ok result => Ok result
          end)).

(** [MakeTypeToTTConverters]: [converters[i]] is assigned in the [i]-th round
    of the loop over [spaceFmt]; the first dispatch error ends the loop and
    is returned with a nil slice. *)
Fixpoint MakeTypeToTTConverters {Ty} `{Fmt Ty}
    (fac : TTConvFactory Ty) (spaceFmt : list SpaceField)
  : result (list (Converter Ty value)) :=
  match spaceFmt with
  | [] => Ok []
  | fieldFmt :: rest =>
    let typ := Type_ fieldFmt in
    match GetConverterByType fac typ with
    | Err err => Err err
    | Ok conv =>
      let conv :=
        if IsNullable fieldFmt then MakeNullableConverter fac conv else conv in
      match MakeTypeToTTConverters fac rest with
      | Err err => Err err
      | Ok converters => Ok (field_converter typ conv :: converters)
      end
    end
  end.

(* ================================================================== *)
(** ** mapper.go *)

(** How a call ends: it returns its result pair, or the runtime panics (a
    nil pointer is dereferenced, an index is out of range). *)
Inductive outcome (T : Type) :=
| Returns (r : result T)
| Panics.
Arguments Returns {T} r.
Arguments Panics {T}.

Module Mapper.

Record t (S T : Type) := Make {
  converters : list (Converter S T);
  defaultConverter : option (Converter S T)      (* nil is None *)
}.
Arguments Make {S T} _ _.

Section Methods.
Context {S T : Type}.

Definition WithDefaultConverter (mapper : t S T)
    (converter : Converter S T) : t S T :=
  Make (converters mapper) (Some converter).

(** [validateTuple]: the error, or [None] for nil. *)
Definition validateTuple (mapper : t S T) (tuple : list S)
  : option error :=
  if (List.length (converters mapper) <? List.length tuple)%nat
     && match defaultConverter mapper with None => true | _ => false end
  then Some ErrTupleLength
  else None.

(** The loop of [Map] from index [i] on. *)
Fixpoint map_loop (mapper : t S T) (i : nat) (tuple : list S)
  : outcome (list T) :=
  match tuple with
  | [] => Returns (Ok [])
  | field :: rest =>
    let conv :=
      if (i <? List.length (converters mapper))%nat
      then nth_error (converters mapper) i
      else defaultConverter mapper in
    match conv with
    | None => Panics
    | Some c =>
      match c field with
      | Err err => Returns (Err err)
      | Ok r =>
        match map_loop mapper (Datatypes.S i) rest with
        | Returns (Ok rs) => Returns (Ok (r :: rs))
        | other => other
        end
      end
    end
  end.

Definition Map (mapper : t S T) (tuple : list S) : outcome (list T) :=
  match validateTuple mapper tuple with
  | Some err => Returns (Err err)
  | None => map_loop mapper 0 tuple
  end.
End Methods.

End Mapper.

Definition MakeMapper {S T} (converters : list (Converter S T))
  : Mapper.t S T := Mapper.Make converters None.

(* ================================================================== *)
(** * Vocabulary of the specification

    The predicates and the reference functions the properties below are
    stated with. *)

(** ** Digit strings and integer literals *)

(** A decimal digit, and a string of decimal digits. *)
Definition is_digit (c : ascii) : bool := (48 <=? byte c) && (byte c <=? 57).

Fixpoint all_digits (s : string) : bool :=
  match s with
  | "" => true
  | String c t => is_digit c && all_digits t
  end.

(** The number a digit string spells, continuing from [acc]. *)
Fixpoint dval (s : string) (acc : Z) : Z :=
  match s with
  | "" => acc
  | String c t => dval t (10 * acc + (byte c - 48))
  end.

(** The [cutoff] of [ParseUint] for base 10. *)
Definition cutoff64 : Z := strconv.maxUint64 / 10 + 1.

(** What [ParseUint] accepts: a non-empty string of decimal digits. *)
Definition uint_literal (s : string) (x : Z) : Prop :=
  s <> "" /\ all_digits s = true /\ dval s 0 = x.

(** The range of a Go [int64]. *)
Definition int64 (x : Z) : Prop := - 2 ^ 63 <= x < 2 ^ 63.

(** What [ParseInt] accepts: an optional sign, then a non-empty string of
    decimal digits, the number spelled being a signed 64-bit integer. *)
Definition int64_literal (s : string) (x : Z) : Prop :=
  exists (sign body : string),
    s = sign ++ body /\
    (sign = "" \/ sign = "+" \/ sign = "-") /\
    body <> "" /\ all_digits body = true /\
    x = (if String.eqb sign "-" then - dval body 0 else dval body 0) /\
    int64 x.

(** No byte of the string is a comma. *)
Fixpoint no_comma (s : string) : bool :=
  match s with
  | "" => true
  | String c t => negb (Ascii.eqb c ",") && no_comma t
  end.

(** ** Intervals *)

(** One of the three adjust codes the interval parser accepts. *)
Definition valid_adjust (a : Z) : Prop :=
  a = datetime.NoneAdjust \/ a = datetime.ExcessAdjust
  \/ a = datetime.LastAdjust.

(** The fields of an interval in the order [IntervalToStringConverter]
    writes them. *)
Definition interval_fields (iv : datetime.Interval) : list Z :=
  [ datetime.Year iv; datetime.Month iv; datetime.Week iv; datetime.Day iv;
    datetime.Hour iv; datetime.Min iv; datetime.Sec iv; datetime.Nsec iv;
    datetime.Adjust iv ].

(** Every field holds a signed 64-bit integer, as the Go types say. *)
Definition typed_interval (iv : datetime.Interval) : Prop :=
  Forall int64 (interval_fields iv).

(** A well-formed interval: typed, with one of the three adjust codes. *)
Definition wf_interval (iv : datetime.Interval) : Prop :=
  typed_interval iv /\ valid_adjust (datetime.Adjust iv).

(** The interval of the package's [TestMakeIntervalToStringConverter]. *)
Definition interval_1234 : datetime.Interval :=
  {| datetime.Year := 1234; datetime.Month := 11; datetime.Week := 22;
     datetime.Day := 33; datetime.Hour := 44; datetime.Min := 55;
     datetime.Sec := 66; datetime.Nsec := 77;
     datetime.Adjust := datetime.LastAdjust |}.

(** ** Type names and the assembler *)

(** The type names of the [const] block. *)
Definition TypeNames : list TypeName :=
  [ TypeBoolean; TypeString; TypeInteger; TypeUnsigned; TypeDouble;
    TypeNumber; TypeDecimal; TypeDatetime; TypeUUID; TypeArray; TypeMap;
    TypeVarbinary; TypeScalar; TypeAny; TypeInterval ].

(** A type name [GetConverterByType] has a case for. *)
Definition known_type (typ : TypeName) : bool :=
  existsb (String.eqb typ) TypeNames.

Definition known_field (f : SpaceField) : Prop :=
  known_type (Type_ f) = true.

(** What the assembler stores for a field. *)
Definition assembled {Ty} `{Fmt Ty} (fac : TTConvFactory Ty)
    (f : SpaceField) (c : Converter Ty value) : Prop :=
  exists base,
    GetConverterByType fac (Type_ f) = Ok base /\
    c = field_converter (Type_ f)
          (if IsNullable f then MakeNullableConverter fac base else base).

(** ** Positional application *)

(** Positional application as the specification words it: the converters
    and the fields are paired off in order, the first error ends the run. *)
Fixpoint zip_convert {Src Dst} (converters : list (Converter Src Dst))
    (tuple : list Src) : result (list Dst) :=
  match converters, tuple with
  | c :: cs, x :: xs =>
    match c x with
    | Err e => Err e
    | Ok r =>
      match zip_convert cs xs with
      | Ok rs => Ok (r :: rs)
      | Err e => Err e
      end
    end
  | _, _ => Ok []
  end.

(** The converter [Map] uses at index [k]. *)
Definition converter_at {Src Dst} (mapper : Mapper.t Src Dst) (k : nat)
  : option (Converter Src Dst) :=
  if (k <? List.length (Mapper.converters mapper))%nat
  then nth_error (Mapper.converters mapper) k
  else Mapper.defaultConverter mapper.

(** ** Encoded runes and inserted separators *)

(** The three kinds of byte of a UTF-8 sequence. *)
Definition ascii_byte (c : ascii) : bool := byte c <? 0x80.
Definition lead_byte (c : ascii) : bool := 0xC0 <=? byte c.
Definition cont_byte (c : ascii) : bool :=
  (0x80 <=? byte c) && (byte c <? 0xC0).

Fixpoint all_cont (s : string) : bool :=
  match s with
  | "" => true
  | String c t => cont_byte c && all_cont t
  end.

Fixpoint all_ascii (s : string) : bool :=
  match s with
  | "" => true
  | String c t => ascii_byte c && all_ascii t
  end.

(** The number of continuation bytes a lead byte announces. *)
Definition cont_len (c : ascii) : nat :=
  if byte c <? 0xE0 then 1 else if byte c <? 0xF0 then 2 else 3.

(** What [string(r)] looks like: one ASCII byte, or a lead byte followed by
    as many continuation bytes as it announces. *)
Inductive rune_shape : string -> Prop :=
| shape_ascii (c : ascii) :
    ascii_byte c = true -> rune_shape (String c "")
| shape_multi (c : ascii) (rest : string) :
    lead_byte c = true -> all_cont rest = true -> len rest = cont_len c ->
    rune_shape (String c rest).

(** Whether removing [e] consumes the ASCII byte [ch]. *)
Definition hits (e : string) (ch : ascii) : bool :=
  match e with
  | String b "" => Ascii.eqb b ch
  | _ => false
  end.

(** [Inserted c n s]: [s] is [n] with copies of [c] put in at any places,
    the bytes of [n] kept in order. *)
Inductive Inserted (c : string) : string -> string -> Prop :=
| Ins_nil : Inserted c "" ""
| Ins_keep (ch : ascii) (n s : string) :
    Inserted c n s -> Inserted c (String ch n) (String ch s)
| Ins_sep (n s : string) :
    Inserted c n s -> Inserted c n (c ++ s).

(** The fold of [replaceCharacters] over the runes of the separator set. *)
Definition strip (runes : list Z) (src : string) : string :=
  fold_left (fun src char => strings.ReplaceAll src (string_of_rune char) "")
            runes src.

(** A rune that is a decimal digit. *)
Definition digit_rune (r : Z) : bool := (48 <=? r) && (r <=? 57).

(** ** Datetime inputs and JSON shapes *)

(** Some byte of the string is a space. *)
Fixpoint has_space (s : string) : bool :=
  match s with
  | "" => false
  | String c t => Ascii.eqb c " " || has_space t
  end.

(** The Go types [json.Unmarshal] stores in an [any]. *)
Definition json_top (v : value) : Prop :=
  match v with
  | VNil | VBool _ | VFloat64 _ | VString _ | VSlice _ | VMap _ => True
  | _ => False
  end.

(** The two top-level shapes the converters are named after. *)
Definition is_slice (v : value) : bool :=
  match v with VSlice _ => true | _ => false end.

Definition is_map (v : value) : bool :=
  match v with VMap _ => true | _ => false end.

(** ** Sequences of converters *)

(** Every converter of the list fails on [src]. *)
Definition all_fail {A B} (converters : list (Converter A B)) (src : A)
  : Prop :=
  Forall (fun p => exists e, p src = Err e) converters.

(** ** Separator sets of ASCII characters *)

(** The byte [c] occurs in [set]. *)
Fixpoint contains (set : string) (c : ascii) : bool :=
  match set with
  | "" => false
  | String b t => Ascii.eqb b c || contains t c
  end.

(** The bytes of [s] that satisfy [keep], in order. *)
Fixpoint filter_bytes (keep : ascii -> bool) (s : string) : string :=
  match s with
  | "" => ""
  | String c t =>
    if keep c then String c (filter_bytes keep t) else filter_bytes keep t
  end.

(** [s] with [f] applied to every byte. *)
Fixpoint map_bytes (f : ascii -> ascii) (s : string) : string :=
  match s with
  | "" => ""
  | String c t => String (f c) (map_bytes f t)
  end.

(** [s] with every byte [b] replaced by the string [new]. *)
Fixpoint replace_byte (b : ascii) (new : string) (s : string) : string :=
  match s with
  | "" => ""
  | String c t =>
    if Ascii.eqb b c then new ++ replace_byte b new t
    else String c (replace_byte b new t)
  end.

(** Deleting the bytes of [ths], as the numeric converters do first. *)
Definition delete_set (ths : string) (s : string) : string :=
  filter_bytes (fun c => negb (contains ths c)) s.

(** Turning the bytes of [decs] into the point, as the float and decimal
    converters do next. *)
Definition fold_set (decs : string) (s : string) : string :=
  map_bytes (fun c => if contains decs c then "."%char else c) s.

(** Collaborators that refuse every input: what a property shown on a
    concrete input is instantiated with when the parsers of the other
    packages play no part in it. *)
Definition refusing_libs : GoLibs :=
  {| strconv_ParseFloat := fun s => Err (ErrLib s);
     decimal_NewDecimalFromString := fun s => Err (ErrLib s);
     uuid_Parse := fun s => Err (ErrLib s);
     time_Parse := fun _ s => Err (ErrLib s);
     time_LoadLocation := fun s => Err (ErrLib s);
     time_ParseInLocation := fun _ s _ => Err (ErrLib s);
     time_Format := fun _ layout => layout;
     datetime_NewDatetime := fun t => Ok (datetime.Build_Datetime t) |}.

(** ** Printed integers *)

(** Every byte of [s] satisfies [p]. *)
Fixpoint all_bytes (p : ascii -> bool) (s : string) : bool :=
  match s with
  | "" => true
  | String c t => p c && all_bytes p t
  end.

(** A byte a printed integer is made of: a decimal digit or the minus
    sign. *)
Definition numeral_byte (c : ascii) : bool :=
  is_digit c || Ascii.eqb c "-".

(** A thousand-separator set of ASCII characters none of which is a digit
    or the minus sign. *)
Definition plain_separators (ths : string) : bool :=
  all_ascii ths && all_bytes (fun c => negb (numeral_byte c)) ths.

(** [%d] of an unsigned 64-bit integer. *)
Definition fmt_u (x : Z) : string := fmt.digits 20 x "".

(** ** The mapper, position by position *)

(** The fields of [tuple] before index [k] are converted without error by
    the converters [Map] uses at their positions. *)
Definition converted_before {A B} (mapper : Mapper.t A B) (tuple : list A)
    (k : nat) : Prop :=
  forall (j : nat) (y : A),
    (j < k)%nat -> nth_error tuple j = Some y ->
    exists d r, converter_at mapper j = Some d /\ d y = Ok r.

(** [rs] holds, position by position, the results of the converters [Map]
    uses on the fields of [tuple]. *)
Definition converted_pointwise {A B} (mapper : Mapper.t A B)
    (tuple : list A) (rs : list B) : Prop :=
  List.length rs = List.length tuple /\
  forall (k : nat) (x : A),
    nth_error tuple k = Some x ->
    exists c r, converter_at mapper k = Some c /\ c x = Ok r /\
                nth_error rs k = Some r.

(** ** Assembled converters *)

(** The converter the assembler wraps for the field [f]: the one the type
    name dispatches to, made nullable when the field is. *)
Definition wrapped {Ty} (fac : TTConvFactory Ty) (f : SpaceField)
    (base : Converter Ty value) : Converter Ty value :=
  if IsNullable f then MakeNullableConverter fac base else base.

(** An unsigned field, not nullable, and the schema made of it. *)
Definition field_id : SpaceField :=
  {| Id := 1; Name := "id"; Type_ := TypeUnsigned; IsNullable := false |}.

Definition schema_id : list SpaceField := [field_id].

(** ** Inputs no integer parser takes *)

(** What the number converter does with a text neither integer parser
    takes: the float parser's value, or the error of the sequence. *)
Definition float_or_fail `{GoLibs} (s : string) : result value :=
  match strconv_ParseFloat s with
  | Ok f => Ok (VFloat64 f)
  | Err _ => Err (ErrSeqUnexpectedValue s)
  end.

(* ================================================================== *)
(** * Properties *)

(** ** Bytes and digit strings *)

Lemma byte_range (c : ascii) : 0 <= byte c < 256.
Proof.
  unfold byte. pose proof (N_ascii_bounded c) as Hb. lia.
Qed.

Lemma byte_ascii_of_Z (z : Z) : 0 <= z < 256 -> byte (ascii_of_Z z) = z.
Proof.
  intros Hz. unfold byte, ascii_of_Z.
  rewrite N_ascii_embedding by lia. lia.
Qed.

Lemma byte_inj (a b : ascii) : byte a = byte b -> a = b.
Proof.
  unfold byte. intros Hab.
  rewrite <- (ascii_N_embedding a), <- (ascii_N_embedding b).
  f_equal. lia.
Qed.

Lemma ascii_eqb_byte (a b : ascii) : Ascii.eqb a b = (byte a =? byte b).
Proof.
  destruct (Ascii.eqb_spec a b) as [->|Hne].
  - now rewrite Z.eqb_refl.
  - symmetry. apply Z.eqb_neq. intro Hb. now apply Hne, byte_inj.
Qed.

Lemma append_assoc (a b c : string) : (a ++ b) ++ c = a ++ (b ++ c).
Proof. induction a as [|x a IH]; cbn [append]; [reflexivity|now rewrite IH]. Qed.

Lemma append_nil_r (a : string) : a ++ "" = a.
Proof. induction a as [|x a IH]; cbn [append]; [reflexivity|now rewrite IH]. Qed.

Lemma len_append (a b : string) : len (a ++ b) = (len a + len b)%nat.
Proof.
  unfold len. induction a as [|x a IH]; cbn [append String.length];
    [reflexivity|now rewrite IH].
Qed.

Lemma is_digit_bounds c : is_digit c = true <-> 48 <= byte c <= 57.
Proof. unfold is_digit. rewrite andb_true_iff, !Z.leb_le. tauto. Qed.

Lemma dval_ge (s : string) : forall acc,
  all_digits s = true -> 0 <= acc -> acc <= dval s acc.
Proof.
  induction s as [|c t IH]; intros acc Hd Hacc; cbn [dval all_digits] in *;
    [lia|].
  apply andb_true_iff in Hd as [Hc Ht]. apply is_digit_bounds in Hc.
  specialize (IH (10 * acc + (byte c - 48)) Ht). lia.
Qed.

Lemma dval_app (a b : string) : forall acc,
  dval (a ++ b) acc = dval b (dval a acc).
Proof. induction a as [|c t IH]; intros acc; simpl; auto. Qed.

Lemma all_digits_app (a b : string) :
  all_digits (a ++ b) = all_digits a && all_digits b.
Proof.
  induction a as [|c t IH]; simpl; auto. now rewrite IH, andb_assoc.
Qed.

(** ** strconv *)

Lemma digit_of_decimal (b : Z) :
  48 <= b <= 57 -> strconv.digit_of b = Some (b - 48).
Proof.
  intros Hb. unfold strconv.digit_of.
  replace ((48 <=? b) && (b <=? 57)) with true by lia. reflexivity.
Qed.

Lemma digit_of_below_ten (b d : Z) :
  strconv.digit_of b = Some d -> d < 10 -> 48 <= b <= 57 /\ d = b - 48.
Proof.
  unfold strconv.digit_of.
  destruct ((48 <=? b) && (b <=? 57)) eqn:Hdig.
  - intros [= <-] _. lia.
  - destruct ((97 <=? strconv.lower b) && (strconv.lower b <=? 122)) eqn:Hl;
      [|discriminate].
    intros [= <-] Hlt. lia.
Qed.

Lemma ParseUint_loop_digits (s0 : string) (s : string) : forall n,
  all_digits s = true -> 0 <= n <= strconv.maxUint64 ->
  strconv.ParseUint_loop 10 cutoff64 s0 s n =
  if dval s n <=? strconv.maxUint64 then Ok (dval s n)
  else Err (strconv.rangeError "ParseUint" s0).
Proof.
  induction s as [|c t IH]; intros n Hd Hn;
    cbn [strconv.ParseUint_loop dval all_digits] in *.
  - replace (n <=? strconv.maxUint64) with true by lia. reflexivity.
  - apply andb_true_iff in Hd as [Hc Ht].
    apply is_digit_bounds in Hc.
    rewrite digit_of_decimal by assumption.
    replace (byte c - 48 >=? 10) with false by lia.
    pose proof (@dval_ge t (10 * n + (byte c - 48)) Ht ltac:(lia)) as Hge.
    unfold cutoff64, strconv.maxUint64, wrap64 in *.
    change (2 ^ 64 - 1) with 18446744073709551615 in *.
    change (18446744073709551615 / 10 + 1) with 1844674407370955162 in *.
    change (2 ^ 64) with 18446744073709551616 in *.
    destruct (n >=? 1844674407370955162) eqn:Hcut.
    + replace (dval t (10 * n + (byte c - 48)) <=? 18446744073709551615)
        with false by lia.
      reflexivity.
    + rewrite (Z.mod_small (n * 10)) by lia.
      destruct (Z_lt_dec (n * 10 + (byte c - 48)) 18446744073709551616)
        as [Hfit|Hover].
      * rewrite (Z.mod_small (n * 10 + (byte c - 48))) by lia.
        replace ((n * 10 + (byte c - 48) <? n * 10)
                 || (n * 10 + (byte c - 48) >? 18446744073709551615))
          with false by lia.
        rewrite IH by (auto; lia).
        now replace (n * 10 + (byte c - 48)) with (10 * n + (byte c - 48))
          by lia.
      * assert (Hw : (n * 10 + (byte c - 48)) mod 18446744073709551616
                     = n * 10 + (byte c - 48) - 18446744073709551616).
        { symmetry. apply Z.mod_unique with (q := 1); lia. }
        rewrite Hw.
        replace ((n * 10 + (byte c - 48) - 18446744073709551616 <? n * 10)
                 || (n * 10 + (byte c - 48) - 18446744073709551616
                     >? 18446744073709551615))
          with true by lia.
        replace (dval t (10 * n + (byte c - 48)) <=? 18446744073709551615)
          with false by lia.
        reflexivity.
Qed.

Lemma wrap64_range (x : Z) : 0 <= wrap64 x <= strconv.maxUint64.
Proof.
  unfold wrap64, strconv.maxUint64.
  pose proof (Z.mod_pos_bound x (2 ^ 64) ltac:(lia)). lia.
Qed.

Lemma ParseUint_loop_inv (s0 : string) (s : string) : forall n x,
  strconv.ParseUint_loop 10 cutoff64 s0 s n = Ok x -> all_digits s = true.
Proof.
  induction s as [|c t IH]; intros n x Hp;
    cbn [strconv.ParseUint_loop all_digits] in *; [reflexivity|].
  destruct (strconv.digit_of (byte c)) as [d|] eqn:Hd; [|discriminate].
  destruct (d >=? 10) eqn:Hten; [discriminate|].
  apply digit_of_below_ten in Hd as [Hb _]; [|lia].
  destruct (n >=? cutoff64); [discriminate|].
  match type of Hp with
  | (if ?b then _ else _) = _ => destruct b; [discriminate|]
  end.
  apply IH in Hp. rewrite Hp, andb_true_r. now apply is_digit_bounds.
Qed.

Lemma ParseUint_digits (s : string) :
  s <> "" -> all_digits s = true ->
  strconv.ParseUint s =
  if dval s 0 <=? strconv.maxUint64 then Ok (dval s 0)
  else Err (strconv.rangeError "ParseUint" s).
Proof.
  intros Hne Hd. destruct s as [|c t]; [congruence|].
  unfold strconv.ParseUint.
  apply (@ParseUint_loop_digits (String c t) (String c t) 0 Hd).
  unfold strconv.maxUint64. lia.
Qed.

Lemma ParseUint_spec (s : string) (x : Z) :
  strconv.ParseUint s = Ok x <->
  uint_literal s x /\ x <= strconv.maxUint64.
Proof.
  split.
  - intros Hp.
    assert (Hne : s <> "") by (intros ->; discriminate).
    assert (Hd : all_digits s = true).
    { destruct s as [|c t]; [congruence|].
      unfold strconv.ParseUint in Hp. eapply ParseUint_loop_inv, Hp. }
    rewrite (ParseUint_digits Hne Hd) in Hp.
    destruct (dval s 0 <=? strconv.maxUint64) eqn:Hle; [|discriminate].
    injection Hp as <-. repeat split; auto. lia.
  - intros [(Hne & Hd & <-) Hle].
    rewrite (ParseUint_digits Hne Hd).
    now replace (dval s 0 <=? strconv.maxUint64) with true by lia.
Qed.

Lemma ParseUint_not_digits (s : string) :
  all_digits s = false ->
  exists e, strconv.ParseUint s = Err e.
Proof.
  intros Hd. destruct (strconv.ParseUint s) as [x|e] eqn:Hp; [|eauto].
  apply ParseUint_spec in Hp as [(_ & Hd' & _) _]. congruence.
Qed.

Lemma int64_literal_intro (sign body : string) (x : Z) :
  sign = "" \/ sign = "+" \/ sign = "-" ->
  body <> "" -> all_digits body = true ->
  x = (if String.eqb sign "-" then - dval body 0 else dval body 0) ->
  int64 x ->
  int64_literal (sign ++ body) x.
Proof. intros. exists sign, body. auto 10. Qed.

Lemma all_digits_head (c : ascii) (t : string) :
  all_digits (String c t) = true ->
  Ascii.eqb c "+" = false /\ Ascii.eqb c "-" = false.
Proof.
  cbn [all_digits]. intros Hd. apply andb_true_iff in Hd as [Hc _].
  apply is_digit_bounds in Hc. rewrite !ascii_eqb_byte.
  change (byte "+") with 43. change (byte "-") with 45. lia.
Qed.

Lemma ParseInt_unsigned (body : string) :
  body <> "" -> all_digits body = true ->
  strconv.ParseInt body =
  if dval body 0 <? 2 ^ 63 then Ok (dval body 0)
  else Err (strconv.rangeError "ParseInt" body).
Proof.
  intros Hne Hd. destruct body as [|c t]; [congruence|].
  destruct (all_digits_head c t Hd) as [Hp Hm].
  unfold strconv.ParseInt. rewrite Hp, Hm.
  rewrite (ParseUint_digits Hne Hd).
  pose proof (@dval_ge (String c t) 0 Hd ltac:(lia)) as Hge.
  unfold strconv.maxUint64. cbn [negb andb].
  destruct (dval (String c t) 0 <=? 2 ^ 64 - 1) eqn:Hle.
  - destruct (dval (String c t) 0 >=? 2 ^ 63) eqn:Hc63.
    + now replace (dval (String c t) 0 <? 2 ^ 63) with false by lia.
    + now replace (dval (String c t) 0 <? 2 ^ 63) with true by lia.
  - now replace (dval (String c t) 0 <? 2 ^ 63) with false by lia.
Qed.

Lemma ParseInt_plus (body : string) :
  body <> "" -> all_digits body = true ->
  strconv.ParseInt (String "+" body) =
  if dval body 0 <? 2 ^ 63 then Ok (dval body 0)
  else Err (strconv.rangeError "ParseInt" (String "+" body)).
Proof.
  intros Hne Hd. unfold strconv.ParseInt.
  change (Ascii.eqb "+" "+") with true. cbv iota beta.
  rewrite (ParseUint_digits Hne Hd).
  pose proof (@dval_ge body 0 Hd ltac:(lia)) as Hge.
  unfold strconv.maxUint64. cbn [negb andb].
  destruct (dval body 0 <=? 2 ^ 64 - 1) eqn:Hle.
  - destruct (dval body 0 >=? 2 ^ 63) eqn:Hc63.
    + now replace (dval body 0 <? 2 ^ 63) with false by lia.
    + now replace (dval body 0 <? 2 ^ 63) with true by lia.
  - now replace (dval body 0 <? 2 ^ 63) with false by lia.
Qed.

Lemma ParseInt_minus (body : string) :
  body <> "" -> all_digits body = true ->
  strconv.ParseInt (String "-" body) =
  if dval body 0 <=? 2 ^ 63 then Ok (- dval body 0)
  else Err (strconv.rangeError "ParseInt" (String "-" body)).
Proof.
  intros Hne Hd. unfold strconv.ParseInt.
  change (Ascii.eqb "-" "+") with false.
  change (Ascii.eqb "-" "-") with true. cbv iota beta.
  rewrite (ParseUint_digits Hne Hd).
  pose proof (@dval_ge body 0 Hd ltac:(lia)) as Hge.
  unfold strconv.maxUint64. cbn [negb andb].
  destruct (dval body 0 <=? 2 ^ 64 - 1) eqn:Hle.
  - destruct (dval body 0 >? 2 ^ 63) eqn:Hc63.
    + now replace (dval body 0 <=? 2 ^ 63) with false by lia.
    + now replace (dval body 0 <=? 2 ^ 63) with true by lia.
  - now replace (dval body 0 <=? 2 ^ 63) with false by lia.
Qed.

Lemma ParseInt_bad_body (c : ascii) (t body : string) :
  (let '(neg, s) :=
     if Ascii.eqb c "+" then (false, t)
     else if Ascii.eqb c "-" then (true, t) else (false, String c t) in
   s = body) ->
  (body = "" \/ all_digits body = false) ->
  exists e, strconv.ParseInt (String c t) = Err e.
Proof.
  intros Hs Hbad. unfold strconv.ParseInt.
  destruct (if Ascii.eqb c "+" then (false, t)
            else if Ascii.eqb c "-" then (true, t) else (false, String c t))
    as [neg s]. subst s.
  assert (He : exists e, strconv.ParseUint body = Err e).
  { destruct Hbad as [->|Hnd]; [cbn; eauto|]. now apply ParseUint_not_digits. }
  destruct He as [e ->].
  destruct e as [f n [|]| | | | | | | |]; eauto.
Qed.

Theorem ParseInt_spec (s : string) (x : Z) :
  strconv.ParseInt s = Ok x <-> int64_literal s x.
Proof.
  split.
  - intros Hp. destruct s as [|c t]; [discriminate|].
    destruct (Ascii.eqb_spec c "+") as [->|Hnp];
      [|destruct (Ascii.eqb_spec c "-") as [->|Hnm]].
    + destruct t as [|c' t']; [discriminate|].
      destruct (all_digits (String c' t')) eqn:Hd.
      * rewrite ParseInt_plus in Hp by (auto; discriminate).
        pose proof (@dval_ge (String c' t') 0 Hd ltac:(lia)) as Hge.
        set (v := dval (String c' t') 0) in *.
        destruct (v <? 2 ^ 63) eqn:Hlt; [|discriminate].
        assert (Hx : x = v) by congruence.
        apply (@int64_literal_intro "+" (String c' t'));
          [auto|discriminate|exact Hd|exact Hx|unfold int64; lia].
      * destruct (@ParseInt_bad_body "+" (String c' t') (String c' t'))
          as [e He]; [reflexivity|auto|congruence].
    + destruct t as [|c' t']; [discriminate|].
      destruct (all_digits (String c' t')) eqn:Hd.
      * rewrite ParseInt_minus in Hp by (auto; discriminate).
        pose proof (@dval_ge (String c' t') 0 Hd ltac:(lia)) as Hge.
        set (v := dval (String c' t') 0) in *.
        destruct (v <=? 2 ^ 63) eqn:Hlt; [|discriminate].
        assert (Hx : x = - v) by congruence.
        apply (@int64_literal_intro "-" (String c' t'));
          [auto|discriminate|exact Hd|exact Hx|unfold int64; lia].
      * destruct (@ParseInt_bad_body "-" (String c' t') (String c' t'))
          as [e He]; [reflexivity|auto|congruence].
    + destruct (all_digits (String c t)) eqn:Hd.
      * rewrite ParseInt_unsigned in Hp by (auto; discriminate).
        pose proof (@dval_ge (String c t) 0 Hd ltac:(lia)) as Hge.
        set (v := dval (String c t) 0) in *.
        destruct (v <? 2 ^ 63) eqn:Hlt; [|discriminate].
        assert (Hx : x = v) by congruence.
        apply (@int64_literal_intro "" (String c t));
          [auto|discriminate|exact Hd|exact Hx|unfold int64; lia].
      * destruct (@ParseInt_bad_body c t (String c t)) as [e He];
          [|auto|congruence].
        destruct (Ascii.eqb_spec c "+"); [congruence|].
        destruct (Ascii.eqb_spec c "-"); [congruence|]. reflexivity.
  - intros (sign & body & -> & Hsign & Hne & Hd & -> & Hr).
    unfold int64 in Hr.
    pose proof (@dval_ge body 0 Hd ltac:(lia)) as Hge.
    destruct Hsign as [->|[->| ->]]; cbn [append] in *.
    + rewrite ParseInt_unsigned by auto.
      change (String.eqb "" "-") with false in Hr. cbv iota in Hr.
      assert (Hq : (dval body 0 <? 2 ^ 63) = true) by (clear - Hr; lia).
      now rewrite Hq.
    + rewrite ParseInt_plus by auto.
      change (String.eqb "+" "-") with false in *. cbv iota in *.
      assert (Hq : (dval body 0 <? 2 ^ 63) = true) by (clear - Hr; lia).
      now rewrite Hq.
    + rewrite ParseInt_minus by auto.
      change (String.eqb "-" "-") with true in *. cbv iota in *.
      assert (Hq : (dval body 0 <=? 2 ^ 63) = true) by (clear - Hr; lia).
      now rewrite Hq.
Qed.

(** ** fmt: the digits of [%d] *)

Lemma byte_digit_char (d : Z) :
  0 <= d < 10 -> byte (fmt.digit_char d) = 48 + d.
Proof. intros Hd. unfold fmt.digit_char. apply byte_ascii_of_Z. lia. Qed.

Lemma is_digit_digit_char (d : Z) :
  0 <= d < 10 -> is_digit (fmt.digit_char d) = true.
Proof.
  intros Hd. apply is_digit_bounds. rewrite byte_digit_char by lia. lia.
Qed.

Lemma digits_app (fuel : nat) : forall u acc,
  fmt.digits fuel u acc = fmt.digits fuel u "" ++ acc.
Proof.
  induction fuel as [|f IH]; intros u acc; cbn [fmt.digits]; [reflexivity|].
  destruct (u <? 10); [reflexivity|].
  rewrite (IH (u / 10) (String _ acc)), (IH (u / 10) (String _ "")).
  rewrite append_assoc. reflexivity.
Qed.

Lemma digits_all_digits (fuel : nat) : forall u,
  0 <= u -> all_digits (fmt.digits fuel u "") = true.
Proof.
  induction fuel as [|f IH]; intros u Hu; cbn [fmt.digits]; [reflexivity|].
  destruct (u <? 10) eqn:Hlt.
  - cbn [all_digits]. rewrite is_digit_digit_char by lia. reflexivity.
  - rewrite digits_app, all_digits_app.
    rewrite IH by (apply Z.div_pos; lia).
    cbn [all_digits andb]. rewrite is_digit_digit_char; [reflexivity|].
    apply Z.mod_pos_bound. lia.
Qed.

Lemma digits_nonempty (fuel : nat) (u : Z) :
  fmt.digits (S fuel) u "" <> "".
Proof.
  cbn [fmt.digits]. destruct (u <? 10); [discriminate|].
  rewrite digits_app. destruct (fmt.digits fuel (u / 10) ""); discriminate.
Qed.

Lemma dval_digits (fuel : nat) : forall u,
  0 <= u < 10 ^ Z.of_nat fuel -> dval (fmt.digits fuel u "") 0 = u.
Proof.
  induction fuel as [|f IH]; intros u Hu.
  - change (10 ^ Z.of_nat 0) with 1 in Hu. cbn [fmt.digits dval]. lia.
  - cbn [fmt.digits]. destruct (u <? 10) eqn:Hlt.
    + cbn [dval]. rewrite byte_digit_char by lia. lia.
    + rewrite digits_app, dval_app. cbn [dval].
      rewrite byte_digit_char by (apply Z.mod_pos_bound; lia).
      rewrite IH.
      * pose proof (Z.div_mod u 10 ltac:(lia)). lia.
      * rewrite Nat2Z.inj_succ, Z.pow_succ_r in Hu by lia.
        split; [apply Z.div_pos; lia|].
        apply Z.div_lt_upper_bound; lia.
Qed.

Lemma all_digits_no_comma (s : string) :
  all_digits s = true -> no_comma s = true.
Proof.
  induction s as [|c t IH]; cbn [all_digits no_comma]; [reflexivity|].
  intros Hd. apply andb_true_iff in Hd as [Hc Ht]. rewrite (IH Ht).
  apply is_digit_bounds in Hc. rewrite ascii_eqb_byte.
  change (byte ",") with 44. replace (byte c =? 44) with false by lia.
  reflexivity.
Qed.

(** [%d] never writes a comma. *)
Lemma fmt_d_no_comma (x : Z) : no_comma (fmt.d x) = true.
Proof.
  unfold fmt.d. destruct (x <? 0) eqn:Hx.
  - cbn [no_comma]. change (Ascii.eqb "-" ",") with false. cbn [negb andb].
    apply all_digits_no_comma, digits_all_digits. lia.
  - apply all_digits_no_comma, digits_all_digits. lia.
Qed.

(** Printing a signed 64-bit integer with [%d] and parsing it back. *)
Theorem ParseInt_fmt_d (x : Z) :
  int64 x -> strconv.ParseInt (fmt.d x) = Ok x.
Proof.
  unfold int64. intros Hx. apply ParseInt_spec. unfold fmt.d.
  assert (H20 : 2 ^ 63 < 10 ^ Z.of_nat 20) by (vm_compute; reflexivity).
  destruct (x <? 0) eqn:Hneg.
  - apply (@int64_literal_intro "-" (fmt.digits 20 (- x) "")).
    + auto.
    + apply digits_nonempty.
    + apply digits_all_digits. lia.
    + change (String.eqb "-" "-") with true. cbv iota.
      rewrite dval_digits by lia. lia.
    + unfold int64. lia.
  - apply (@int64_literal_intro "" (fmt.digits 20 x "")).
    + auto.
    + apply digits_nonempty.
    + apply digits_all_digits. lia.
    + change (String.eqb "" "-") with false. cbv iota.
      rewrite dval_digits by lia. lia.
    + unfold int64. lia.
Qed.

(** ** strings.Split on a comma *)

Lemma HasPrefix_comma (c : ascii) (t : string) :
  strings.HasPrefix (String c t) "," = Ascii.eqb c ",".
Proof.
  cbn [strings.HasPrefix]. rewrite andb_true_r.
  destruct (Ascii.eqb_spec "," c) as [<-|Hne]; [reflexivity|].
  symmetry. apply Ascii.eqb_neq. congruence.
Qed.

Lemma split_go_nonempty (sep : string) (s : string) : forall skip,
  strings.split_go sep skip s <> [].
Proof.
  induction s as [|c t IH]; intros skip; cbn [strings.split_go];
    [discriminate|].
  destruct skip; [|apply IH].
  destruct (strings.HasPrefix (String c t) sep); [discriminate|].
  destruct (strings.split_go sep 0 t); discriminate.
Qed.

Lemma Split_comma_nil : strings.Split "" "," = [""].
Proof. reflexivity. Qed.

Lemma Split_comma_field (a : string) : forall rest,
  no_comma a = true ->
  strings.Split (a ++ String "," rest) "," = a :: strings.Split rest ",".
Proof.
  unfold strings.Split.
  induction a as [|c t IH]; intros rest Hnc.
  - cbn [append strings.split_go]. rewrite HasPrefix_comma.
    now change (Ascii.eqb "," ",") with true.
  - cbn [no_comma] in Hnc. apply andb_true_iff in Hnc as [Hc Ht].
    cbn [append strings.split_go]. rewrite HasPrefix_comma.
    apply negb_true_iff in Hc. rewrite Hc, (IH rest Ht). reflexivity.
Qed.

Lemma Split_comma_last (a : string) :
  no_comma a = true -> strings.Split a "," = [a].
Proof.
  unfold strings.Split.
  induction a as [|c t IH]; intros Hnc; [reflexivity|].
  cbn [no_comma] in Hnc. apply andb_true_iff in Hnc as [Hc Ht].
  cbn [strings.split_go]. rewrite HasPrefix_comma.
  apply negb_true_iff in Hc. rewrite Hc, (IH Ht). reflexivity.
Qed.

(** Splitting a comma-joined list of comma-free fields gives the fields. *)
Lemma Split_concat (fields : list string) :
  fields <> [] -> Forall (fun f => no_comma f = true) fields ->
  strings.Split (String.concat "," fields) "," = fields.
Proof.
  induction fields as [|a rest IH]; intros Hne Hall; [congruence|].
  inversion Hall as [|? ? Ha Hrest]; subst.
  destruct rest as [|b rest'].
  - cbn [String.concat]. now apply Split_comma_last.
  - cbn [String.concat] in *. cbn [append].
    rewrite Split_comma_field by assumption.
    f_equal. apply IH; [discriminate|assumption].
Qed.

(** ** The interval converters *)

Lemma Adjust_of_int64_id (x : Z) :
  int64 x -> datetime.Adjust_of_int64 strconv.IntSize x = x.
Proof.
  unfold int64, datetime.Adjust_of_int64, strconv.IntSize. intros Hx.
  change (2 ^ (64 - 1)) with (2 ^ 63). rewrite Z.mod_small; lia.
Qed.

Lemma adjust_check (a : Z) :
  negb (a =? datetime.NoneAdjust)
  && negb (a =? datetime.ExcessAdjust)
  && negb (a =? datetime.LastAdjust) = false
  <-> valid_adjust a.
Proof.
  unfold valid_adjust, datetime.NoneAdjust,
    datetime.ExcessAdjust, datetime.LastAdjust.
  destruct (Z.eqb_spec a 0), (Z.eqb_spec a 1), (Z.eqb_spec a 2);
    cbn [negb andb]; split; intros; try lia; try discriminate; auto.
Qed.

Lemma ParseInt_int64 (s : string) (x : Z) :
  strconv.ParseInt s = Ok x -> int64 x.
Proof.
  intros Hp. apply ParseInt_spec in Hp.
  destruct Hp as (sign & body & _ & _ & _ & _ & _ & Hr). exact Hr.
Qed.

Lemma parse_parts_Ok (parts : list string) : forall xs,
  StringToIntervalConverter.parse_parts parts = Ok xs <->
  Forall2 (fun p x => strconv.ParseInt p = Ok x) parts xs.
Proof.
  induction parts as [|p rest IH]; intros xs;
    cbn [StringToIntervalConverter.parse_parts].
  - split.
    + intros [= <-]. constructor.
    + intros Hf. inversion Hf. reflexivity.
  - split.
    + destruct (strconv.ParseInt p) as [x|] eqn:Hp; [|discriminate].
      destruct (StringToIntervalConverter.parse_parts rest) as [ys|] eqn:Hr;
        [|discriminate].
      intros [= <-]. constructor; [assumption|]. now apply IH.
    + intros Hf. inversion Hf as [|? x ? ys Hp Hrest]; subst.
      rewrite Hp. apply IH in Hrest. now rewrite Hrest.
Qed.

Lemma parse_parts_Err (parts : list string) (e : error) :
  StringToIntervalConverter.parse_parts parts = Err e ->
  e = errUnexpectedIntervalFmt.
Proof.
  induction parts as [|p rest IH];
    cbn [StringToIntervalConverter.parse_parts]; [discriminate|].
  destruct (strconv.ParseInt p); [|now intros [= <-]].
  destruct (StringToIntervalConverter.parse_parts rest); [discriminate|].
  intros [= <-]. now apply IH.
Qed.

(** Every failure of the interval parser is [errUnexpectedIntervalFmt]; every
    success is an interval. *)
Lemma interval_convert_cases (src : string) :
  (exists iv, StringToIntervalConverter.Convert src = Ok (VInterval iv))
  \/ StringToIntervalConverter.Convert src = Err errUnexpectedIntervalFmt.
Proof.
  unfold StringToIntervalConverter.Convert,
    StringToIntervalConverter.Convert_sized.
  destruct (negb _); [now right|].
  destruct (StringToIntervalConverter.parse_parts _) as [xs|e] eqn:Hp.
  - destruct (_ && _); [now right|]. left. eauto.
  - right. now rewrite (parse_parts_Err _ Hp).
Qed.

Lemma length_nine {A} (l : list A) :
  Nat.eqb (List.length l) intervalFieldsNumber = true ->
  exists a0 a1 a2 a3 a4 a5 a6 a7 a8, l = [a0; a1; a2; a3; a4; a5; a6; a7; a8].
Proof.
  unfold intervalFieldsNumber.
  do 9 (destruct l as [|? l]; [discriminate|]).
  destruct l; [|discriminate]. intros _. repeat eexists.
Qed.

Lemma interval_convert_fields (f0 f1 f2 f3 f4 f5 f6 f7 f8 : string)
    (src : string) (iv : datetime.Interval) :
  strings.Split src "," = [f0; f1; f2; f3; f4; f5; f6; f7; f8] ->
  (StringToIntervalConverter.Convert src = Ok (VInterval iv) <->
   strconv.ParseInt f0 = Ok (datetime.Year iv) /\
   strconv.ParseInt f1 = Ok (datetime.Month iv) /\
   strconv.ParseInt f2 = Ok (datetime.Week iv) /\
   strconv.ParseInt f3 = Ok (datetime.Day iv) /\
   strconv.ParseInt f4 = Ok (datetime.Hour iv) /\
   strconv.ParseInt f5 = Ok (datetime.Min iv) /\
   strconv.ParseInt f6 = Ok (datetime.Sec iv) /\
   strconv.ParseInt f7 = Ok (datetime.Nsec iv) /\
   strconv.ParseInt f8 = Ok (datetime.Adjust iv) /\
   valid_adjust (datetime.Adjust iv)).
Proof.
  intros Hs. unfold StringToIntervalConverter.Convert,
    StringToIntervalConverter.Convert_sized. rewrite Hs.
  cbn [List.length Nat.eqb intervalFieldsNumber negb].
  split.
  - destruct (StringToIntervalConverter.parse_parts _) as [xs|] eqn:Hp;
      [|discriminate].
    apply parse_parts_Ok in Hp.
    repeat match goal with
           | H : Forall2 _ (_ :: _) _ |- _ =>
             inversion H; subst; clear H
           | H : Forall2 _ [] _ |- _ => inversion H; subst; clear H
           end.
    cbn [nth].
    match goal with
    | H : strconv.ParseInt f8 = Ok ?x |- _ =>
      rewrite (Adjust_of_int64_id (ParseInt_int64 _ H))
    end.
    match goal with
    | |- (if ?b then _ else _) = _ -> _ => destruct b eqn:Hadj
    end; [discriminate|].
    apply adjust_check in Hadj.
    intros [= <-]. cbn. tauto.
  - intros (H0 & H1 & H2 & H3 & H4 & H5 & H6 & H7 & H8 & Hadj).
    cbn [StringToIntervalConverter.parse_parts].
    rewrite H0, H1, H2, H3, H4, H5, H6, H7, H8. cbn [nth].
    rewrite (Adjust_of_int64_id (ParseInt_int64 _ H8)).
    apply adjust_check in Hadj. rewrite Hadj.
    destruct iv. reflexivity.
Qed.

(** C4: the interval converter succeeds exactly on nine comma-separated
    base-10 signed 64-bit integers whose ninth is one of the three adjust
    codes, and then the fields are year, month, week, day, hour, min, sec,
    nanosecond and adjust in that order; every failure is the error
    "unexpected interval format".  "1,2,3,4,5,6,7,8,1" parses to that
    interval and "1,2,3,4,5,6,7,8,3" is rejected.  (An [int] has 64 bits.) *)
Theorem interval_convert_exact :
  (forall (src : string) (iv : datetime.Interval),
     StringToIntervalConverter.Convert src = Ok (VInterval iv) <->
     exists f0 f1 f2 f3 f4 f5 f6 f7 f8 : string,
       strings.Split src "," = [f0; f1; f2; f3; f4; f5; f6; f7; f8] /\
       int64_literal f0 (datetime.Year iv) /\
       int64_literal f1 (datetime.Month iv) /\
       int64_literal f2 (datetime.Week iv) /\
       int64_literal f3 (datetime.Day iv) /\
       int64_literal f4 (datetime.Hour iv) /\
       int64_literal f5 (datetime.Min iv) /\
       int64_literal f6 (datetime.Sec iv) /\
       int64_literal f7 (datetime.Nsec iv) /\
       int64_literal f8 (datetime.Adjust iv) /\
       valid_adjust (datetime.Adjust iv)) /\
  (forall src : string,
     (exists iv, StringToIntervalConverter.Convert src = Ok (VInterval iv))
     \/ StringToIntervalConverter.Convert src = Err errUnexpectedIntervalFmt) /\
  StringToIntervalConverter.Convert "1,2,3,4,5,6,7,8,1" =
    Ok (VInterval
          {| datetime.Year := 1; datetime.Month := 2; datetime.Week := 3;
             datetime.Day := 4; datetime.Hour := 5; datetime.Min := 6;
             datetime.Sec := 7; datetime.Nsec := 8; datetime.Adjust := 1 |}) /\
  StringToIntervalConverter.Convert "1,2,3,4,5,6,7,8,3" =
    Err errUnexpectedIntervalFmt.
Proof.
  split; [|split; [exact interval_convert_cases|split; reflexivity]].
  intros src iv. split.
  - intros Hc.
    assert (Hlen : Nat.eqb (List.length (strings.Split src ","))
                           intervalFieldsNumber = true).
    { unfold StringToIntervalConverter.Convert,
        StringToIntervalConverter.Convert_sized in Hc.
      destruct (Nat.eqb _ _); [reflexivity|discriminate]. }
    destruct (length_nine _ Hlen)
      as (f0 & f1 & f2 & f3 & f4 & f5 & f6 & f7 & f8 & Hs).
    exists f0, f1, f2, f3, f4, f5, f6, f7, f8.
    split; [exact Hs|].
    apply (interval_convert_fields _ _ Hs) in Hc.
    rewrite <- !ParseInt_spec. exact Hc.
  - intros (f0 & f1 & f2 & f3 & f4 & f5 & f6 & f7 & f8 & Hs & Hf).
    apply (interval_convert_fields _ _ Hs).
    rewrite <- !ParseInt_spec in Hf. exact Hf.
Qed.

(** Where an [int] has 32 bits the conversion to [Adjust] truncates before
    the adjust code is checked: a ninth field of 2^32 passes as code 0. *)
Remark interval_adjust_truncated_32 :
  StringToIntervalConverter.Convert_sized 32 "1,2,3,4,5,6,7,8,4294967296" =
    Ok (VInterval
          {| datetime.Year := 1; datetime.Month := 2; datetime.Week := 3;
             datetime.Day := 4; datetime.Hour := 5; datetime.Min := 6;
             datetime.Sec := 7; datetime.Nsec := 8; datetime.Adjust := 0 |}) /\
  StringToIntervalConverter.Convert "1,2,3,4,5,6,7,8,4294967296" =
    Err errUnexpectedIntervalFmt.
Proof. split; reflexivity. Qed.

Lemma interval_to_string_split (iv : datetime.Interval) :
  exists s,
    IntervalToStringConverter.Convert iv = Ok s /\
    strings.Split s "," = map fmt.d (interval_fields iv).
Proof.
  eexists. split; [reflexivity|].
  apply Split_concat; [discriminate|].
  unfold interval_fields. cbn [map].
  repeat constructor; apply fmt_d_no_comma.
Qed.

Lemma typed_interval_parse (iv : datetime.Interval) :
  typed_interval iv ->
  Forall (fun x => strconv.ParseInt (fmt.d x) = Ok x) (interval_fields iv).
Proof.
  unfold typed_interval. apply Forall_impl. intros x. apply ParseInt_fmt_d.
Qed.

(** C5: writing a well-formed interval as nine comma-joined integers and
    parsing the text back gives the interval again, with no error at either
    step. *)
Theorem interval_round_trip (iv : datetime.Interval) :
  wf_interval iv ->
  exists s : string,
    IntervalToStringConverter.Convert iv = Ok s /\
    StringToIntervalConverter.Convert s = Ok (VInterval iv).
Proof.
  intros [Hty Hadj].
  destruct (interval_to_string_split iv) as (s & Hs & Hsplit).
  exists s. split; [exact Hs|].
  apply typed_interval_parse in Hty.
  unfold interval_fields in *. cbn [map] in Hsplit.
  apply (interval_convert_fields _ _ Hsplit).
  repeat match goal with
         | H : Forall _ (_ :: _) |- _ => inversion H; subst; clear H
         end.
  tauto.
Qed.

Lemma wf_interval_1234 : wf_interval interval_1234.
Proof.
  split.
  - unfold typed_interval, interval_fields, interval_1234.
    cbn [datetime.Year datetime.Month datetime.Week datetime.Day
         datetime.Hour datetime.Min datetime.Sec datetime.Nsec
         datetime.Adjust].
    repeat (apply Forall_cons;
            [unfold int64, datetime.LastAdjust; lia|]).
    apply Forall_nil.
  - right. right. reflexivity.
Defined.

Lemma interval_round_trip_witness :
  exists s : string,
    IntervalToStringConverter.Convert interval_1234 = Ok s /\
    StringToIntervalConverter.Convert s = Ok (VInterval interval_1234).
Proof. apply (@interval_round_trip interval_1234). exact wf_interval_1234. Defined.

(** C10: the interval-to-string converter never returns an error and always
    writes nine comma-separated fields; when the adjust field of a (typed)
    interval is none of the three codes, the interval parser rejects that
    text, so the round trip needs the interval to be well formed. *)
Theorem interval_to_string_total :
  (forall iv : datetime.Interval,
     exists s : string,
       IntervalToStringConverter.Convert iv = Ok s /\
       List.length (strings.Split s ",") = intervalFieldsNumber) /\
  (forall (iv : datetime.Interval) (s : string),
     typed_interval iv ->
     ~ valid_adjust (datetime.Adjust iv) ->
     IntervalToStringConverter.Convert iv = Ok s ->
     StringToIntervalConverter.Convert s = Err errUnexpectedIntervalFmt) /\
  (let iv := {| datetime.Year := 1; datetime.Month := 2; datetime.Week := 3;
                datetime.Day := 4; datetime.Hour := 5; datetime.Min := 6;
                datetime.Sec := 7; datetime.Nsec := 8;
                datetime.Adjust := 3 |} in
   IntervalToStringConverter.Convert iv = Ok "1,2,3,4,5,6,7,8,3" /\
   StringToIntervalConverter.Convert "1,2,3,4,5,6,7,8,3" =
     Err errUnexpectedIntervalFmt).
Proof.
  split; [|split; [|split; reflexivity]].
  - intros iv. destruct (interval_to_string_split iv) as (s & Hs & Hsplit).
    exists s. split; [exact Hs|]. rewrite Hsplit. reflexivity.
  - intros iv s Hty Hadj Hs.
    destruct (interval_to_string_split iv) as (s' & Hs' & Hsplit).
    assert (s' = s) by congruence. subst s'.
    destruct (interval_convert_cases s) as [[iv' Hok]|Herr]; [|exact Herr].
    exfalso. apply Hadj.
    apply typed_interval_parse in Hty.
    unfold interval_fields in *. cbn [map] in Hsplit.
    apply (interval_convert_fields _ _ Hsplit) in Hok.
    repeat match goal with
           | H : Forall _ (_ :: _) |- _ => inversion H; subst; clear H
           end.
    destruct Hok as (_ & _ & _ & _ & _ & _ & _ & _ & Hparsed & Hv).
    assert (Heq : datetime.Adjust iv' = datetime.Adjust iv) by congruence.
    rewrite <- Heq. exact Hv.
Qed.

(** ** The sequence converter *)

Lemma sequence_loop_first_ok {S T} `{Fmt S} (c : Converter S T)
    (rest : list (Converter S T)) (src : S) (v : T) :
  c src = Ok v -> sequence_loop (c :: rest) src = Ok v.
Proof. intros Hc. cbn [sequence_loop]. now rewrite Hc. Qed.

Lemma sequence_loop_skip {S T} `{Fmt S} (c : Converter S T)
    (rest : list (Converter S T)) (src : S) (e : error) :
  c src = Err e -> sequence_loop (c :: rest) src = sequence_loop rest src.
Proof. intros Hc. cbn [sequence_loop]. now rewrite Hc. Qed.

(** A sequence with an alternative that succeeds on [src] succeeds on [src]. *)
Lemma sequence_loop_total {S T} `{Fmt S} (converters : list (Converter S T))
    (src : S) :
  Exists (fun c => exists v, c src = Ok v) converters ->
  exists v, sequence_loop converters src = Ok v.
Proof.
  induction converters as [|c rest IH]; intros Hex.
  - inversion Hex.
  - cbn [sequence_loop]. destruct (c src) as [v|e] eqn:Hc; [eauto|].
    apply IH. inversion Hex as [? ? [v Hv]|]; subst; [congruence|assumption].
Qed.

(** The result of a sequence is the result of its first alternative that
    succeeds. *)
Lemma sequence_loop_first {S T} `{Fmt S} (pre : list (Converter S T))
    (c : Converter S T) (post : list (Converter S T)) (src : S) (v : T) :
  Forall (fun p => exists e, p src = Err e) pre ->
  c src = Ok v ->
  sequence_loop (pre ++ c :: post) src = Ok v.
Proof.
  induction pre as [|p pre IH]; intros Hpre Hc; cbn [app].
  - now apply sequence_loop_first_ok.
  - inversion Hpre as [|? ? [e He] Hrest]; subst.
    erewrite sequence_loop_skip by exact He. now apply IH.
Qed.

(** C6: the converters the default factory builds for the type names "any"
    and "scalar" return no error on any input: their sequence ends with the
    identity converter, which always succeeds, and when the six alternatives
    before it fail the result is the input string itself. *)
Theorem any_scalar_never_fail `{GoLibs} (fac : StringToTTConvFactory.t)
    (src : string) :
  (exists v, StringToTTConvFactory.GetAnyConverter fac src = Ok v) /\
  (exists v, StringToTTConvFactory.GetScalarConverter fac src = Ok v) /\
  (forall e, StringToTTConvFactory.GetAnyConverter fac src <> Err e) /\
  (forall e, StringToTTConvFactory.GetScalarConverter fac src <> Err e) /\
  (Forall (fun c : Converter string value => exists e, c src = Err e)
     [ StringToTTConvFactory.GetNumberConverter fac;
       StringToTTConvFactory.GetDecimalConverter fac;
       StringToTTConvFactory.GetBooleanConverter;
       StringToTTConvFactory.GetDatetimeConverter;
       StringToTTConvFactory.GetUUIDConverter;
       StringToTTConvFactory.GetIntervalConverter ] ->
   StringToTTConvFactory.GetAnyConverter fac src = Ok (VString src) /\
   StringToTTConvFactory.GetScalarConverter fac src = Ok (VString src)) /\
  GetConverterByType (StringToTTConvFactory.as_factory fac) TypeAny =
    Ok (StringToTTConvFactory.GetAnyConverter fac) /\
  GetConverterByType (StringToTTConvFactory.as_factory fac) TypeScalar =
    Ok (StringToTTConvFactory.GetScalarConverter fac).
Proof.
  assert (Hlast : exists v,
             sequence_loop
               [ StringToTTConvFactory.GetNumberConverter fac;
                 StringToTTConvFactory.GetDecimalConverter fac;
                 StringToTTConvFactory.GetBooleanConverter;
                 StringToTTConvFactory.GetDatetimeConverter;
                 StringToTTConvFactory.GetUUIDConverter;
                 StringToTTConvFactory.GetIntervalConverter;
                 StringToTTConvFactory.GetStringConverter ] src = Ok v).
  { apply sequence_loop_total.
    do 6 apply Exists_cons_tl. apply Exists_cons_hd.
    exists (VString src). reflexivity. }
  destruct Hlast as [v Hv].
  repeat split.
  - exists v. exact Hv.
  - exists v. exact Hv.
  - intros e He.
    change (StringToTTConvFactory.GetAnyConverter fac src)
      with (sequence_loop
              [ StringToTTConvFactory.GetNumberConverter fac;
                StringToTTConvFactory.GetDecimalConverter fac;
                StringToTTConvFactory.GetBooleanConverter;
                StringToTTConvFactory.GetDatetimeConverter;
                StringToTTConvFactory.GetUUIDConverter;
                StringToTTConvFactory.GetIntervalConverter;
                StringToTTConvFactory.GetStringConverter ] src) in He.
    congruence.
  - intros e He.
    change (StringToTTConvFactory.GetScalarConverter fac src)
      with (sequence_loop
              [ StringToTTConvFactory.GetNumberConverter fac;
                StringToTTConvFactory.GetDecimalConverter fac;
                StringToTTConvFactory.GetBooleanConverter;
                StringToTTConvFactory.GetDatetimeConverter;
                StringToTTConvFactory.GetUUIDConverter;
                StringToTTConvFactory.GetIntervalConverter;
                StringToTTConvFactory.GetStringConverter ] src) in He.
    congruence.
  - apply (@sequence_loop_first _ _ _
             [ StringToTTConvFactory.GetNumberConverter fac;
               StringToTTConvFactory.GetDecimalConverter fac;
               StringToTTConvFactory.GetBooleanConverter;
               StringToTTConvFactory.GetDatetimeConverter;
               StringToTTConvFactory.GetUUIDConverter;
               StringToTTConvFactory.GetIntervalConverter ]
             StringToTTConvFactory.GetStringConverter []); auto.
  - apply (@sequence_loop_first _ _ _
             [ StringToTTConvFactory.GetNumberConverter fac;
               StringToTTConvFactory.GetDecimalConverter fac;
               StringToTTConvFactory.GetBooleanConverter;
               StringToTTConvFactory.GetDatetimeConverter;
               StringToTTConvFactory.GetUUIDConverter;
               StringToTTConvFactory.GetIntervalConverter ]
             StringToTTConvFactory.GetStringConverter []); auto.
Qed.

(** ** Dispatch by type name and the assembler *)

Lemma GetConverterByType_known {Ty} (fac : TTConvFactory Ty) (typ : TypeName) :
  known_type typ = true -> exists c, GetConverterByType fac typ = Ok c.
Proof.
  unfold known_type, TypeNames. cbn [existsb].
  rewrite !orb_true_iff. rewrite !String.eqb_eq.
  intros Hk.
  repeat (destruct Hk as [Hk|Hk]; [subst typ; eexists; reflexivity|]).
  discriminate.
Qed.

Lemma GetConverterByType_unknown {Ty} (fac : TTConvFactory Ty)
    (typ : TypeName) :
  known_type typ = false ->
  GetConverterByType fac typ = Err (ErrUnexpectedType typ).
Proof.
  unfold known_type, TypeNames. cbn [existsb].
  rewrite !orb_false_iff.
  intros (H1 & H2 & H3 & H4 & H5 & H6 & H7 & H8 & H9 & H10 & H11 & H12
          & H13 & H14 & H15 & _).
  unfold GetConverterByType.
  now rewrite H1, H2, H3, H4, H5, H6, H7, H8, H9, H10, H11, H12, H13, H14,
    H15.
Qed.

Lemma assembler_known {Ty} `{Fmt Ty} (fac : TTConvFactory Ty)
    (spaceFmt : list SpaceField) :
  Forall known_field spaceFmt ->
  exists converters,
    MakeTypeToTTConverters fac spaceFmt = Ok converters /\
    Forall2 (assembled fac) spaceFmt converters.
Proof.
  induction spaceFmt as [|f rest IH]; intros Hk.
  - exists []. split; [reflexivity|constructor].
  - inversion Hk as [|? ? Hf Hrest]; subst.
    destruct (GetConverterByType_known fac _ Hf) as [base Hbase].
    destruct (IH Hrest) as (cs & Hcs & Hall).
    cbn [MakeTypeToTTConverters]. rewrite Hbase, Hcs.
    eexists. split; [reflexivity|].
    constructor; [|assumption]. exists base. auto.
Qed.

Lemma assembler_first_unknown {Ty} `{Fmt Ty} (fac : TTConvFactory Ty)
    (pre : list SpaceField) (bad : SpaceField) (rest : list SpaceField) :
  Forall known_field pre -> known_type (Type_ bad) = false ->
  MakeTypeToTTConverters fac (pre ++ bad :: rest) =
  Err (ErrUnexpectedType (Type_ bad)).
Proof.
  induction pre as [|f pre IH]; intros Hk Hbad; cbn [app].
  - cbn [MakeTypeToTTConverters].
    now rewrite (GetConverterByType_unknown fac _ Hbad).
  - inversion Hk as [|? ? Hf Hrest]; subst.
    destruct (GetConverterByType_known fac _ Hf) as [base Hbase].
    cbn [MakeTypeToTTConverters]. rewrite Hbase, (IH Hrest Hbad). reflexivity.
Qed.

(** A schema is all of known types, or splits at its first unknown one. *)
Lemma schema_split (spaceFmt : list SpaceField) :
  Forall known_field spaceFmt \/
  exists pre bad rest,
    spaceFmt = (pre ++ bad :: rest)%list /\ Forall known_field pre /\
    known_type (Type_ bad) = false.
Proof.
  induction spaceFmt as [|f rest IH]; [left; constructor|].
  destruct (known_type (Type_ f)) eqn:Hf.
  - destruct IH as [Hall|(pre & bad & rest' & -> & Hpre & Hbad)].
    + left. now constructor.
    + right. exists (f :: pre), bad, rest'.
      split; [reflexivity|]. split; [now constructor|assumption].
  - right. exists [], f, rest.
    split; [reflexivity|]. split; [constructor|assumption].
Qed.

(** C8: for every factory and schema, the assembler returns either a
    converter list of the schema's length (one converter per field, in
    order), exactly when every type name is one of the fifteen, or the
    dispatch error of the first field whose type name is not, whatever
    fields follow it. *)
Theorem assembler_length_or_first_error {Ty} `{Fmt Ty}
    (fac : TTConvFactory Ty) (spaceFmt : list SpaceField) :
  match MakeTypeToTTConverters fac spaceFmt with
  | Ok converters =>
    List.length converters = List.length spaceFmt /\
    Forall known_field spaceFmt /\
    Forall2 (assembled fac) spaceFmt converters
  | Err err =>
    exists pre bad rest,
      spaceFmt = (pre ++ bad :: rest)%list /\
      Forall known_field pre /\
      known_type (Type_ bad) = false /\
      err = ErrUnexpectedType (Type_ bad) /\
      forall rest',
        MakeTypeToTTConverters fac (pre ++ bad :: rest') = Err err
  end.
Proof.
  destruct (schema_split spaceFmt)
    as [Hall|(pre & bad & rest & -> & Hpre & Hbad)].
  - destruct (assembler_known fac Hall) as (cs & -> & Hcs).
    repeat split; auto. symmetry. eapply Forall2_length, Hcs.
  - rewrite (@assembler_first_unknown _ _ fac pre bad rest Hpre Hbad).
    exists pre, bad, rest. repeat split; auto.
    intros rest'. now apply assembler_first_unknown.
Qed.

(** C1: with null sentinel [v] configured, the nullable wrapping of any
    converter [C] maps [v] to nil with no error, whatever [C] does on [v]
    (also when [C] would convert it): the null check comes first.  Any other
    input is delegated to [C], whose error, if any, is replaced by the
    "unexpected value" error of the sequence.  The converter the assembler
    stores for a nullable field maps [v] to nil as well. *)
Theorem nullable_null_first `{GoLibs} (fac : StringToTTConvFactory.t)
    (v : string) (C : Converter string value) :
  let fac_v := StringToTTConvFactory.WithNullValue fac v in
  let nullable := StringToTTConvFactory.MakeNullableConverter fac_v C in
  nullable v = Ok VNil /\
  (forall x, C v = Ok x -> nullable v = Ok VNil) /\
  (forall src, src <> v ->
     nullable src =
     match C src with
     | Ok x => Ok x
     | Err _ => Err (ErrSeqUnexpectedValue src)
     end) /\
  (forall (f : SpaceField) (c : Converter string value),
     IsNullable f = true ->
     assembled (StringToTTConvFactory.as_factory fac_v) f c ->
     c v = Ok VNil).
Proof.
  cbv zeta.
  assert (Hnull : forall D : Converter string value,
            StringToTTConvFactory.MakeNullableConverter
              (StringToTTConvFactory.WithNullValue fac v) D v = Ok VNil).
  { intros D.
    unfold StringToTTConvFactory.MakeNullableConverter, MakeSequenceConverter,
      FuncConverter.Convert, MakeFuncConverter, MakeStringToNullConverter,
      StringToNullConverter.Convert, StringToTTConvFactory.WithNullValue.
    cbn [FuncConverter.convFunc StringToTTConvFactory.nullValue
         StringToNullConverter.nullValue sequence_loop].
    now rewrite String.eqb_refl. }
  split; [apply Hnull|]. split; [intros x _; apply Hnull|]. split.
  - intros src Hne.
    unfold StringToTTConvFactory.MakeNullableConverter, MakeSequenceConverter,
      FuncConverter.Convert, MakeFuncConverter, MakeStringToNullConverter,
      StringToNullConverter.Convert, StringToTTConvFactory.WithNullValue.
    cbn [FuncConverter.convFunc StringToTTConvFactory.nullValue
         StringToNullConverter.nullValue sequence_loop].
    apply String.eqb_neq in Hne. rewrite Hne. cbn [negb].
    destruct (C src); reflexivity.
  - intros f c Hf (base & _ & ->). rewrite Hf.
    unfold field_converter, FuncConverter.Convert, MakeFuncConverter.
    cbn [FuncConverter.convFunc].
    change (MakeNullableConverter
              (StringToTTConvFactory.as_factory
                 (StringToTTConvFactory.WithNullValue fac v)) base)
      with (StringToTTConvFactory.MakeNullableConverter
              (StringToTTConvFactory.WithNullValue fac v) base).
    now rewrite Hnull.
Qed.

(** ** The mapper *)

Lemma map_loop_zip {Src Dst} (mapper : Mapper.t Src Dst) (tuple : list Src) :
  forall (i : nat) (cs : list (Converter Src Dst)),
    (forall j, (j < List.length tuple)%nat ->
               exists c, converter_at mapper (i + j) = Some c /\
                         nth_error cs j = Some c) ->
    Mapper.map_loop mapper i tuple = Returns (zip_convert cs tuple).
Proof.
  induction tuple as [|x xs IH]; intros i cs Hat.
  - destruct cs; reflexivity.
  - destruct (Hat 0%nat ltac:(cbn; lia)) as (c & Hc & Hcs).
    destruct cs as [|c' cs']; [discriminate|].
    injection Hcs as ->.
    rewrite Nat.add_0_r in Hc. unfold converter_at in Hc.
    cbn [Mapper.map_loop zip_convert]. rewrite Hc.
    destruct (c x) as [r|e]; [|reflexivity].
    rewrite (IH (S i) cs').
    + destruct (zip_convert cs' xs); reflexivity.
    + intros j Hj. destruct (Hat (S j) ltac:(cbn; lia)) as (d & Hd & Hds).
      exists d. split; [|exact Hds].
      now replace (S i + j)%nat with (i + S j)%nat by lia.
Qed.

Lemma zip_convert_error {Src Dst} (cs : list (Converter Src Dst)) :
  forall (tuple : list Src) (e : error),
    zip_convert cs tuple = Err e ->
    exists i c x,
      nth_error cs i = Some c /\ nth_error tuple i = Some x /\ c x = Err e.
Proof.
  induction cs as [|c cs IH]; intros tuple e Hz; [discriminate|].
  destruct tuple as [|x xs]; [discriminate|].
  cbn [zip_convert] in Hz.
  destruct (c x) as [r|e'] eqn:Hc.
  - destruct (zip_convert cs xs) as [rs|e''] eqn:Hrest; [discriminate|].
    injection Hz as ->.
    destruct (IH xs e Hrest) as (i & d & y & Hd & Hy & Hdy).
    exists (S i), d, y. auto.
  - injection Hz as ->. exists 0%nat, c, x. auto.
Qed.

Lemma zip_convert_length {Src Dst} (cs : list (Converter Src Dst)) :
  forall (tuple : list Src) (rs : list Dst),
    (List.length tuple <= List.length cs)%nat ->
    zip_convert cs tuple = Ok rs -> List.length rs = List.length tuple.
Proof.
  induction cs as [|c cs IH]; intros tuple rs Hlen Hz.
  - destruct tuple; [|cbn in Hlen; lia]. now injection Hz as <-.
  - destruct tuple as [|x xs]; [now injection Hz as <-|].
    cbn [zip_convert] in Hz.
    destruct (c x); [|discriminate].
    destruct (zip_convert cs xs) as [rs'|] eqn:Hrest; [|discriminate].
    injection Hz as <-. cbn [List.length] in *. f_equal.
    apply IH; [lia|assumption].
Qed.

(** C2: a mapper with [N] converters and no default converter rejects a
    tuple at validation exactly when the tuple is longer than [N], and then
    [Map] returns the length error; a tuple of at most [N] fields is mapped
    by the first [len(tuple)] converters alone, so an error then is the error
    of one of them on its field; with a default converter validation never
    fails and the fields past [N] go to the default converter.  When no
    converter returns the length error itself, [Map] returns it if and only
    if the tuple is longer than [N]. *)
Theorem mapper_length_law {Src Dst} (converters : list (Converter Src Dst))
    (tuple : list Src) :
  let N := List.length converters in
  let mapper := MakeMapper converters in
  ((exists err, Mapper.validateTuple mapper tuple = Some err)
   <-> (N < List.length tuple)%nat) /\
  ((N < List.length tuple)%nat ->
   Mapper.Map mapper tuple = Returns (Err ErrTupleLength)) /\
  ((List.length tuple <= N)%nat ->
   Mapper.Map mapper tuple =
     Returns (zip_convert (firstn (List.length tuple) converters) tuple) /\
   forall e, Mapper.Map mapper tuple = Returns (Err e) ->
     exists i c x,
       (i < List.length tuple)%nat /\ nth_error converters i = Some c /\
       nth_error tuple i = Some x /\ c x = Err e) /\
  (forall d : Converter Src Dst,
     let with_default := Mapper.WithDefaultConverter mapper d in
     Mapper.validateTuple with_default tuple = None /\
     Mapper.Map with_default tuple =
       Returns (zip_convert
                  (converters ++ repeat d (List.length tuple - N))
                  tuple)) /\
  ((forall c x, In c converters -> c x <> Err ErrTupleLength) ->
   (Mapper.Map mapper tuple = Returns (Err ErrTupleLength)
    <-> (N < List.length tuple)%nat)).
Proof.
  cbv zeta. unfold MakeMapper.
  assert (Hshort : (List.length tuple <= List.length converters)%nat ->
            Mapper.Map (Mapper.Make converters None) tuple =
            Returns (zip_convert (firstn (List.length tuple) converters)
                                 tuple)).
  { intros Hle. unfold Mapper.Map, Mapper.validateTuple.
    cbn [Mapper.converters Mapper.defaultConverter].
    replace (List.length converters <? List.length tuple)%nat with false
      by (symmetry; apply Nat.ltb_ge; lia).
    cbn [andb]. apply map_loop_zip. intros j Hj. cbn [Nat.add].
    unfold converter_at. cbn [Mapper.converters Mapper.defaultConverter].
    replace (j <? List.length converters)%nat with true
      by (symmetry; apply Nat.ltb_lt; lia).
    destruct (nth_error converters j) as [c|] eqn:Hc.
    - exists c. split; [reflexivity|].
      rewrite nth_error_firstn.
      replace (j <? List.length tuple)%nat with true
        by (symmetry; apply Nat.ltb_lt; lia).
      exact Hc.
    - apply nth_error_None in Hc. lia. }
  assert (Hlong : (List.length converters < List.length tuple)%nat ->
            Mapper.Map (Mapper.Make converters None) tuple =
            Returns (Err ErrTupleLength)).
  { intros Hlt. unfold Mapper.Map, Mapper.validateTuple.
    cbn [Mapper.converters Mapper.defaultConverter].
    replace (List.length converters <? List.length tuple)%nat with true
      by (symmetry; apply Nat.ltb_lt; lia).
    reflexivity. }
  assert (Hprov : (List.length tuple <= List.length converters)%nat ->
            forall e,
              Mapper.Map (Mapper.Make converters None) tuple
              = Returns (Err e) ->
              exists i c x,
                (i < List.length tuple)%nat /\
                nth_error converters i = Some c /\
                nth_error tuple i = Some x /\ c x = Err e).
  { intros Hle e He. rewrite (Hshort Hle) in He. injection He as He.
    apply zip_convert_error in He as (i & c & x & Hc & Hx & Hcx).
    exists i, c, x.
    assert (Hi : (i < List.length tuple)%nat)
      by (apply nth_error_Some; congruence).
    rewrite nth_error_firstn in Hc.
    replace (i <? List.length tuple)%nat with true in Hc
      by (symmetry; apply Nat.ltb_lt; lia).
    auto. }
  split; [|split; [|split; [|split]]].
  - unfold Mapper.validateTuple.
    cbn [Mapper.converters Mapper.defaultConverter]. rewrite andb_true_r.
    destruct (Nat.ltb_spec (List.length converters) (List.length tuple)).
    + split; eauto.
    + split; [intros [? [=]]|lia].
  - exact Hlong.
  - intros Hle. split; [now apply Hshort|now apply Hprov].
  - intros d. unfold Mapper.Map, Mapper.validateTuple,
      Mapper.WithDefaultConverter.
    cbn [Mapper.converters Mapper.defaultConverter].
    rewrite andb_false_r. split; [reflexivity|].
    apply map_loop_zip. intros j Hj. cbn [Nat.add].
    unfold converter_at. cbn [Mapper.converters Mapper.defaultConverter].
    destruct (Nat.ltb_spec j (List.length converters)) as [Hin|Hout].
    + destruct (nth_error converters j) as [c|] eqn:Hc.
      * exists c. split; [reflexivity|].
        rewrite nth_error_app1 by assumption. exact Hc.
      * apply nth_error_None in Hc. lia.
    + exists d. split; [reflexivity|].
      rewrite nth_error_app2 by assumption.
      apply nth_error_repeat. lia.
  - intros Hnever. split; [|exact Hlong].
    intros Hmap.
    destruct (Nat.lt_ge_cases (List.length converters) (List.length tuple))
      as [Hlt|Hle]; [exact Hlt|exfalso].
    destruct (Hprov Hle _ Hmap) as (i & c & x & _ & Hc & _ & Hcx).
    apply (Hnever c x); [|exact Hcx].
    eapply nth_error_In, Hc.
Qed.

(** ** The shape of an encoded rune *)

Lemma land_low (a b k : Z) :
  0 <= k -> 0 <= b < 2 ^ k -> a mod 2 ^ k = 0 -> Z.land a b = 0.
Proof.
  intros Hk Hb Ha. apply Z.bits_inj'. intros n Hn.
  rewrite Z.land_spec, Z.bits_0.
  destruct (Z.lt_ge_cases n k) as [Hlt|Hge].
  - rewrite <- (Z.mod_pow2_bits_low a k n) by lia.
    rewrite Ha, Z.bits_0. reflexivity.
  - rewrite <- (Z.mod_small b (2 ^ k)) by lia.
    rewrite Z.mod_pow2_bits_high by lia. apply andb_false_r.
Qed.

Lemma lor_add (a b k : Z) :
  0 <= k -> 0 <= b < 2 ^ k -> a mod 2 ^ k = 0 -> Z.lor a b = a + b.
Proof.
  intros Hk Hb Ha. pose proof (land_low a Hk Hb Ha) as Hl.
  rewrite Z.add_nocarry_lxor by assumption.
  symmetry. now apply Z.lxor_lor.
Qed.

Lemma land_maskx (x : Z) : Z.land x utf8.maskx = x mod 64.
Proof.
  change utf8.maskx with (Z.ones 6). rewrite Z.land_ones by lia. reflexivity.
Qed.

Lemma tx_byte (x : Z) :
  0x80 <= Z.lor utf8.tx (Z.land x utf8.maskx) < 0xC0.
Proof.
  rewrite land_maskx.
  pose proof (Z.mod_pos_bound x 64 ltac:(lia)) as Hm.
  rewrite (@lor_add utf8.tx (x mod 64) 6) by (first [lia | reflexivity]).
  unfold utf8.tx. lia.
Qed.

Lemma cont_byte_tx (x : Z) :
  cont_byte (ascii_of_Z (Z.lor utf8.tx (Z.land x utf8.maskx))) = true.
Proof.
  pose proof (tx_byte x) as Hb. unfold cont_byte.
  rewrite byte_ascii_of_Z by lia. lia.
Qed.

(** Whatever the rune, [string(r)] is one ASCII byte or a well-formed
    multi-byte sequence. *)
Lemma string_of_rune_shape (r : Z) : rune_shape (string_of_rune r).
Proof.
  unfold string_of_rune, utf8.EncodeRune.
  destruct ((0 <=? r) && (r <=? utf8.rune1Max)) eqn:H1.
  { unfold utf8.rune1Max, utf8.to_byte in *.
    cbn [string_of_bytes fold_right]. apply shape_ascii.
    unfold ascii_byte. rewrite Z.mod_small by lia.
    rewrite byte_ascii_of_Z by lia. lia. }
  destruct ((0 <=? r) && (r <=? utf8.rune2Max)) eqn:H2.
  { unfold utf8.rune1Max, utf8.rune2Max, utf8.to_byte in *.
    cbn [string_of_bytes fold_right]. rewrite Z.shiftr_div_pow2 by lia.
    assert (Hq : 2 <= r / 2 ^ 6 < 32).
    { split; [apply Z.div_le_lower_bound|apply Z.div_lt_upper_bound]; lia. }
    rewrite (Z.mod_small (r / 2 ^ 6)) by lia.
    rewrite (@lor_add utf8.t2 (r / 2 ^ 6) 6)
      by (first [lia | reflexivity]).
    apply shape_multi.
    - unfold lead_byte, utf8.t2. rewrite byte_ascii_of_Z by lia. lia.
    - cbn [all_cont]. now rewrite cont_byte_tx.
    - unfold cont_len, utf8.t2. rewrite byte_ascii_of_Z by lia.
      replace (192 + r / 2 ^ 6 <? 224) with true by lia. reflexivity. }
  assert (Hthree : forall x, 0x800 <= x <= 0xFFFF ->
             rune_shape (string_of_bytes (utf8.three x))).
  { intros x Hx. unfold utf8.three, utf8.to_byte.
    cbn [string_of_bytes fold_right]. rewrite (Z.shiftr_div_pow2 x 12) by lia.
    assert (Hq : 0 <= x / 2 ^ 12 < 16).
    { split; [apply Z.div_pos|apply Z.div_lt_upper_bound]; lia. }
    rewrite (Z.mod_small (x / 2 ^ 12)) by lia.
    rewrite (@lor_add utf8.t3 (x / 2 ^ 12) 4)
      by (first [lia | reflexivity]).
    apply shape_multi.
    - unfold lead_byte, utf8.t3. rewrite byte_ascii_of_Z by lia. lia.
    - cbn [all_cont]. now rewrite !cont_byte_tx.
    - unfold cont_len, utf8.t3. rewrite byte_ascii_of_Z by lia.
      replace (224 + x / 2 ^ 12 <? 224) with false by lia.
      replace (224 + x / 2 ^ 12 <? 240) with true by lia. reflexivity. }
  destruct ((r <? 0) || (utf8.MaxRune <? r)
            || ((utf8.surrogateMin <=? r) && (r <=? utf8.surrogateMax)))
    eqn:H3.
  { apply Hthree. unfold utf8.RuneError. lia. }
  unfold utf8.rune1Max, utf8.rune2Max, utf8.MaxRune, utf8.surrogateMin,
    utf8.surrogateMax in *.
  destruct (r <=? utf8.rune3Max) eqn:H4; unfold utf8.rune3Max in H4.
  { apply Hthree. lia. }
  unfold utf8.to_byte. cbn [string_of_bytes fold_right].
  rewrite (Z.shiftr_div_pow2 r 18) by lia.
  assert (Hq : 0 <= r / 2 ^ 18 < 8).
  { split; [apply Z.div_pos|apply Z.div_lt_upper_bound]; lia. }
  rewrite (Z.mod_small (r / 2 ^ 18)) by lia.
  rewrite (@lor_add utf8.t4 (r / 2 ^ 18) 3) by (first [lia | reflexivity]).
  apply shape_multi.
  - unfold lead_byte, utf8.t4. rewrite byte_ascii_of_Z by lia. lia.
  - cbn [all_cont]. now rewrite !cont_byte_tx.
  - unfold cont_len, utf8.t4. rewrite byte_ascii_of_Z by lia.
    replace (240 + r / 2 ^ 18 <? 224) with false by lia.
    replace (240 + r / 2 ^ 18 <? 240) with false by lia. reflexivity.
Qed.

(** ** Removing separators *)

Lemma HasPrefix_head_ne (a ch : ascii) (p t : string) :
  a <> ch -> strings.HasPrefix (String ch t) (String a p) = false.
Proof.
  intros Hne. cbn [strings.HasPrefix].
  apply Ascii.eqb_neq in Hne. now rewrite Hne.
Qed.

Lemma HasPrefix_app_self (old : string) : forall t,
  strings.HasPrefix (old ++ t) old = true.
Proof.
  induction old as [|a o IH]; intros t; cbn [append strings.HasPrefix];
    [reflexivity|].
  now rewrite Ascii.eqb_refl, IH.
Qed.

Lemma HasPrefix_same_len (p : string) : forall u t,
  strings.HasPrefix (u ++ t) p = true -> len p = len u -> p = u.
Proof.
  induction p as [|a p IH]; intros u t Hp Hlen.
  - destruct u; [reflexivity|discriminate].
  - destruct u as [|b u]; [discriminate|].
    cbn [append strings.HasPrefix] in Hp.
    apply andb_true_iff in Hp as [Hab Hrest].
    apply Ascii.eqb_eq in Hab. subst b. f_equal.
    apply (IH u t Hrest). unfold len in *. cbn [String.length] in Hlen. lia.
Qed.

Lemma replace_go_skip (old new : string) (u : string) : forall t,
  strings.replace_go old new (len u) (u ++ t) = strings.replace_go old new 0 t.
Proof.
  induction u as [|a u IH]; intros t; [reflexivity|].
  cbn [append len String.length strings.replace_go]. apply IH.
Qed.

Lemma replace_go_match (old new t : string) :
  old <> "" ->
  strings.replace_go old new 0 (old ++ t) = new ++ strings.replace_go old new 0 t.
Proof.
  intros Hne. destruct old as [|a o]; [congruence|].
  cbn [append]. cbn [strings.replace_go].
  change (String a (o ++ t)) with (String a o ++ t).
  rewrite HasPrefix_app_self. f_equal.
  replace (len (String a o) - 1)%nat with (len o)
    by (unfold len; cbn [String.length]; lia).
  apply replace_go_skip.
Qed.

Lemma replace_go_nomatch (old new : string) (ch : ascii) (t : string) :
  strings.HasPrefix (String ch t) old = false ->
  strings.replace_go old new 0 (String ch t) =
  String ch (strings.replace_go old new 0 t).
Proof. intros Hp. cbn [strings.replace_go]. now rewrite Hp. Qed.

Lemma rune_shape_nonempty (e : string) : rune_shape e -> e <> "".
Proof. intros He. inversion He; discriminate. Qed.

Lemma ReplaceAll_remove (e s : string) :
  rune_shape e -> strings.ReplaceAll s e "" = strings.replace_go e "" 0 s.
Proof.
  intros He. inversion He; subst; reflexivity.
Qed.

Lemma byte_classes (c : ascii) :
  (ascii_byte c = true -> lead_byte c = false /\ cont_byte c = false) /\
  (lead_byte c = true -> ascii_byte c = false /\ cont_byte c = false) /\
  (cont_byte c = true -> ascii_byte c = false /\ lead_byte c = false).
Proof. unfold ascii_byte, lead_byte, cont_byte. lia. Qed.

Lemma HasPrefix_ascii_head (e : string) (ch : ascii) (t : string) :
  rune_shape e -> ascii_byte ch = true ->
  strings.HasPrefix (String ch t) e = hits e ch.
Proof.
  intros He Hch. inversion He as [b Hb|b rest Hb Hrest Hlen]; subst.
  - cbn [strings.HasPrefix hits]. apply andb_true_r.
  - assert (Hne : b <> ch).
    { intros ->. destruct (byte_classes ch) as (Ha & _ & _).
      destruct (Ha Hch). congruence. }
    rewrite HasPrefix_head_ne by assumption.
    unfold hits. destruct rest; [|reflexivity].
    symmetry. now apply Ascii.eqb_neq.
Qed.

Lemma remove_ascii_head (e : string) (ch : ascii) (t : string) :
  rune_shape e -> ascii_byte ch = true ->
  strings.replace_go e "" 0 (String ch t) =
  if hits e ch then strings.replace_go e "" 0 t
  else String ch (strings.replace_go e "" 0 t).
Proof.
  intros He Hch. cbn [strings.replace_go].
  rewrite (@HasPrefix_ascii_head e ch t He Hch).
  destruct (hits e ch) eqn:Hh; [|reflexivity].
  unfold hits in Hh. destruct e as [|b [|? ?]]; try discriminate.
  reflexivity.
Qed.

Lemma remove_cont (e : string) (u : string) : forall t,
  rune_shape e -> all_cont u = true ->
  strings.replace_go e "" 0 (u ++ t) = u ++ strings.replace_go e "" 0 t.
Proof.
  induction u as [|ch u IH]; intros t He Hu; [reflexivity|].
  cbn [all_cont] in Hu. apply andb_true_iff in Hu as [Hch Hu].
  cbn [append]. rewrite replace_go_nomatch; [now rewrite IH|].
  destruct (byte_classes ch) as (_ & _ & Hc). destruct (Hc Hch) as [Hna Hnl].
  inversion He as [b Hb|b rest Hb Hrest Hlen]; subst;
    apply HasPrefix_head_ne; intros ->; congruence.
Qed.

(** Removing [e] leaves a different encoded rune [c] in place. *)
Lemma remove_other (e c t : string) :
  rune_shape e -> rune_shape c -> e <> c ->
  strings.replace_go e "" 0 (c ++ t) = c ++ strings.replace_go e "" 0 t.
Proof.
  intros He Hc Hne.
  inversion Hc as [c0 Hc0|c0 crest Hc0 Hcrest Hclen]; subst.
  - cbn [append]. rewrite remove_ascii_head by assumption.
    destruct (hits e c0) eqn:Hh; [|reflexivity].
    unfold hits in Hh. destruct e as [|b [|? ?]]; try discriminate.
    apply Ascii.eqb_eq in Hh. congruence.
  - cbn [append].
    assert (Hp : strings.HasPrefix (String c0 (crest ++ t)) e = false).
    { destruct (strings.HasPrefix (String c0 (crest ++ t)) e) eqn:Hp;
        [exfalso|reflexivity].
      inversion He as [b Hb|b rest Hb Hrest Hlen]; subst.
      - cbn [strings.HasPrefix] in Hp. rewrite andb_true_r in Hp.
        apply Ascii.eqb_eq in Hp. subst b.
        destruct (byte_classes c0) as (Ha & _ & _). destruct (Ha Hb).
        congruence.
      - cbn [strings.HasPrefix] in Hp.
        apply andb_true_iff in Hp as [Hb0 Hp].
        apply Ascii.eqb_eq in Hb0. subst b.
        apply Hne. f_equal.
        apply (@HasPrefix_same_len rest crest t Hp). congruence. }
    rewrite (@replace_go_nomatch e "" c0 (crest ++ t) Hp). f_equal.
    now apply remove_cont.
Qed.

Lemma Inserted_refl (c n : string) : Inserted c n n.
Proof. induction n; constructor; assumption. Qed.

Lemma remove_all_ascii (e : string) (n : string) :
  rune_shape e -> all_ascii n = true ->
  all_ascii (strings.replace_go e "" 0 n) = true.
Proof.
  intros He. induction n as [|ch n IH]; intros Hn; [reflexivity|].
  cbn [all_ascii] in Hn. apply andb_true_iff in Hn as [Hch Hn].
  rewrite remove_ascii_head by assumption.
  destruct (hits e ch); [now apply IH|].
  cbn [all_ascii]. now rewrite Hch, IH.
Qed.

(** Removing the separator itself undoes the insertion. *)
Lemma remove_inserted_same (c n s : string) :
  rune_shape c -> all_ascii n = true -> Inserted c n s ->
  strings.replace_go c "" 0 s = strings.replace_go c "" 0 n.
Proof.
  intros Hc Hn Hins. induction Hins as [|ch n s Hins IH|n s Hins IH].
  - reflexivity.
  - cbn [all_ascii] in Hn. apply andb_true_iff in Hn as [Hch Hn].
    rewrite !remove_ascii_head by assumption. now rewrite IH.
  - rewrite replace_go_match by now apply rune_shape_nonempty.
    cbn [append]. now apply IH.
Qed.

(** Removing another rune keeps the insertion an insertion. *)
Lemma remove_inserted_other (e c n s : string) :
  rune_shape e -> rune_shape c -> e <> c ->
  all_ascii n = true -> Inserted c n s ->
  Inserted c (strings.replace_go e "" 0 n) (strings.replace_go e "" 0 s).
Proof.
  intros He Hc Hne Hn Hins.
  induction Hins as [|ch n s Hins IH|n s Hins IH].
  - constructor.
  - cbn [all_ascii] in Hn. apply andb_true_iff in Hn as [Hch Hn].
    rewrite !remove_ascii_head by assumption.
    destruct (hits e ch); [now apply IH|].
    constructor. now apply IH.
  - rewrite remove_other by assumption. constructor. now apply IH.
Qed.

Lemma strip_inserted (runes : list Z) : forall (r : Z) (n s : string),
  In r runes -> all_ascii n = true -> Inserted (string_of_rune r) n s ->
  strip runes s = strip runes n.
Proof.
  unfold strip.
  induction runes as [|r' runes IH]; intros r n s Hin Hn Hins;
    [contradiction|].
  cbn [fold_left].
  pose proof (string_of_rune_shape r) as Hc.
  pose proof (string_of_rune_shape r') as He.
  rewrite !(ReplaceAll_remove _ He).
  destruct (string_dec (string_of_rune r') (string_of_rune r)) as [Heq|Hne].
  - rewrite Heq. now rewrite (remove_inserted_same Hc Hn Hins).
  - destruct Hin as [->|Hin]; [congruence|].
    apply (IH r); [assumption|now apply remove_all_ascii|].
    now apply remove_inserted_other.
Qed.

Lemma is_digit_ascii (ch : ascii) :
  is_digit ch = true -> ascii_byte ch = true.
Proof.
  intros Hch. apply is_digit_bounds in Hch. unfold ascii_byte. lia.
Qed.

Lemma all_digits_all_ascii (n : string) :
  all_digits n = true -> all_ascii n = true.
Proof.
  induction n as [|ch n IH]; cbn [all_digits all_ascii]; [reflexivity|].
  intros Hd. apply andb_true_iff in Hd as [Hch Hn].
  now rewrite (IH Hn), (is_digit_ascii _ Hch).
Qed.

Lemma hits_digit (r : Z) (ch : ascii) :
  digit_rune r = false -> is_digit ch = true ->
  hits (string_of_rune r) ch = false.
Proof.
  intros Hr Hch. apply is_digit_bounds in Hch.
  unfold string_of_rune, utf8.EncodeRune.
  destruct ((0 <=? r) && (r <=? utf8.rune1Max)) eqn:H1.
  - unfold utf8.rune1Max, utf8.to_byte, digit_rune in *.
    cbn [string_of_bytes fold_right hits].
    rewrite Z.mod_small by lia. rewrite ascii_eqb_byte.
    rewrite byte_ascii_of_Z by lia. lia.
  - destruct ((0 <=? r) && (r <=? utf8.rune2Max));
      [|destruct ((r <? 0) || (utf8.MaxRune <? r)
                  || ((utf8.surrogateMin <=? r) && (r <=? utf8.surrogateMax)));
        [|destruct (r <=? utf8.rune3Max)]];
      cbn [utf8.three string_of_bytes fold_right hits]; reflexivity.
Qed.

Lemma strip_digits (runes : list Z) : forall n : string,
  forallb (fun r => negb (digit_rune r)) runes = true ->
  all_digits n = true -> strip runes n = n.
Proof.
  unfold strip.
  induction runes as [|r runes IH]; intros n Hr Hn; [reflexivity|].
  cbn [forallb] in Hr. apply andb_true_iff in Hr as [Hr0 Hr].
  apply negb_true_iff in Hr0. cbn [fold_left].
  rewrite (ReplaceAll_remove _ (string_of_rune_shape r)).
  assert (Hsame : strings.replace_go (string_of_rune r) "" 0 n = n).
  { clear IH Hr. induction n as [|ch n IHn]; [reflexivity|].
    cbn [all_digits] in Hn. apply andb_true_iff in Hn as [Hch Hn].
    rewrite remove_ascii_head;
      [|apply string_of_rune_shape|now apply is_digit_ascii].
    rewrite (@hits_digit r ch Hr0 Hch). now rewrite IHn. }
  rewrite Hsame. now apply IH.
Qed.

(** C9: for every rune [r] of the configured thousand separators and every
    numeral [n], the unsigned converter gives the same result on [n] with
    copies of [r] inserted anywhere as on [n] itself; when no separator is a
    digit that result is the plain [ParseUint] of [n]; with separator ['],
    "111'111'111'111" converts to 111111111111. *)
Theorem thousand_separators_ignored (seps : string) (r : Z) (n s : string) :
  In r (range_runes seps) ->
  all_digits n = true ->
  Inserted (string_of_rune r) n s ->
  MakeStringToUIntConverter seps s = MakeStringToUIntConverter seps n /\
  (forallb (fun r => negb (digit_rune r)) (range_runes seps) = true ->
   MakeStringToUIntConverter seps s = lift VUint64 (strconv.ParseUint n)) /\
  MakeStringToUIntConverter "'" "111'111'111'111" =
    Ok (VUint64 111111111111).
Proof.
  intros Hin Hn Hins.
  assert (Hstrip : replaceCharacters s seps "" = replaceCharacters n seps "").
  { apply (@strip_inserted (range_runes seps) r n s); auto.
    now apply all_digits_all_ascii. }
  unfold MakeStringToUIntConverter, StringToUIntConverter.Convert.
  cbn [StringToUIntConverter.ignoreChars].
  split; [now rewrite Hstrip|]. split; [|reflexivity].
  intros Hnd. rewrite Hstrip.
  change (replaceCharacters n seps "") with (strip (range_runes seps) n).
  now rewrite strip_digits.
Qed.

Lemma thousand_separators_ignored_witness :
  MakeStringToUIntConverter "@ '" "1'234'567" =
    MakeStringToUIntConverter "@ '" "1234567" /\
  (forallb (fun r => negb (digit_rune r)) (range_runes "@ '") = true ->
   MakeStringToUIntConverter "@ '" "1'234'567" =
     lift VUint64 (strconv.ParseUint "1234567")) /\
  MakeStringToUIntConverter "'" "111'111'111'111" =
    Ok (VUint64 111111111111).
Proof.
  apply (@thousand_separators_ignored "@ '" 39 "1234567" "1'234'567").
  - vm_compute. auto.
  - reflexivity.
  - apply Ins_keep. apply (@Ins_sep "'" "234567" "234'567").
    do 3 apply Ins_keep. apply (@Ins_sep "'" "567" "567").
    apply Inserted_refl.
Defined.

(** ** The datetime converter *)

Lemma HasPrefix_space (c : ascii) (t : string) :
  strings.HasPrefix (String c t) " " = Ascii.eqb c " ".
Proof.
  cbn [strings.HasPrefix]. rewrite andb_true_r. apply Ascii.eqb_sym.
Qed.

Lemma Cut_no_space (s : string) :
  has_space s = false -> strings.Cut s " " = (s, "", false).
Proof.
  induction s as [|c t IH]; intros Hs; [reflexivity|].
  cbn [has_space] in Hs. apply orb_false_iff in Hs as [Hc Ht].
  cbn [strings.Cut]. rewrite HasPrefix_space, Hc, (IH Ht). reflexivity.
Qed.

Lemma Cut_first_space (date : string) : forall tzName,
  has_space date = false ->
  strings.Cut (date ++ String " " tzName) " " = (date, tzName, true).
Proof.
  induction date as [|c t IH]; intros tzName Hs.
  - reflexivity.
  - cbn [has_space] in Hs. apply orb_false_iff in Hs as [Hc Ht].
    cbn [append strings.Cut]. rewrite HasPrefix_space, Hc, (IH tzName Ht).
    reflexivity.
Qed.

(** Every string has no space, or splits at its first one. *)
Lemma first_space (s : string) :
  has_space s = false \/
  exists date tzName,
    s = date ++ String " " tzName /\ has_space date = false.
Proof.
  induction s as [|c t IH]; [now left|].
  destruct (Ascii.eqb_spec c " ") as [->|Hne].
  - right. exists "", t. auto.
  - destruct IH as [Hns|(date & tz & -> & Hd)].
    + left. cbn [has_space]. apply Ascii.eqb_neq in Hne. now rewrite Hne.
    + right. exists (String c date), tz. split; [reflexivity|].
      cbn [has_space]. apply Ascii.eqb_neq in Hne. now rewrite Hne.
Qed.

(** C3: the datetime converter splits its input at the first space.  With
    no space the whole input is parsed with the numeric-offset layout and the
    instant is re-presented in the unnamed fixed zone of the parsed offset;
    with a space the part before it is parsed with the zone-less layout in
    the location the part after it names.  An error of the parse or of the
    zone lookup is the converter's error. *)
Theorem datetime_convert_forms `{GoLibs} (src : string) :
  (has_space src = false \/
   exists date tzName,
     src = date ++ String " " tzName /\ has_space date = false) /\
  (has_space src = false ->
   (forall e, time_Parse dateTimeOffsetLayout src = Err e ->
              StringToDatetimeConverter.Convert src = Err e) /\
   (forall tm, time_Parse dateTimeOffsetLayout src = Ok tm ->
      exists tm',
        StringToDatetimeConverter.Convert src =
          lift VDatetime (datetime_NewDatetime tm') /\
        time.unixSec tm' = time.unixSec tm /\
        time.nsec tm' = time.nsec tm /\
        time.loc tm' =
          time.FixedZone datetime.NoTimezone (snd (time.Zone tm)) /\
        time.Zone tm' = ("", snd (time.Zone tm)))) /\
  (forall date tzName,
     src = date ++ String " " tzName -> has_space date = false ->
     (forall e, time_LoadLocation tzName = Err e ->
                StringToDatetimeConverter.Convert src = Err e) /\
     (forall loc e,
        time_LoadLocation tzName = Ok loc ->
        time_ParseInLocation dateTimeLayout date loc = Err e ->
        StringToDatetimeConverter.Convert src = Err e) /\
     (forall loc tm,
        time_LoadLocation tzName = Ok loc ->
        time_ParseInLocation dateTimeLayout date loc = Ok tm ->
        StringToDatetimeConverter.Convert src =
          lift VDatetime (datetime_NewDatetime tm))) /\
  dateTimeOffsetLayout = "2006-01-02T15:04:05.999999999-0700" /\
  dateTimeLayout = "2006-01-02T15:04:05.999999999".
Proof.
  split; [apply first_space|]. split; [|split; [|split; reflexivity]].
  - intros Hns. unfold StringToDatetimeConverter.Convert.
    rewrite (@Cut_no_space src Hns). cbn [negb]. split.
    + intros e ->. reflexivity.
    + intros tm ->. destruct (time.Zone tm) as [abbrev offset] eqn:Hz.
      eexists. split; [reflexivity|]. cbn. auto.
  - intros date tzName -> Hd. unfold StringToDatetimeConverter.Convert.
    rewrite (@Cut_first_space date tzName Hd). cbn [negb]. repeat split.
    + intros e ->. reflexivity.
    + intros loc e -> ->. reflexivity.
    + intros loc tm -> ->. reflexivity.
Qed.

(** ** The JSON converters *)

Lemma decodeValue_top (fuel : nat) (depth : Z) (s : string) (v : value)
    (r : string) :
  json.decodeValue fuel depth s = Some (v, r) -> json_top v.
Proof.
  destruct fuel as [|f]; [discriminate|].
  cbn [json.decodeValue].
  destruct (json.skip_ws s) as [|c t]; [discriminate|].
  repeat match goal with
         | |- (if ?b then _ else _) = _ -> _ => destruct b
         | |- match ?x with _ => _ end = _ -> _ => destruct x
         | |- Some _ = Some _ -> _ => intros [= <- <-]; exact I
         | |- None = Some _ -> _ => discriminate
         | |- (let '(_, _) := ?x in _) = _ -> _ => destruct x
         end.
Qed.

Lemma Unmarshal_top (src : string) (v : value) :
  json.Unmarshal src = Ok v -> json_top v.
Proof.
  unfold json.Unmarshal.
  destruct (json.decodeValue _ 0 src) as [[v' r]|] eqn:Hd; [|discriminate].
  destruct (json.skip_ws r); [|discriminate].
  intros [= <-]. eapply decodeValue_top, Hd.
Qed.

(** C7 as stated fails: the array converter accepts a JSON object, the map
    converter accepts [null] and an array. *)
Lemma json_converters_accept_any_shape :
  json.Unmarshal "{}" = Ok (VMap []) /\
  is_slice (VMap []) = false /\
  StringToSliceConverter.Convert "{}" = Ok (VMap []) /\
  json.Unmarshal "null" = Ok VNil /\
  is_map VNil = false /\
  StringToMapConverter.Convert "null" = Ok VNil /\
  StringToMapConverter.Convert "[true]" = Ok (VSlice [VBool true]).
Proof. repeat split; reflexivity. Qed.

(** C7, amended: the array converter and the map converter both return
    exactly what decoding the input as a generic JSON value returns, a value
    of any of the six JSON shapes, and fail exactly when that decoding
    fails. *)
Theorem json_converters_decode_only (src : string) :
  StringToSliceConverter.Convert src = json.Unmarshal src /\
  StringToMapConverter.Convert src = json.Unmarshal src /\
  (forall v, json.Unmarshal src = Ok v ->
     json_top v /\
     StringToSliceConverter.Convert src = Ok v /\
     StringToMapConverter.Convert src = Ok v) /\
  (forall e, StringToSliceConverter.Convert src = Err e <->
             json.Unmarshal src = Err e) /\
  (forall e, StringToMapConverter.Convert src = Err e <->
             json.Unmarshal src = Err e).
Proof.
  assert (Hs : StringToSliceConverter.Convert src = json.Unmarshal src).
  { unfold StringToSliceConverter.Convert.
    destruct (json.Unmarshal src); reflexivity. }
  assert (Hm : StringToMapConverter.Convert src = json.Unmarshal src).
  { unfold StringToMapConverter.Convert.
    destruct (json.Unmarshal src); reflexivity. }
  repeat split; try congruence.
  now apply (@Unmarshal_top src).
Qed.

(** ** The cases of the package's own tests *)

Example test_uint_converter :
  let conv := MakeStringToUIntConverter "@ '" in
  conv "1" = Ok (VUint64 1) /\
  conv "18446744073709551615" = Ok (VUint64 18446744073709551615) /\
  conv "0" = Ok (VUint64 0) /\
  conv "439423943289" = Ok (VUint64 439423943289) /\
  conv "111'111'111'111" = Ok (VUint64 111111111111) /\
  is_ok (conv "18446744073709551616") = false /\
  is_ok (conv "-101010") = false /\
  is_ok (conv "null") = false /\
  is_ok (conv "111`111") = false /\
  is_ok (conv "str") = false.
Proof. cbv zeta. repeat split; reflexivity. Qed.

Example test_int_converter :
  let conv := MakeStringToIntConverter "@ '" in
  conv "0" = Ok (VInt64 0) /\
  conv "111@111@111'111" = Ok (VInt64 111111111111) /\
  conv "-1" = Ok (VInt64 (-1)) /\
  conv "9223372036854775807" = Ok (VInt64 9223372036854775807) /\
  conv "-9223372036854775808" = Ok (VInt64 (-9223372036854775808)) /\
  conv "-115 92 28 239" = Ok (VInt64 (-1159228239)) /\
  is_ok (conv "-9223372036854775809") = false /\
  is_ok (conv "9223372036854775808") = false /\
  is_ok (conv "14,15") = false /\
  is_ok (conv "2.5") = false /\
  is_ok (conv "abacaba") = false.
Proof. cbv zeta. repeat split; reflexivity. Qed.

Example test_bool_null_converters :
  MakeStringToBoolConverter "t" = Ok (VBool true) /\
  MakeStringToBoolConverter "0" = Ok (VBool false) /\
  is_ok (MakeStringToBoolConverter "truth") = false /\
  MakeStringToNullConverter "null" "null" = Ok VNil /\
  is_ok (MakeStringToNullConverter "null" "505") = false /\
  MakeStringToBinaryConverter "abc" = Ok (VBytes "abc") /\
  MakeIdentityConverter "null" = Ok (VString "null").
Proof. repeat split; reflexivity. Qed.

Example test_interval_converters :
  MakeStringToIntervalConverter "-11,-1110,0,0,0,0,0,1,2" =
    Ok (VInterval
          {| datetime.Year := -11; datetime.Month := -1110;
             datetime.Week := 0; datetime.Day := 0; datetime.Hour := 0;
             datetime.Min := 0; datetime.Sec := 0; datetime.Nsec := 1;
             datetime.Adjust := 2 |}) /\
  is_ok (MakeStringToIntervalConverter "1,2,3") = false /\
  is_ok (MakeStringToIntervalConverter "1,2,3,4,5,6,7a,8,0") = false /\
  is_ok (MakeStringToIntervalConverter "") = false /\
  MakeIntervalToStringConverter interval_1234 =
    Ok "1234,11,22,33,44,55,66,77,2" /\
  MakeIntervalToStringConverter
    {| datetime.Year := 1414; datetime.Month := 0; datetime.Week := 0;
       datetime.Day := 0; datetime.Hour := 0; datetime.Min := 0;
       datetime.Sec := 0; datetime.Nsec := 4343904394;
       datetime.Adjust := 0 |} =
    Ok "1414,0,0,0,0,0,0,4343904394,0".
Proof. repeat split; reflexivity. Qed.

Example test_json_converters :
  MakeStringToSliceConverter "[null, null, null]" =
    Ok (VSlice [VNil; VNil; VNil]) /\
  is_ok (MakeStringToSliceConverter "[1,2,3,") = false /\
  is_ok (MakeStringToSliceConverter "[pqp][qpq]") = false /\
  MakeStringToMapConverter "{}" = Ok (VMap []) /\
  MakeStringToMapConverter "null" = Ok VNil /\
  is_ok (MakeStringToMapConverter "str") = false.
Proof. repeat split; reflexivity. Qed.

Example test_mapper :
  let ok : Converter string value := fun s => Ok (VString s) in
  let bad : Converter string value :=
    fun s => if String.eqb s "bad" then Err (ErrLib "bad") else Ok (VString s) in
  Mapper.Map (MakeMapper [ok; bad]) ["1"; "bad"] =
    Returns (Err (ErrLib "bad")) /\
  Mapper.Map (MakeMapper [ok; bad]) ["1"] = Returns (Ok [VString "1"]) /\
  Mapper.Map (MakeMapper [ok; bad]) ["1"; "2"; "3"] =
    Returns (Err ErrTupleLength) /\
  Mapper.Map (Mapper.WithDefaultConverter (MakeMapper [bad]) ok)
             ["1"; "bad"; "3"] =
    Returns (Ok [VString "1"; VString "bad"; VString "3"]).
Proof. cbv zeta. repeat split; reflexivity. Qed.

(* ================================================================== *)
(** * Further properties of the converters, the mapper and the assembler *)

(** ** The sequence converter, in full *)

Lemma sequence_loop_all_fail {A B} `{Fmt A} (converters : list (Converter A B))
    (src : A) :
  all_fail converters src ->
  sequence_loop converters src = Err (ErrSeqUnexpectedValue (fmt_v src)).
Proof.
  unfold all_fail. induction converters as [|c rest IH]; intros Hall.
  - reflexivity.
  - inversion Hall as [|? ? [e He] Hrest]; subst.
    cbn [sequence_loop]. rewrite He. now apply IH.
Qed.

Lemma sequence_loop_ok_split {A B} `{Fmt A} (converters : list (Converter A B))
    (src : A) (v : B) :
  sequence_loop converters src = Ok v ->
  exists pre c post,
    converters = (pre ++ c :: post)%list /\ all_fail pre src /\ c src = Ok v.
Proof.
  unfold all_fail. induction converters as [|c rest IH]; intros Hs.
  - discriminate.
  - cbn [sequence_loop] in Hs. destruct (c src) as [r|e] eqn:Hc.
    + injection Hs as ->. exists [], c, rest. repeat split; auto.
    + destruct (IH Hs) as (pre & d & post & -> & Hpre & Hd).
      exists (c :: pre), d, post. repeat split; auto.
      constructor; eauto.
Qed.

Lemma sequence_loop_err_all {A B} `{Fmt A} (converters : list (Converter A B))
    (src : A) (e : error) :
  sequence_loop converters src = Err e -> all_fail converters src.
Proof.
  unfold all_fail. induction converters as [|c rest IH]; intros Hs.
  - constructor.
  - cbn [sequence_loop] in Hs. destruct (c src) as [r|e'] eqn:Hc;
      [discriminate|].
    constructor; eauto.
Qed.

(** X1: a sequence converter returns the value of the first converter of
    its list that succeeds, the ones before it having failed; it fails
    exactly when every converter of the list fails, and then with the
    "unexpected value" error of the sequence, whatever the converters'
    own errors were. *)
Theorem sequence_first_success {A B} `{Fmt A}
    (converters : list (Converter A B)) (src : A) :
  (forall v,
     MakeSequenceConverter converters src = Ok v <->
     exists pre c post,
       converters = (pre ++ c :: post)%list /\
       all_fail pre src /\ c src = Ok v) /\
  (forall e,
     MakeSequenceConverter converters src = Err e <->
     all_fail converters src /\ e = ErrSeqUnexpectedValue (fmt_v src)).
Proof.
  change (MakeSequenceConverter converters src)
    with (sequence_loop converters src).
  split.
  - intros v. split; [apply sequence_loop_ok_split|].
    intros (pre & c & post & -> & Hpre & Hc).
    now apply sequence_loop_first.
  - intros e. split.
    + intros Hs. pose proof (sequence_loop_err_all _ _ Hs) as Hall.
      split; [exact Hall|].
      rewrite (sequence_loop_all_fail Hall) in Hs. congruence.
    + intros [Hall ->]. now apply sequence_loop_all_fail.
Qed.

Lemma sequence_loop_app {A B} `{Fmt A} (xs ys : list (Converter A B))
    (src : A) :
  sequence_loop (xs ++ ys) src =
  match sequence_loop xs src with
  | Ok v => Ok v
  | Err _ => sequence_loop ys src
  end.
Proof.
  induction xs as [|c xs IH]; cbn [app sequence_loop]; [reflexivity|].
  destruct (c src); [reflexivity|exact IH].
Qed.

Lemma sequence_loop_flatten {A B} `{Fmt A}
    (pre xs post : list (Converter A B)) (src : A) :
  sequence_loop (pre ++ MakeSequenceConverter xs :: post) src =
  sequence_loop (pre ++ xs ++ post) src.
Proof.
  rewrite !sequence_loop_app.
  destruct (sequence_loop pre src); reflexivity.
Qed.

(** X2: a sequence converter used as an alternative of another sequence
    behaves as its own alternatives spliced into the outer list at its
    place, on success and on failure alike. *)
Theorem sequence_flatten {A B} `{Fmt A}
    (pre xs post : list (Converter A B)) (src : A) :
  MakeSequenceConverter (pre ++ MakeSequenceConverter xs :: post) src =
  MakeSequenceConverter (pre ++ xs ++ post) src.
Proof. apply sequence_loop_flatten. Qed.

(** X3: for every factory and input, the converter for "any" (and the one
    for "scalar") is the flat sequence unsigned, signed, float, decimal,
    boolean, datetime, UUID, interval, identity. *)
Theorem any_converter_order `{GoLibs} (fac : StringToTTConvFactory.t)
    (src : string) :
  let ths := StringToTTConvFactory.thousandSeparators fac in
  let decs := StringToTTConvFactory.decimalSeparators fac in
  let flat : Converter string value :=
    MakeSequenceConverter
      [ MakeStringToUIntConverter ths;
        MakeStringToIntConverter ths;
        MakeStringToFloatConverter ths decs;
        MakeStringToDecimalConverter ths decs;
        MakeStringToBoolConverter;
        MakeStringToDatetimeConverter;
        MakeStringToUUIDConverter;
        MakeStringToIntervalConverter;
        MakeIdentityConverter ] in
  StringToTTConvFactory.GetAnyConverter fac src = flat src /\
  StringToTTConvFactory.GetScalarConverter fac src = flat src.
Proof.
  cbv zeta.
  pose proof (@sequence_loop_flatten string value _ []
                [ MakeStringToUIntConverter
                    (StringToTTConvFactory.thousandSeparators fac);
                  MakeStringToIntConverter
                    (StringToTTConvFactory.thousandSeparators fac);
                  MakeStringToFloatConverter
                    (StringToTTConvFactory.thousandSeparators fac)
                    (StringToTTConvFactory.decimalSeparators fac) ]
                [ MakeStringToDecimalConverter
                    (StringToTTConvFactory.thousandSeparators fac)
                    (StringToTTConvFactory.decimalSeparators fac);
                  MakeStringToBoolConverter;
                  MakeStringToDatetimeConverter;
                  MakeStringToUUIDConverter;
                  MakeStringToIntervalConverter;
                  MakeIdentityConverter ] src) as Hflat.
  split; exact Hflat.
Qed.

(** ** Separator sets of ASCII characters *)

Lemma string_of_rune_ascii (b : ascii) :
  ascii_byte b = true -> string_of_rune (byte b) = String b "".
Proof.
  unfold ascii_byte. intros Hb. pose proof (byte_range b) as Hr.
  unfold string_of_rune, utf8.EncodeRune, utf8.rune1Max, utf8.to_byte.
  replace ((0 <=? byte b) && (byte b <=? 127)) with true by lia.
  cbn [string_of_bytes fold_right]. rewrite Z.mod_small by lia.
  f_equal. apply byte_inj. rewrite byte_ascii_of_Z by lia. reflexivity.
Qed.

Lemma range_runes_fuel_ascii (s : string) : forall fuel,
  all_ascii s = true -> (len s <= fuel)%nat ->
  range_runes_fuel fuel s = map byte (list_ascii_of_string s).
Proof.
  induction s as [|c t IH]; intros fuel Hs Hf.
  - destruct fuel; reflexivity.
  - cbn [all_ascii] in Hs. apply andb_true_iff in Hs as [Hc Ht].
    unfold len in Hf. cbn [String.length] in Hf.
    destruct fuel as [|f]; [lia|].
    cbn [range_runes_fuel utf8.DecodeRuneInString].
    unfold ascii_byte in Hc. rewrite Hc. cbn [drop list_ascii_of_string map].
    f_equal. apply IH; [assumption|unfold len; lia].
Qed.

Lemma range_runes_ascii (s : string) :
  all_ascii s = true -> range_runes s = map byte (list_ascii_of_string s).
Proof.
  intros Hs. unfold range_runes. now apply range_runes_fuel_ascii.
Qed.

Lemma replace_go_byte (b : ascii) (new : string) (s : string) :
  strings.replace_go (String b "") new 0 s = replace_byte b new s.
Proof.
  induction s as [|c t IH]; [reflexivity|].
  cbn [strings.replace_go strings.HasPrefix replace_byte].
  rewrite andb_true_r. unfold len. cbn [String.length Nat.sub].
  destruct (Ascii.eqb b c); now rewrite IH.
Qed.

Lemma replace_byte_self (b : ascii) (s : string) :
  replace_byte b (String b "") s = s.
Proof.
  induction s as [|c t IH]; [reflexivity|]. cbn [replace_byte].
  destruct (Ascii.eqb_spec b c) as [->|Hne]; cbn [append]; now rewrite IH.
Qed.

Lemma ReplaceAll_byte (b : ascii) (new : string) (s : string) :
  strings.ReplaceAll s (String b "") new = replace_byte b new s.
Proof.
  unfold strings.ReplaceAll.
  destruct (String.eqb_spec (String b "") new) as [<-|Hne].
  - symmetry. apply replace_byte_self.
  - apply replace_go_byte.
Qed.

(** [replaceCharacters] for a set of ASCII characters: one pass per
    character of the set, each replacing that byte. *)
Lemma replaceCharacters_ascii (set : string) : forall src replaceTo,
  all_ascii set = true ->
  replaceCharacters src set replaceTo =
  fold_left (fun s b => replace_byte b replaceTo s)
            (list_ascii_of_string set) src.
Proof.
  intros src replaceTo Hset. unfold replaceCharacters.
  rewrite (range_runes_ascii _ Hset).
  revert src. induction set as [|b t IH]; intros src; [reflexivity|].
  cbn [all_ascii] in Hset. apply andb_true_iff in Hset as [Hb Ht].
  cbn [list_ascii_of_string map fold_left].
  rewrite (string_of_rune_ascii _ Hb), ReplaceAll_byte. now apply IH.
Qed.

Lemma replace_byte_delete (b : ascii) (s : string) :
  replace_byte b "" s = filter_bytes (fun c => negb (Ascii.eqb b c)) s.
Proof.
  induction s as [|c t IH]; [reflexivity|].
  cbn [replace_byte filter_bytes].
  destruct (Ascii.eqb b c); cbn [negb append]; now rewrite IH.
Qed.

Lemma filter_bytes_twice (f g : ascii -> bool) (s : string) :
  filter_bytes g (filter_bytes f s) = filter_bytes (fun c => f c && g c) s.
Proof.
  induction s as [|c t IH]; [reflexivity|]. cbn [filter_bytes].
  destruct (f c); cbn [filter_bytes andb]; [|exact IH].
  destruct (g c); now rewrite IH.
Qed.

Lemma filter_bytes_ext (f g : ascii -> bool) (s : string) :
  (forall c, f c = g c) -> filter_bytes f s = filter_bytes g s.
Proof.
  intros Hfg. induction s as [|c t IH]; [reflexivity|].
  cbn [filter_bytes]. now rewrite Hfg, IH.
Qed.

Lemma filter_bytes_all (f : ascii -> bool) (s : string) :
  (forall c, f c = true) -> filter_bytes f s = s.
Proof.
  intros Hf. induction s as [|c t IH]; [reflexivity|].
  cbn [filter_bytes]. now rewrite Hf, IH.
Qed.

Lemma map_bytes_id (f : ascii -> ascii) (s : string) :
  (forall c, f c = c) -> map_bytes f s = s.
Proof.
  intros Hf. induction s as [|c t IH]; [reflexivity|].
  cbn [map_bytes]. now rewrite Hf, IH.
Qed.

Lemma len_map_bytes (f : ascii -> ascii) (s : string) :
  len (map_bytes f s) = len s.
Proof.
  unfold len. induction s as [|c t IH]; [reflexivity|].
  cbn [map_bytes String.length]. now rewrite IH.
Qed.

Lemma delete_set_fold (set : string) : forall src,
  fold_left (fun s b => replace_byte b "" s) (list_ascii_of_string set) src
  = delete_set set src.
Proof.
  unfold delete_set.
  induction set as [|b t IH]; intros src; cbn [list_ascii_of_string fold_left].
  - symmetry. now apply filter_bytes_all.
  - rewrite IH, replace_byte_delete, filter_bytes_twice.
    apply filter_bytes_ext. intros c. cbn [contains].
    now rewrite negb_orb.
Qed.

Lemma replace_byte_map (b x : ascii) (s : string) :
  replace_byte b (String x "") s =
  map_bytes (fun c => if Ascii.eqb b c then x else c) s.
Proof.
  induction s as [|c t IH]; [reflexivity|].
  cbn [replace_byte map_bytes].
  destruct (Ascii.eqb b c); cbn [append]; now rewrite IH.
Qed.

Lemma map_bytes_twice (f g : ascii -> ascii) (s : string) :
  map_bytes g (map_bytes f s) = map_bytes (fun c => g (f c)) s.
Proof.
  induction s as [|c t IH]; [reflexivity|]. cbn [map_bytes]. now rewrite IH.
Qed.

Lemma map_bytes_ext (f g : ascii -> ascii) (s : string) :
  (forall c, f c = g c) -> map_bytes f s = map_bytes g s.
Proof.
  intros Hfg. induction s as [|c t IH]; [reflexivity|].
  cbn [map_bytes]. now rewrite Hfg, IH.
Qed.

Lemma map_set_fold (set : string) (x : ascii) : forall src,
  fold_left (fun s b => replace_byte b (String x "") s)
            (list_ascii_of_string set) src
  = map_bytes (fun c => if contains set c then x else c) src.
Proof.
  induction set as [|b t IH]; intros src; cbn [list_ascii_of_string fold_left].
  - symmetry. now apply map_bytes_id.
  - rewrite IH, replace_byte_map, map_bytes_twice.
    apply map_bytes_ext. intros c. cbn [contains].
    destruct (Ascii.eqb b c); cbn [orb]; [|reflexivity].
    destruct (contains t x); reflexivity.
Qed.

Lemma replaceCharacters_delete (ths src : string) :
  all_ascii ths = true ->
  replaceCharacters src ths "" = delete_set ths src.
Proof.
  intros Hths. rewrite replaceCharacters_ascii by assumption.
  apply delete_set_fold.
Qed.

(** X4: with a thousand-separator set of ASCII characters, the unsigned and
    the signed converter parse the input with every byte of the set deleted,
    wherever it stands and however often: the set is a set of characters, not
    a substring. *)
Theorem integer_converters_delete_separators (ths src : string) :
  all_ascii ths = true ->
  replaceCharacters src ths "" = delete_set ths src /\
  MakeStringToUIntConverter ths src =
    lift VUint64 (strconv.ParseUint (delete_set ths src)) /\
  MakeStringToIntConverter ths src =
    lift VInt64 (strconv.ParseInt (delete_set ths src)).
Proof.
  intros Hths.
  pose proof (@replaceCharacters_delete ths src Hths) as Hdel.
  unfold MakeStringToUIntConverter, StringToUIntConverter.Convert,
    MakeStringToIntConverter, StringToIntConverter.Convert.
  cbn [StringToUIntConverter.ignoreChars StringToIntConverter.ignoreChars].
  now rewrite Hdel.
Qed.

Lemma integer_converters_delete_separators_witness :
  replaceCharacters "1 000'000" "' " "" = delete_set "' " "1 000'000" /\
  MakeStringToUIntConverter "' " "1 000'000" =
    lift VUint64 (strconv.ParseUint (delete_set "' " "1 000'000")) /\
  MakeStringToIntConverter "' " "1 000'000" =
    lift VInt64 (strconv.ParseInt (delete_set "' " "1 000'000")).
Proof.
  apply (@integer_converters_delete_separators "' " "1 000'000").
  reflexivity.
Defined.

(** X5: with separator sets of ASCII characters, the float and the decimal
    converter first delete every byte of the thousand-separator set and then
    turn every remaining byte of the decimal-separator set into a point, and
    parse that; so a character in both sets is deleted, and the text handed
    to the parser is as long as what the deletion left. *)
Theorem float_decimal_converters_fold_separators `{GoLibs}
    (ths decs src : string) :
  all_ascii ths = true -> all_ascii decs = true ->
  replaceCharacters (replaceCharacters src ths "") decs "." =
    fold_set decs (delete_set ths src) /\
  MakeStringToFloatConverter ths decs src =
    lift VFloat64 (strconv_ParseFloat (fold_set decs (delete_set ths src))) /\
  MakeStringToDecimalConverter ths decs src =
    lift VDecimal
      (decimal_NewDecimalFromString (fold_set decs (delete_set ths src))) /\
  len (fold_set decs (delete_set ths src)) = len (delete_set ths src).
Proof.
  intros Hths Hdecs.
  assert (Hfold : replaceCharacters (replaceCharacters src ths "") decs "."
                  = fold_set decs (delete_set ths src)).
  { rewrite (@replaceCharacters_ascii ths src "" Hths), delete_set_fold.
    rewrite (@replaceCharacters_ascii decs (delete_set ths src) "." Hdecs).
    apply map_set_fold. }
  unfold MakeStringToFloatConverter, StringToFloatConverter.Convert,
    MakeStringToDecimalConverter, StringToDecimalConverter.Convert.
  cbn [StringToFloatConverter.ignoreChars StringToFloatConverter.decSeparators
       StringToDecimalConverter.ignoreChars
       StringToDecimalConverter.decSeparators].
  rewrite Hfold. repeat split. apply len_map_bytes.
Qed.

Lemma float_decimal_converters_fold_separators_witness :
  replaceCharacters (replaceCharacters "1 234,5" " '" "") ",." "." =
    fold_set ",." (delete_set " '" "1 234,5") /\
  @MakeStringToFloatConverter refusing_libs " '" ",." "1 234,5" =
    lift VFloat64
      (@strconv_ParseFloat refusing_libs
         (fold_set ",." (delete_set " '" "1 234,5"))) /\
  @MakeStringToDecimalConverter refusing_libs " '" ",." "1 234,5" =
    lift VDecimal
      (@decimal_NewDecimalFromString refusing_libs
         (fold_set ",." (delete_set " '" "1 234,5"))) /\
  len (fold_set ",." (delete_set " '" "1 234,5"))
  = len (delete_set " '" "1 234,5").
Proof.
  apply (@float_decimal_converters_fold_separators refusing_libs
           " '" ",." "1 234,5"); reflexivity.
Defined.

(** X6: for every rune of the thousand-separator set and every text of
    ASCII characters, the unsigned, signed, float and decimal converters
    give the same result on the text with copies of that rune inserted
    anywhere as on the text itself. *)
Theorem numeric_converters_ignore_inserted `{GoLibs} (ths decs : string)
    (r : Z) (n s : string) :
  In r (range_runes ths) ->
  all_ascii n = true ->
  Inserted (string_of_rune r) n s ->
  replaceCharacters s ths "" = replaceCharacters n ths "" /\
  MakeStringToUIntConverter ths s = MakeStringToUIntConverter ths n /\
  MakeStringToIntConverter ths s = MakeStringToIntConverter ths n /\
  MakeStringToFloatConverter ths decs s =
    MakeStringToFloatConverter ths decs n /\
  MakeStringToDecimalConverter ths decs s =
    MakeStringToDecimalConverter ths decs n.
Proof.
  intros Hin Hn Hins.
  assert (Hstrip : replaceCharacters s ths "" = replaceCharacters n ths "")
    by (apply (@strip_inserted (range_runes ths) r n s); auto).
  unfold MakeStringToUIntConverter, StringToUIntConverter.Convert,
    MakeStringToIntConverter, StringToIntConverter.Convert,
    MakeStringToFloatConverter, StringToFloatConverter.Convert,
    MakeStringToDecimalConverter, StringToDecimalConverter.Convert.
  cbn [StringToUIntConverter.ignoreChars StringToIntConverter.ignoreChars
       StringToFloatConverter.ignoreChars StringToFloatConverter.decSeparators
       StringToDecimalConverter.ignoreChars
       StringToDecimalConverter.decSeparators].
  rewrite Hstrip. repeat split.
Qed.

Lemma numeric_converters_ignore_inserted_witness :
  replaceCharacters "-1 234.5" " " "" = replaceCharacters "-1234.5" " " "" /\
  MakeStringToUIntConverter " " "-1 234.5" =
    MakeStringToUIntConverter " " "-1234.5" /\
  MakeStringToIntConverter " " "-1 234.5" =
    MakeStringToIntConverter " " "-1234.5" /\
  @MakeStringToFloatConverter refusing_libs " " "." "-1 234.5" =
    @MakeStringToFloatConverter refusing_libs " " "." "-1234.5" /\
  @MakeStringToDecimalConverter refusing_libs " " "." "-1 234.5" =
    @MakeStringToDecimalConverter refusing_libs " " "." "-1234.5".
Proof.
  apply (@numeric_converters_ignore_inserted refusing_libs " " "." 32
           "-1234.5" "-1 234.5").
  - vm_compute. auto.
  - reflexivity.
  - do 2 apply Ins_keep. apply (@Ins_sep " " "234.5" "234.5").
    apply Inserted_refl.
Defined.

(** Outside ASCII the equation of the property above can fail: deleting
    the two-byte separator from a text in which it was inserted between the
    two halves of another copy leaves that copy behind. *)
Remark inserted_separator_needs_ascii :
  let e := string_of_rune 233 in
  let n := e in
  let s := String (ascii_of_Z 195) (e ++ String (ascii_of_Z 169) "") in
  Inserted e n s /\
  replaceCharacters n e "" = "" /\
  replaceCharacters s e "" = e.
Proof.
  cbv zeta. split; [|split; reflexivity].
  change (string_of_rune 233)
    with (String (ascii_of_Z 195) (String (ascii_of_Z 169) "")).
  apply Ins_keep.
  apply (@Ins_sep (String (ascii_of_Z 195) (String (ascii_of_Z 169) ""))
           (String (ascii_of_Z 169) "") (String (ascii_of_Z 169) "")).
  apply Inserted_refl.
Qed.

(** ** The integer and number converters of the factory *)

Lemma all_bytes_contains (p : ascii -> bool) (set : string) (c : ascii) :
  all_bytes p set = true -> contains set c = true -> p c = true.
Proof.
  induction set as [|b t IH]; cbn [all_bytes contains]; intros Hall Hc;
    [discriminate|].
  apply andb_true_iff in Hall as [Hb Ht].
  apply orb_true_iff in Hc as [Hc|Hc]; [|now apply IH].
  apply Ascii.eqb_eq in Hc. now subst.
Qed.

Lemma filter_bytes_id (keep : ascii -> bool) (s : string) :
  all_bytes keep s = true -> filter_bytes keep s = s.
Proof.
  induction s as [|c t IH]; cbn [all_bytes filter_bytes]; intros Hall;
    [reflexivity|].
  apply andb_true_iff in Hall as [Hc Ht]. rewrite Hc. f_equal. now apply IH.
Qed.

Lemma all_bytes_impl (p q : ascii -> bool) (s : string) :
  (forall c, p c = true -> q c = true) ->
  all_bytes p s = true -> all_bytes q s = true.
Proof.
  intros Hpq. induction s as [|c t IH]; cbn [all_bytes]; intros Hall;
    [reflexivity|].
  apply andb_true_iff in Hall as [Hc Ht]. rewrite (Hpq _ Hc). now apply IH.
Qed.

Lemma all_digits_all_bytes (s : string) :
  all_digits s = true -> all_bytes is_digit s = true.
Proof.
  induction s as [|c t IH]; cbn [all_digits all_bytes]; intros Hd;
    [reflexivity|].
  apply andb_true_iff in Hd as [Hc Ht]. rewrite Hc. now apply IH.
Qed.

Lemma delete_set_numeral (ths s : string) :
  plain_separators ths = true ->
  all_bytes numeral_byte s = true ->
  delete_set ths s = s.
Proof.
  unfold plain_separators, delete_set. intros Hp Hs.
  apply andb_true_iff in Hp as [_ Hp].
  apply filter_bytes_id.
  apply (@all_bytes_impl numeral_byte _ s); [|assumption].
  intros c Hc. destruct (contains ths c) eqn:Hin; [|reflexivity].
  pose proof (@all_bytes_contains _ ths c Hp Hin) as Hn.
  cbv beta in Hn. rewrite Hc in Hn. discriminate.
Qed.

Lemma fmt_u_numeral (x : Z) : 0 <= x -> all_bytes numeral_byte (fmt_u x) = true.
Proof.
  intros Hx. apply (@all_bytes_impl is_digit).
  - intros c Hc. unfold numeral_byte. now rewrite Hc.
  - apply all_digits_all_bytes. now apply digits_all_digits.
Qed.

Lemma fmt_d_numeral (x : Z) : all_bytes numeral_byte (fmt.d x) = true.
Proof.
  unfold fmt.d. destruct (x <? 0) eqn:Hx.
  - cbn [all_bytes]. change (numeral_byte "-") with true. cbn [andb].
    apply (@fmt_u_numeral (- x)). lia.
  - apply (@fmt_u_numeral x). lia.
Qed.

Lemma uint_converter_fmt_u (ths : string) (x : Z) :
  plain_separators ths = true -> 0 <= x <= strconv.maxUint64 ->
  MakeStringToUIntConverter ths (fmt_u x) = Ok (VUint64 x).
Proof.
  intros Hp Hx.
  assert (Ha : all_ascii ths = true)
    by (unfold plain_separators in Hp; now apply andb_true_iff in Hp).
  unfold MakeStringToUIntConverter, StringToUIntConverter.Convert.
  cbn [StringToUIntConverter.ignoreChars].
  rewrite (@replaceCharacters_delete ths (fmt_u x) Ha).
  rewrite (@delete_set_numeral ths (fmt_u x) Hp) by (apply fmt_u_numeral; lia).
  unfold fmt_u.
  rewrite ParseUint_digits;
    [| apply digits_nonempty | apply digits_all_digits; lia].
  rewrite dval_digits.
  - replace (x <=? strconv.maxUint64) with true by lia. reflexivity.
  - split; [lia|]. unfold strconv.maxUint64 in Hx.
    assert (2 ^ 64 < 10 ^ Z.of_nat 20) by (vm_compute; reflexivity). lia.
Qed.

Lemma negative_converters_fmt_d (ths : string) (x : Z) :
  plain_separators ths = true -> - 2 ^ 63 <= x < 0 ->
  (exists e, MakeStringToUIntConverter ths (fmt.d x) = Err e) /\
  MakeStringToIntConverter ths (fmt.d x) = Ok (VInt64 x).
Proof.
  intros Hp Hx.
  assert (Ha : all_ascii ths = true)
    by (unfold plain_separators in Hp; now apply andb_true_iff in Hp).
  unfold MakeStringToUIntConverter, StringToUIntConverter.Convert,
    MakeStringToIntConverter, StringToIntConverter.Convert.
  cbn [StringToUIntConverter.ignoreChars StringToIntConverter.ignoreChars].
  rewrite (@replaceCharacters_delete ths (fmt.d x) Ha).
  rewrite (@delete_set_numeral ths (fmt.d x) Hp) by apply fmt_d_numeral.
  split.
  - destruct (@ParseUint_not_digits (fmt.d x)) as [e He].
    + unfold fmt.d. replace (x <? 0) with true by lia. reflexivity.
    + exists e. now rewrite He.
  - rewrite ParseInt_fmt_d by (unfold int64; lia). reflexivity.
Qed.

(** X7: with thousand separators that are ASCII and are neither digits
    nor the minus sign, the integer and the number converter of the
    factory turn the decimal text of every unsigned 64-bit integer into
    an unsigned value, and the decimal text of every negative signed
    64-bit integer into a signed value. *)
Theorem integer_number_narrowest_type `{GoLibs}
    (fac : StringToTTConvFactory.t) (x : Z) :
  plain_separators (StringToTTConvFactory.thousandSeparators fac) = true ->
  (0 <= x <= strconv.maxUint64 ->
   StringToTTConvFactory.GetIntegerConverter fac (fmt_u x) = Ok (VUint64 x) /\
   StringToTTConvFactory.GetNumberConverter fac (fmt_u x) = Ok (VUint64 x)) /\
  (- 2 ^ 63 <= x < 0 ->
   StringToTTConvFactory.GetIntegerConverter fac (fmt.d x) = Ok (VInt64 x) /\
   StringToTTConvFactory.GetNumberConverter fac (fmt.d x) = Ok (VInt64 x)).
Proof.
  intros Hp. split; intros Hx.
  - pose proof (@uint_converter_fmt_u _ x Hp Hx) as Hu.
    unfold StringToTTConvFactory.GetIntegerConverter,
      StringToTTConvFactory.GetNumberConverter, MakeSequenceConverter.
    cbn [FuncConverter.Convert MakeFuncConverter FuncConverter.convFunc].
    split.
    + apply sequence_loop_first_ok. exact Hu.
    + apply sequence_loop_first_ok. exact Hu.
  - destruct (@negative_converters_fmt_d _ x Hp Hx) as [[e He] Hi].
    unfold StringToTTConvFactory.GetIntegerConverter,
      StringToTTConvFactory.GetNumberConverter, MakeSequenceConverter.
    cbn [FuncConverter.Convert MakeFuncConverter FuncConverter.convFunc].
    split.
    + rewrite (@sequence_loop_skip _ _ _ _ _ _ _ He). apply sequence_loop_first_ok.
      exact Hi.
    + rewrite (@sequence_loop_skip _ _ _ _ _ _ _ He). apply sequence_loop_first_ok.
      exact Hi.
Qed.

Lemma integer_number_narrowest_type_witness :
  let fac :=
    StringToTTConvFactory.WithThousandSeparators MakeStringToTTConvFactory
      " '" in
  plain_separators (StringToTTConvFactory.thousandSeparators fac) = true /\
  (0 <= -42 <= strconv.maxUint64 ->
   StringToTTConvFactory.GetIntegerConverter fac (fmt_u (-42))
     = Ok (VUint64 (-42)) /\
   @StringToTTConvFactory.GetNumberConverter refusing_libs fac (fmt_u (-42))
     = Ok (VUint64 (-42))) /\
  (- 2 ^ 63 <= -42 < 0 ->
   StringToTTConvFactory.GetIntegerConverter fac (fmt.d (-42))
     = Ok (VInt64 (-42)) /\
   @StringToTTConvFactory.GetNumberConverter refusing_libs fac (fmt.d (-42))
     = Ok (VInt64 (-42))).
Proof.
  cbv zeta. split; [reflexivity|].
  apply (@integer_number_narrowest_type refusing_libs
           (StringToTTConvFactory.WithThousandSeparators
              MakeStringToTTConvFactory " '") (-42)).
  reflexivity.
Defined.

Lemma ParseInt_signed (s : string) (x : Z) :
  strconv.ParseInt s = Ok x ->
  (exists e, strconv.ParseUint s = Err e) ->
  exists sign body, s = sign ++ body /\ (sign = "+" \/ sign = "-").
Proof.
  intros Hi [e He]. apply ParseInt_spec in Hi.
  destruct Hi as (sign & body & Hs & Hsign & Hne & Hd & Hx & Hr).
  destruct Hsign as [->|Hsign]; [|exists sign, body; auto].
  exfalso. cbn [append] in Hs. subst s.
  change (String.eqb "" "-") with false in Hx. cbv iota in Hx.
  rewrite (ParseUint_digits Hne Hd) in He.
  unfold int64 in Hr. unfold strconv.maxUint64 in He.
  replace (dval body 0 <=? 2 ^ 64 - 1) with true in He by lia.
  discriminate.
Qed.

(** X8: what the integer and the number converter of the factory can
    return.  A success is an unsigned value in the unsigned 64-bit range
    spelled by the input without its thousand separators; or a signed value
    in the signed 64-bit range, and then that text carries an explicit
    sign; or, for the number converter only, a float, and then the integer
    converter fails on the same input. *)
Theorem integer_number_results `{GoLibs} (fac : StringToTTConvFactory.t)
    (src : string) (v : value) :
  StringToTTConvFactory.GetIntegerConverter fac src = Ok v \/
  StringToTTConvFactory.GetNumberConverter fac src = Ok v ->
  let s :=
    replaceCharacters src (StringToTTConvFactory.thousandSeparators fac) "" in
  (exists x, v = VUint64 x /\ 0 <= x <= strconv.maxUint64 /\
             uint_literal s x) \/
  (exists x, v = VInt64 x /\ int64 x /\
             exists sign body, s = sign ++ body /\
                               (sign = "+" \/ sign = "-")) \/
  (exists f, v = VFloat64 f /\
             StringToTTConvFactory.GetIntegerConverter fac src
             = Err (ErrSeqUnexpectedValue (fmt_v src))).
Proof.
  intros Hok s.
  unfold StringToTTConvFactory.GetIntegerConverter,
    StringToTTConvFactory.GetNumberConverter, MakeSequenceConverter in *.
  cbn [FuncConverter.Convert MakeFuncConverter FuncConverter.convFunc
       sequence_loop] in *.
  unfold MakeStringToUIntConverter, StringToUIntConverter.Convert,
    MakeStringToIntConverter, StringToIntConverter.Convert in *.
  cbn [StringToUIntConverter.ignoreChars StringToIntConverter.ignoreChars]
    in *.
  fold s in Hok |- *.
  destruct (strconv.ParseUint s) as [u|eu] eqn:Hu; cbn [lift] in *.
  - left. exists u.
    assert (Hv : v = VUint64 u) by (destruct Hok; congruence).
    apply ParseUint_spec in Hu as [Hlit Hle].
    pose proof Hlit as (_ & Hd & Hx).
    pose proof (@dval_ge s 0 Hd (Z.le_refl 0)) as Hge.
    split; [exact Hv|]. split; [lia|exact Hlit].
  - destruct (strconv.ParseInt s) as [i|ei] eqn:Hi; cbn [lift] in *.
    + right. left. exists i.
      assert (Hv : v = VInt64 i) by (destruct Hok; congruence).
      split; [exact Hv|]. split; [now apply (@ParseInt_int64 s)|].
      apply (@ParseInt_signed s i Hi). eauto.
    + right. right.
      destruct Hok as [Hok|Hok]; [discriminate|].
      destruct (MakeStringToFloatConverter
                  (StringToTTConvFactory.thousandSeparators fac)
                  (StringToTTConvFactory.decimalSeparators fac) src)
        as [w|ef] eqn:Hf; [|discriminate].
      unfold MakeStringToFloatConverter, StringToFloatConverter.Convert in Hf.
      destruct (strconv_ParseFloat _) as [f|] in Hf; [|discriminate].
      cbn [lift] in Hf. exists f. split; [congruence|reflexivity].
Qed.

Lemma integer_number_results_witness :
  let fac := MakeStringToTTConvFactory in
  let s := replaceCharacters "+7" (StringToTTConvFactory.thousandSeparators fac)
             "" in
  (exists x, VInt64 7 = VUint64 x /\ 0 <= x <= strconv.maxUint64 /\
             uint_literal s x) \/
  (exists x, VInt64 7 = VInt64 x /\ int64 x /\
             exists sign body, s = sign ++ body /\
                               (sign = "+" \/ sign = "-")) \/
  (exists f, VInt64 7 = VFloat64 f /\
             StringToTTConvFactory.GetIntegerConverter fac "+7"
             = Err (ErrSeqUnexpectedValue (fmt_v "+7"))).
Proof.
  cbv zeta.
  apply (@integer_number_results refusing_libs MakeStringToTTConvFactory
           "+7" (VInt64 7)).
  left. reflexivity.
Defined.

(** ** Intervals: what the parser returns, and the printer's injectivity *)

Lemma interval_convert_split (src : string) (iv : datetime.Interval) :
  StringToIntervalConverter.Convert src = Ok (VInterval iv) ->
  exists f0 f1 f2 f3 f4 f5 f6 f7 f8,
    strings.Split src "," = [f0; f1; f2; f3; f4; f5; f6; f7; f8].
Proof.
  unfold StringToIntervalConverter.Convert,
    StringToIntervalConverter.Convert_sized.
  destruct (Nat.eqb (List.length (strings.Split src ","))
              intervalFieldsNumber) eqn:Hlen; cbn [negb];
    [|discriminate].
  intros _. now apply length_nine.
Qed.

Lemma interval_convert_wf (src : string) (iv : datetime.Interval) :
  StringToIntervalConverter.Convert src = Ok (VInterval iv) ->
  wf_interval iv.
Proof.
  intros Hok.
  destruct (@interval_convert_split src iv Hok)
    as (f0 & f1 & f2 & f3 & f4 & f5 & f6 & f7 & f8 & Hsplit).
  apply (interval_convert_fields _ _ Hsplit) in Hok.
  destruct Hok as (H0 & H1 & H2 & H3 & H4 & H5 & H6 & H7 & H8 & Hadj).
  split; [|exact Hadj].
  unfold typed_interval, interval_fields.
  repeat constructor; eapply ParseInt_int64; eassumption.
Qed.

Lemma interval_print_parse (iv : datetime.Interval) :
  wf_interval iv ->
  exists s : string,
    IntervalToStringConverter.Convert iv = Ok s /\
    StringToIntervalConverter.Convert s = Ok (VInterval iv).
Proof.
  intros [Hty Hadj].
  destruct (interval_to_string_split iv) as (s & Hs & Hsplit).
  exists s. split; [exact Hs|].
  apply typed_interval_parse in Hty.
  unfold interval_fields in *. cbn [map] in Hsplit.
  apply (interval_convert_fields _ _ Hsplit).
  repeat match goal with
         | H : Forall _ (_ :: _) |- _ => inversion H; subst; clear H
         end.
  tauto.
Qed.

(** X9: on every input the interval parser either fails with the
    "unexpected interval format" error or returns an interval whose nine
    fields are signed 64-bit integers and whose adjust is one of the three
    codes; printing that interval with the interval-to-string converter and
    parsing the text again gives the same interval. *)
Theorem interval_parse_canonical (src : string) :
  StringToIntervalConverter.Convert src = Err errUnexpectedIntervalFmt \/
  exists (iv : datetime.Interval) (s : string),
    StringToIntervalConverter.Convert src = Ok (VInterval iv) /\
    wf_interval iv /\
    IntervalToStringConverter.Convert iv = Ok s /\
    StringToIntervalConverter.Convert s = Ok (VInterval iv).
Proof.
  destruct (interval_convert_cases src) as [[iv Hok]|Herr]; [right|now left].
  pose proof (@interval_convert_wf src iv Hok) as Hwf.
  destruct (@interval_print_parse iv Hwf) as (s & Hs & Hback).
  exists iv, s. auto.
Qed.

Lemma fmt_d_inj (x y : Z) :
  int64 x -> int64 y -> fmt.d x = fmt.d y -> x = y.
Proof.
  intros Hx Hy Heq.
  pose proof (@ParseInt_fmt_d x Hx) as Px.
  pose proof (@ParseInt_fmt_d y Hy) as Py.
  rewrite Heq in Px. congruence.
Qed.

(** X10: the interval-to-string converter is injective on intervals whose
    fields are signed 64-bit integers: two such intervals with the same text
    are the same interval. *)
Theorem interval_to_string_injective (iv1 iv2 : datetime.Interval) :
  typed_interval iv1 -> typed_interval iv2 ->
  IntervalToStringConverter.Convert iv1 =
  IntervalToStringConverter.Convert iv2 ->
  iv1 = iv2.
Proof.
  intros H1 H2 Heq.
  destruct (interval_to_string_split iv1) as (s1 & Hs1 & Hsp1).
  destruct (interval_to_string_split iv2) as (s2 & Hs2 & Hsp2).
  assert (s1 = s2) by congruence. subst s2.
  rewrite Hsp1 in Hsp2. clear Hs1 Hs2 Hsp1 Heq.
  unfold typed_interval, interval_fields in *. cbn [map] in Hsp2.
  repeat match goal with
         | H : Forall _ (_ :: _) |- _ => inversion H; subst; clear H
         end.
  injection Hsp2 as E0 E1 E2 E3 E4 E5 E6 E7 E8.
  destruct iv1, iv2.
  cbn [datetime.Year datetime.Month datetime.Week datetime.Day
       datetime.Hour datetime.Min datetime.Sec datetime.Nsec
       datetime.Adjust] in *.
  f_equal; apply fmt_d_inj; assumption.
Qed.

Lemma interval_to_string_injective_witness :
  typed_interval interval_1234 /\ interval_1234 = interval_1234.
Proof.
  assert (Hty : typed_interval interval_1234) by apply wf_interval_1234.
  split; [exact Hty|].
  apply (@interval_to_string_injective interval_1234 interval_1234 Hty Hty).
  reflexivity.
Defined.

(** ** The mapper, for every mapper and every tuple *)

Lemma validated_converter_at {A B} (mapper : Mapper.t A B) (tuple : list A) :
  Mapper.validateTuple mapper tuple = None ->
  forall k, (k < List.length tuple)%nat ->
            exists c, converter_at mapper k = Some c.
Proof.
  unfold Mapper.validateTuple, converter_at. intros Hv k Hk.
  destruct (Nat.ltb_spec k (List.length (Mapper.converters mapper)))
    as [Hlt|Hge].
  - destruct (nth_error (Mapper.converters mapper) k) as [c|] eqn:Hc;
      [eauto|].
    apply nth_error_None in Hc. lia.
  - destruct (Mapper.defaultConverter mapper) as [d|]; [eauto|].
    replace (List.length (Mapper.converters mapper) <? List.length tuple)%nat
      with true in Hv by (symmetry; apply Nat.ltb_lt; lia).
    discriminate.
Qed.

Lemma map_loop_cases {A B} (mapper : Mapper.t A B) (tuple : list A) :
  forall i : nat,
    (forall j, (j < List.length tuple)%nat ->
               exists c, converter_at mapper (i + j) = Some c) ->
    (exists rs,
       Mapper.map_loop mapper i tuple = Returns (Ok rs) /\
       List.length rs = List.length tuple /\
       forall j x, nth_error tuple j = Some x ->
         exists c r, converter_at mapper (i + j) = Some c /\ c x = Ok r /\
                     nth_error rs j = Some r) \/
    (exists e k x c,
       Mapper.map_loop mapper i tuple = Returns (Err e) /\
       nth_error tuple k = Some x /\
       converter_at mapper (i + k) = Some c /\ c x = Err e /\
       forall j y, (j < k)%nat -> nth_error tuple j = Some y ->
         exists d r, converter_at mapper (i + j) = Some d /\ d y = Ok r).
Proof.
  induction tuple as [|x xs IH]; intros i Hat.
  - left. exists []. repeat split; auto.
    intros j y Hj. destruct j; discriminate.
  - destruct (Hat 0%nat ltac:(cbn [List.length]; lia)) as (c & Hc).
    rewrite Nat.add_0_r in Hc.
    cbn [Mapper.map_loop]. fold (converter_at mapper i). rewrite Hc.
    destruct (c x) as [r|e] eqn:Hcx.
    + destruct (IH (Datatypes.S i)) as
        [(rs & Hrs & Hlen & Hpt)|(e & k & y & d & He & Hk & Hd & Hdy & Hbefore)].
      * intros j Hj.
        replace (Datatypes.S i + j)%nat with (i + Datatypes.S j)%nat by lia.
        apply Hat. cbn [List.length]. lia.
      * left. exists (r :: rs). rewrite Hrs.
        split; [reflexivity|]. split; [cbn [List.length]; lia|].
        intros j y Hj. destruct j as [|j].
        -- injection Hj as <-. rewrite Nat.add_0_r. exists c, r. auto.
        -- cbn [nth_error] in Hj |- *.
           replace (i + Datatypes.S j)%nat with (Datatypes.S i + j)%nat by lia.
           now apply Hpt.
      * right. exists e, (Datatypes.S k), y, d. rewrite He.
        split; [reflexivity|]. split; [exact Hk|].
        replace (i + Datatypes.S k)%nat with (Datatypes.S i + k)%nat by lia.
        split; [exact Hd|]. split; [exact Hdy|].
        intros j z Hj Hz. destruct j as [|j].
        -- injection Hz as <-. rewrite Nat.add_0_r. exists c, r. auto.
        -- cbn [nth_error] in Hz.
           replace (i + Datatypes.S j)%nat with (Datatypes.S i + j)%nat by lia.
           apply Hbefore; [lia|exact Hz].
    + right. exists e, 0%nat, x, c. rewrite Nat.add_0_r.
      repeat split; auto. intros j y Hj. lia.
Qed.

Lemma Map_cases {A B} (mapper : Mapper.t A B) (tuple : list A) :
  (Mapper.validateTuple mapper tuple = Some ErrTupleLength /\
   Mapper.defaultConverter mapper = None /\
   (List.length (Mapper.converters mapper) < List.length tuple)%nat /\
   Mapper.Map mapper tuple = Returns (Err ErrTupleLength)) \/
  (Mapper.validateTuple mapper tuple = None /\
   exists rs, Mapper.Map mapper tuple = Returns (Ok rs) /\
              converted_pointwise mapper tuple rs) \/
  (Mapper.validateTuple mapper tuple = None /\
   exists e k x c,
     Mapper.Map mapper tuple = Returns (Err e) /\
     nth_error tuple k = Some x /\ converter_at mapper k = Some c /\
     c x = Err e /\ converted_before mapper tuple k).
Proof.
  unfold Mapper.Map.
  destruct (Mapper.validateTuple mapper tuple) as [err|] eqn:Hv.
  - left. unfold Mapper.validateTuple in Hv.
    destruct (Nat.ltb_spec (List.length (Mapper.converters mapper))
                (List.length tuple)) as [Hlt|Hge]; [|discriminate].
    destruct (Mapper.defaultConverter mapper); [discriminate|].
    cbn [andb] in Hv. injection Hv as <-. auto.
  - right.
    destruct (@map_loop_cases A B mapper tuple 0%nat
                (@validated_converter_at A B mapper tuple Hv))
      as [(rs & Hrs & Hlen & Hpt)|(e & k & x & c & He & Hk & Hc & Hcx & Hb)].
    + left. split; [reflexivity|]. exists rs. split; [exact Hrs|].
      split; [exact Hlen|exact Hpt].
    + right. split; [reflexivity|]. exists e, k, x, c. auto 6.
Qed.



Lemma nth_error_eq_ext {X} (l1 : list X) : forall l2,
  List.length l1 = List.length l2 ->
  (forall k a, nth_error l1 k = Some a -> nth_error l2 k = Some a) ->
  l1 = l2.
Proof.
  induction l1 as [|a l1 IH]; intros [|b l2] Hlen Hnth;
    try discriminate; [reflexivity|].
  pose proof (Hnth 0%nat a eq_refl) as H0. injection H0 as ->.
  f_equal. apply IH; [cbn in Hlen; lia|].
  intros k c Hk. exact (Hnth (Datatypes.S k) c Hk).
Qed.

(** X12: [Map] succeeds with [rs] exactly when [rs] has the length of the
    tuple and holds at every position the result of the converter of that
    position (the default converter past the list) on the field of that
    position.  The result is never shorter or longer than the tuple. *)
Theorem mapper_success_pointwise {A B} (mapper : Mapper.t A B)
    (tuple : list A) (rs : list B) :
  Mapper.Map mapper tuple = Returns (Ok rs) <->
  converted_pointwise mapper tuple rs.
Proof.
  split.
  - intros Hmap.
    destruct (Map_cases mapper tuple)
      as [(_ & _ & _ & H)|[(_ & rs' & H & Hpt)|(_ & e & k & x & c & H & _)]];
      congruence.
  - intros [Hlen Hpt].
    destruct (Map_cases mapper tuple)
      as [(_ & Hd & Hlt & _)|[(_ & rs' & H & Hlen' & Hpt')
                             |(_ & e & k & x & c & _ & Hk & Hc & Hcx & _)]].
    + exfalso.
      destruct (nth_error tuple (List.length (Mapper.converters mapper)))
        as [x|] eqn:Hx; [|apply nth_error_None in Hx; lia].
      destruct (Hpt _ _ Hx) as (c & r & Hc & _).
      unfold converter_at in Hc. rewrite Nat.ltb_irrefl in Hc. congruence.
    + rewrite H. do 2 f_equal. apply nth_error_eq_ext; [congruence|].
      intros j r' Hj.
      destruct (nth_error tuple j) as [x|] eqn:Hx.
      * destruct (Hpt _ _ Hx) as (c & r & Hc & Hcx & Hr).
        destruct (Hpt' _ _ Hx) as (c' & r'' & Hc' & Hcx' & Hr').
        congruence.
      * apply nth_error_None in Hx.
        assert (nth_error rs' j = None) by (apply nth_error_None; lia).
        congruence.
    + exfalso. destruct (Hpt _ _ Hk) as (c' & r & Hc' & Hcx' & _). congruence.
Qed.

(** X13: [Map] stops at the first error.  It returns an error [e] exactly
    when the length check fails and [e] is the length error, or the check
    passes and [e] is what the converter of some position returns on the
    field of that position, every field before it having been converted
    without error; the fields after it play no part. *)
Theorem mapper_first_error {A B} (mapper : Mapper.t A B) (tuple : list A)
    (e : error) :
  Mapper.Map mapper tuple = Returns (Err e) <->
  (Mapper.validateTuple mapper tuple = Some ErrTupleLength /\
   e = ErrTupleLength) \/
  (Mapper.validateTuple mapper tuple = None /\
   exists k x c,
     nth_error tuple k = Some x /\ converter_at mapper k = Some c /\
     c x = Err e /\ converted_before mapper tuple k).
Proof.
  split.
  - intros Hmap.
    destruct (Map_cases mapper tuple)
      as [(Hv & _ & _ & H)|[(_ & rs' & H & _)
                           |(Hv & e' & k & x & c & H & Hk & Hc & Hcx & Hb)]];
      try congruence.
    + left. split; [exact Hv|congruence].
    + right. split; [exact Hv|]. exists k, x, c.
      assert (e' = e) by congruence. subst. auto.
  - intros [[Hv ->]|(Hv & k & x & c & Hk & Hc & Hcx & Hb)].
    + unfold Mapper.Map. now rewrite Hv.
    + destruct (Map_cases mapper tuple)
        as [(Hv' & _)|[(_ & rs' & _ & _ & Hpt)
                      |(_ & e' & k' & x' & c' & H & Hk' & Hc' & Hcx' & Hb')]];
        [congruence| |].
      * exfalso. destruct (Hpt _ _ Hk) as (d & r & Hd & Hdx & _). congruence.
      * destruct (Nat.lt_trichotomy k k') as [Hlt|[->|Hgt]].
        -- exfalso. destruct (Hb' k x Hlt Hk) as (d & r & Hd & Hdx).
           congruence.
        -- rewrite H. congruence.
        -- exfalso. destruct (Hb k' x' Hgt Hk') as (d & r & Hd & Hdx).
           congruence.
Qed.

(** ** The assembled converters at run time, alone and under a mapper *)

Lemma assembled_nth {Ty} `{Fmt Ty} (fac : TTConvFactory Ty)
    (spaceFmt : list SpaceField) :
  forall (converters : list (Converter Ty value)) (k : nat) (f : SpaceField),
    MakeTypeToTTConverters fac spaceFmt = Ok converters ->
    nth_error spaceFmt k = Some f ->
    exists base,
      GetConverterByType fac (Type_ f) = Ok base /\
      nth_error converters k
      = Some (field_converter (Type_ f) (wrapped fac f base)).
Proof.
  induction spaceFmt as [|g rest IH]; intros converters k f Hmk Hk.
  - destruct k; discriminate.
  - cbn [MakeTypeToTTConverters] in Hmk.
    destruct (GetConverterByType fac (Type_ g)) as [base|] eqn:Hbase;
      [|discriminate].
    destruct (MakeTypeToTTConverters fac rest) as [cs|] eqn:Hrest;
      [|discriminate].
    injection Hmk as <-. destruct k as [|k].
    + injection Hk as <-. exists base. split; [exact Hbase|reflexivity].
    + cbn [nth_error] in Hk |- *. now apply (IH cs k f).
Qed.

Lemma field_converter_apply {Ty} `{Fmt Ty} (typ : TypeName)
    (conv : Converter Ty value) (s : Ty) :
  field_converter typ conv s =
  match conv s with
  | Err _ => Err (ErrUnexpectedValueForType (fmt_v s) typ)
  | Ok result => Ok result
  end.
Proof. reflexivity. Qed.

Lemma assembled_length {Ty} `{Fmt Ty} (fac : TTConvFactory Ty)
    (spaceFmt : list SpaceField) :
  forall converters,
    MakeTypeToTTConverters fac spaceFmt = Ok converters ->
    List.length converters = List.length spaceFmt.
Proof.
  induction spaceFmt as [|g rest IH]; intros converters Hmk.
  - now injection Hmk as <-.
  - cbn [MakeTypeToTTConverters] in Hmk.
    destruct (GetConverterByType fac (Type_ g)); [|discriminate].
    destruct (MakeTypeToTTConverters fac rest) as [cs|]; [|discriminate].
    injection Hmk as <-. cbn [List.length]. f_equal. now apply IH.
Qed.

(** X14: a converter the assembler built for a field succeeds exactly when
    the converter of the field's type (made nullable for a nullable field)
    succeeds, with the same value; every error it returns is the
    "unexpected value for type" error made of the input and of the field's
    type name, whatever error the converter underneath returned. *)
Theorem assembled_converter_errors {Ty} `{Fmt Ty} (fac : TTConvFactory Ty)
    (spaceFmt : list SpaceField) (converters : list (Converter Ty value)) :
  MakeTypeToTTConverters fac spaceFmt = Ok converters ->
  forall (k : nat) (f : SpaceField) (c : Converter Ty value),
    nth_error spaceFmt k = Some f -> nth_error converters k = Some c ->
    exists base,
      GetConverterByType fac (Type_ f) = Ok base /\
      forall s : Ty,
        (forall v, c s = Ok v <-> wrapped fac f base s = Ok v) /\
        (forall e, c s = Err e <->
           (exists e', wrapped fac f base s = Err e') /\
           e = ErrUnexpectedValueForType (fmt_v s) (Type_ f)).
Proof.
  intros Hmk k f c Hf Hc.
  destruct (@assembled_nth Ty _ fac spaceFmt converters k f Hmk Hf)
    as (base & Hbase & Hnth).
  exists base. split; [exact Hbase|]. intros s.
  assert (Heq : c = field_converter (Type_ f) (wrapped fac f base))
    by congruence.
  rewrite Heq, field_converter_apply.
  destruct (wrapped fac f base s) as [r|e0]; split.
  - intros v. reflexivity.
  - intros e. split; [discriminate|intros [[e' He'] _]; discriminate].
  - intros v. split; discriminate.
  - intros e. split.
    + intros [= <-]. split; [eauto|reflexivity].
    + intros [_ ->]. reflexivity.
Qed.

Lemma assembled_converter_errors_witness :
  let fac :=
    @StringToTTConvFactory.as_factory refusing_libs MakeStringToTTConvFactory in
  let c := field_converter TypeUnsigned (GetUnsignedConverter fac) in
  exists base,
    GetConverterByType fac (Type_ field_id) = Ok base /\
    forall s : string,
      (forall v, c s = Ok v <-> wrapped fac field_id base s = Ok v) /\
      (forall e, c s = Err e <->
         (exists e', wrapped fac field_id base s = Err e') /\
         e = ErrUnexpectedValueForType (fmt_v s) (Type_ field_id)).
Proof.
  cbv zeta.
  apply (@assembled_converter_errors string Fmt_string
           (@StringToTTConvFactory.as_factory refusing_libs
              MakeStringToTTConvFactory)
           schema_id
           [field_converter TypeUnsigned
              (GetUnsignedConverter
                 (@StringToTTConvFactory.as_factory refusing_libs
                    MakeStringToTTConvFactory))]
           eq_refl 0%nat field_id); reflexivity.
Defined.

(** X15: mapping a tuple with the converters assembled from a schema.  An
    error is the length error, and then the tuple is longer than the schema,
    or it is the "unexpected value for type" error made of one field of the
    tuple and of the type name of the schema field at the same position, the
    fields before it having been converted; a success has one result per
    field of the tuple, and the tuple is no longer than the schema. *)
Theorem schema_mapper_outcomes {Ty} `{Fmt Ty} (fac : TTConvFactory Ty)
    (spaceFmt : list SpaceField) (converters : list (Converter Ty value))
    (tuple : list Ty) :
  MakeTypeToTTConverters fac spaceFmt = Ok converters ->
  (forall e,
     Mapper.Map (MakeMapper converters) tuple = Returns (Err e) ->
     ((List.length spaceFmt < List.length tuple)%nat /\ e = ErrTupleLength) \/
     ((List.length tuple <= List.length spaceFmt)%nat /\
      exists k f x,
        nth_error spaceFmt k = Some f /\ nth_error tuple k = Some x /\
        e = ErrUnexpectedValueForType (fmt_v x) (Type_ f) /\
        converted_before (MakeMapper converters) tuple k)) /\
  (forall rs,
     Mapper.Map (MakeMapper converters) tuple = Returns (Ok rs) ->
     List.length rs = List.length tuple /\
     (List.length tuple <= List.length spaceFmt)%nat).
Proof.
  intros Hmk.
  pose proof (@assembled_length Ty _ fac spaceFmt converters Hmk) as Hlen.
  destruct (Map_cases (MakeMapper converters) tuple)
    as [(_ & _ & Hlt & Hmap)
       |[(Hv & rs & Hmap & Hl & _)
        |(Hv & e & k & x & c & Hmap & Hk & Hc & Hcx & Hb)]].
  - cbn [MakeMapper Mapper.converters] in Hlt. split.
    + intros e He. left. split; [lia|congruence].
    + intros rs Hrs. congruence.
  - assert (Hle : (List.length tuple <= List.length spaceFmt)%nat).
    { unfold Mapper.validateTuple in Hv.
      cbn [MakeMapper Mapper.converters Mapper.defaultConverter] in Hv.
      rewrite andb_true_r in Hv.
      destruct (Nat.ltb_spec (List.length converters) (List.length tuple));
        [discriminate|lia]. }
    split.
    + intros e He. congruence.
    + intros rs' Hrs'. assert (rs' = rs) by congruence. subst. auto.
  - assert (Hle : (List.length tuple <= List.length spaceFmt)%nat).
    { unfold Mapper.validateTuple in Hv.
      cbn [MakeMapper Mapper.converters Mapper.defaultConverter] in Hv.
      rewrite andb_true_r in Hv.
      destruct (Nat.ltb_spec (List.length converters) (List.length tuple));
        [discriminate|lia]. }
    split.
    + intros e' He'. right. split; [exact Hle|].
      assert (e' = e) by congruence. subst e'.
      assert (Hklt : (k < List.length tuple)%nat)
        by (apply nth_error_Some; congruence).
      destruct (nth_error spaceFmt k) as [f|] eqn:Hf;
        [|apply nth_error_None in Hf; lia].
      destruct (@assembled_nth Ty _ fac spaceFmt converters k f Hmk Hf)
        as (base & Hbase & Hnth).
      unfold converter_at in Hc.
      cbn [MakeMapper Mapper.converters Mapper.defaultConverter] in Hc.
      replace (k <? List.length converters)%nat with true in Hc
        by (symmetry; apply Nat.ltb_lt; lia).
      assert (Heq : c = field_converter (Type_ f) (wrapped fac f base))
        by congruence.
      rewrite Heq, field_converter_apply in Hcx.
      exists k, f, x. split; [exact Hf|]. split; [exact Hk|].
      split; [|exact Hb].
      destruct (wrapped fac f base x); congruence.
    + intros rs Hrs. congruence.
Qed.

Lemma schema_mapper_outcomes_witness :
  let fac :=
    @StringToTTConvFactory.as_factory refusing_libs MakeStringToTTConvFactory in
  let converters := [field_converter TypeUnsigned (GetUnsignedConverter fac)] in
  let tuple := ["-1"] in
  Mapper.Map (MakeMapper converters) tuple
  = Returns (Err (ErrUnexpectedValueForType "-1" TypeUnsigned)) /\
  (forall e,
     Mapper.Map (MakeMapper converters) tuple = Returns (Err e) ->
     ((List.length schema_id < List.length tuple)%nat /\ e = ErrTupleLength) \/
     ((List.length tuple <= List.length schema_id)%nat /\
      exists k f x,
        nth_error schema_id k = Some f /\ nth_error tuple k = Some x /\
        e = ErrUnexpectedValueForType (fmt_v x) (Type_ f) /\
        converted_before (MakeMapper converters) tuple k)) /\
  (forall rs,
     Mapper.Map (MakeMapper converters) tuple = Returns (Ok rs) ->
     List.length rs = List.length tuple /\
     (List.length tuple <= List.length schema_id)%nat).
Proof.
  cbv zeta. split; [reflexivity|].
  apply (@schema_mapper_outcomes string Fmt_string
           (@StringToTTConvFactory.as_factory refusing_libs
              MakeStringToTTConvFactory)
           schema_id).
  reflexivity.
Defined.

(** ** Datetimes: the writer's two forms and the reader's two branches *)

(** X16: the text the datetime-to-string converter writes is read by the
    branch of the string-to-datetime converter that matches it, provided the
    formatted date holds no space (the two layouts hold none).  For a
    datetime in the unnamed zone the text is the date in the offset layout
    and is parsed as a whole in that layout; for a datetime in a named zone
    the text is the date in the zone-less layout, one space and the zone
    name, and the reader looks that very name up and parses that very date
    in it, also when the zone name itself holds spaces. *)
Theorem datetime_written_then_read `{GoLibs} (dt : datetime.Datetime) :
  let tm := datetime.ToTime dt in
  let zone := time.name (time.loc tm) in
  has_space (time_Format tm dateTimeLayout) = false ->
  has_space (time_Format tm dateTimeOffsetLayout) = false ->
  exists s,
    DatetimeToStringConverter.Convert dt = Ok s /\
    s = (if String.eqb zone "" then time_Format tm dateTimeOffsetLayout
         else time_Format tm dateTimeLayout ++ " " ++ zone) /\
    StringToDatetimeConverter.Convert s =
    if String.eqb zone "" then
      match time_Parse dateTimeOffsetLayout s with
      | Err err => Err err
      | Ok tm' =>
        lift VDatetime
          (datetime_NewDatetime
             (time.In tm'
                (time.FixedZone datetime.NoTimezone (snd (time.Zone tm')))))
      end
    else
      match time_LoadLocation zone with
      | Err err => Err err
      | Ok loc =>
        match time_ParseInLocation dateTimeLayout
                (time_Format tm dateTimeLayout) loc with
        | Err err => Err err
        | Ok tm' => lift VDatetime (datetime_NewDatetime tm')
        end
      end.
Proof.
  intros tm zone Hd Ho.
  unfold DatetimeToStringConverter.Convert. fold tm. fold zone.
  destruct (String.eqb zone "") eqn:Hz; cbn [negb].
  - eexists. split; [reflexivity|]. split; [reflexivity|].
    unfold StringToDatetimeConverter.Convert.
    rewrite (@Cut_no_space _ Ho). cbn [negb].
    destruct (time_Parse dateTimeOffsetLayout _) as [tm'|e]; [|reflexivity].
    destruct (time.Zone tm') as [abbrev offset]. reflexivity.
  - eexists. split; [reflexivity|]. split; [reflexivity|].
    unfold StringToDatetimeConverter.Convert.
    change (time_Format tm dateTimeLayout ++ " " ++ zone)
      with (time_Format tm dateTimeLayout ++ String " " zone).
    rewrite (@Cut_first_space _ zone Hd). cbn [negb]. reflexivity.
Qed.

Lemma datetime_written_then_read_witness :
  let dt :=
    datetime.Build_Datetime
      {| time.unixSec := 0; time.nsec := 0;
         time.loc := time.FixedZone "Europe/Moscow" 10800 |} in
  exists s,
    @DatetimeToStringConverter.Convert refusing_libs dt = Ok s /\
    s = @time_Format refusing_libs (datetime.ToTime dt) dateTimeLayout
        ++ " Europe/Moscow" /\
    @StringToDatetimeConverter.Convert refusing_libs s =
    match @time_LoadLocation refusing_libs "Europe/Moscow" with
    | Err err => Err err
    | Ok loc =>
      match @time_ParseInLocation refusing_libs dateTimeLayout
              (@time_Format refusing_libs (datetime.ToTime dt) dateTimeLayout)
              loc with
      | Err err => Err err
      | Ok tm' => lift VDatetime (@datetime_NewDatetime refusing_libs tm')
      end
    end.
Proof.
  cbv zeta.
  apply (@datetime_written_then_read refusing_libs
           (datetime.Build_Datetime
              {| time.unixSec := 0; time.nsec := 0;
                 time.loc := time.FixedZone "Europe/Moscow" 10800 |}));
    reflexivity.
Defined.

(** ** The integer converters at the edges: nothing to parse, too large *)

Lemma filter_bytes_none (keep : ascii -> bool) (s : string) :
  all_bytes (fun c => negb (keep c)) s = true -> filter_bytes keep s = "".
Proof.
  induction s as [|c t IH]; cbn [all_bytes filter_bytes]; intros Hall;
    [reflexivity|].
  apply andb_true_iff in Hall as [Hc Ht].
  apply negb_true_iff in Hc. rewrite Hc. now apply IH.
Qed.

Lemma delete_set_only_separators (ths src : string) :
  all_bytes (contains ths) src = true -> delete_set ths src = "".
Proof.
  intros Hall. unfold delete_set. apply filter_bytes_none.
  apply (@all_bytes_impl (contains ths)); [|exact Hall].
  intros c Hc. now rewrite Hc.
Qed.

(** X17: an input made only of thousand separators (ASCII ones), the empty
    input among them, leaves nothing to parse: the unsigned and the signed
    converter fail with the syntax error of the empty string, and the
    integer converter of the factory with the error of the sequence. *)
Theorem separators_only_rejected (fac : StringToTTConvFactory.t)
    (src : string) :
  let ths := StringToTTConvFactory.thousandSeparators fac in
  all_ascii ths = true ->
  all_bytes (contains ths) src = true ->
  MakeStringToUIntConverter ths src
  = Err (strconv.syntaxError "ParseUint" "") /\
  MakeStringToIntConverter ths src
  = Err (strconv.syntaxError "ParseInt" "") /\
  StringToTTConvFactory.GetIntegerConverter fac src
  = Err (ErrSeqUnexpectedValue src).
Proof.
  intros ths Ha Hall.
  assert (Hu : MakeStringToUIntConverter ths src
               = Err (strconv.syntaxError "ParseUint" "")).
  { unfold MakeStringToUIntConverter, StringToUIntConverter.Convert.
    cbn [StringToUIntConverter.ignoreChars].
    rewrite (@replaceCharacters_delete ths src Ha).
    now rewrite (@delete_set_only_separators ths src Hall). }
  assert (Hi : MakeStringToIntConverter ths src
               = Err (strconv.syntaxError "ParseInt" "")).
  { unfold MakeStringToIntConverter, StringToIntConverter.Convert.
    cbn [StringToIntConverter.ignoreChars].
    rewrite (@replaceCharacters_delete ths src Ha).
    now rewrite (@delete_set_only_separators ths src Hall). }
  split; [exact Hu|]. split; [exact Hi|].
  unfold StringToTTConvFactory.GetIntegerConverter, MakeSequenceConverter.
  cbn [FuncConverter.Convert MakeFuncConverter FuncConverter.convFunc].
  fold ths.
  rewrite (@sequence_loop_skip _ _ _ _ _ _ _ Hu).
  rewrite (@sequence_loop_skip _ _ _ _ _ _ _ Hi).
  reflexivity.
Qed.

Lemma separators_only_rejected_witness :
  let fac :=
    StringToTTConvFactory.WithThousandSeparators MakeStringToTTConvFactory
      " '" in
  MakeStringToUIntConverter " '" "' '"
  = Err (strconv.syntaxError "ParseUint" "") /\
  MakeStringToIntConverter " '" "' '"
  = Err (strconv.syntaxError "ParseInt" "") /\
  StringToTTConvFactory.GetIntegerConverter fac "' '"
  = Err (ErrSeqUnexpectedValue "' '").
Proof.
  cbv zeta.
  apply (@separators_only_rejected
           (StringToTTConvFactory.WithThousandSeparators
              MakeStringToTTConvFactory " '") "' '"); reflexivity.
Defined.

Lemma map_bytes_fixed (f : ascii -> ascii) (s : string) :
  all_bytes (fun c => Ascii.eqb (f c) c) s = true -> map_bytes f s = s.
Proof.
  induction s as [|c t IH]; cbn [all_bytes map_bytes]; intros Hall;
    [reflexivity|].
  apply andb_true_iff in Hall as [Hc Ht].
  apply Ascii.eqb_eq in Hc. rewrite Hc. f_equal. now apply IH.
Qed.

Lemma fold_set_numeral (decs s : string) :
  plain_separators decs = true ->
  all_bytes numeral_byte s = true ->
  fold_set decs s = s.
Proof.
  unfold plain_separators, fold_set. intros Hp Hs.
  apply andb_true_iff in Hp as [_ Hp].
  apply map_bytes_fixed.
  apply (@all_bytes_impl numeral_byte _ s); [|assumption].
  intros c Hc. destruct (contains decs c) eqn:Hin;
    [|apply Ascii.eqb_refl].
  pose proof (@all_bytes_contains _ decs c Hp Hin) as Hn.
  cbv beta in Hn. rewrite Hc in Hn. discriminate.
Qed.

Lemma numeric_converters_numeral `{GoLibs} (ths decs s : string) :
  plain_separators ths = true -> plain_separators decs = true ->
  all_bytes numeral_byte s = true ->
  MakeStringToUIntConverter ths s = lift VUint64 (strconv.ParseUint s) /\
  MakeStringToIntConverter ths s = lift VInt64 (strconv.ParseInt s) /\
  MakeStringToFloatConverter ths decs s
  = lift VFloat64 (strconv_ParseFloat s).
Proof.
  intros Hpt Hpd Hs.
  assert (Hat : all_ascii ths = true)
    by (unfold plain_separators in Hpt; now apply andb_true_iff in Hpt).
  assert (Had : all_ascii decs = true)
    by (unfold plain_separators in Hpd; now apply andb_true_iff in Hpd).
  unfold MakeStringToUIntConverter, StringToUIntConverter.Convert,
    MakeStringToIntConverter, StringToIntConverter.Convert,
    MakeStringToFloatConverter, StringToFloatConverter.Convert.
  cbn [StringToUIntConverter.ignoreChars StringToIntConverter.ignoreChars
       StringToFloatConverter.ignoreChars
       StringToFloatConverter.decSeparators].
  rewrite (@replaceCharacters_delete ths s Hat).
  rewrite (@delete_set_numeral ths s Hpt Hs).
  rewrite (@replaceCharacters_ascii decs s "." Had), map_set_fold.
  fold (fold_set decs s).
  rewrite (@fold_set_numeral decs s Hpd Hs).
  repeat split.
Qed.

(** X18: an integer too large for both integer types.  With separator
    sets that are ASCII and hold neither digits nor the minus sign, the
    decimal text of an integer above the unsigned 64-bit range, or below the
    signed one, is rejected by the integer converter of the factory with the
    error of the sequence, and the number converter hands it to the float
    parser: it is a float if that parser takes it, and the same error
    otherwise.  It is never wrapped around or clamped to an integer. *)
Theorem integer_overflow_to_float `{GoLibs} (fac : StringToTTConvFactory.t)
    (x : Z) :
  plain_separators (StringToTTConvFactory.thousandSeparators fac) = true ->
  plain_separators (StringToTTConvFactory.decimalSeparators fac) = true ->
  (strconv.maxUint64 < x < 10 ^ 20 ->
   StringToTTConvFactory.GetIntegerConverter fac (fmt_u x)
   = Err (ErrSeqUnexpectedValue (fmt_u x)) /\
   StringToTTConvFactory.GetNumberConverter fac (fmt_u x)
   = float_or_fail (fmt_u x)) /\
  (2 ^ 63 < x < 10 ^ 20 ->
   StringToTTConvFactory.GetIntegerConverter fac (String "-" (fmt_u x))
   = Err (ErrSeqUnexpectedValue (String "-" (fmt_u x))) /\
   StringToTTConvFactory.GetNumberConverter fac (String "-" (fmt_u x))
   = float_or_fail (String "-" (fmt_u x))).
Proof.
  intros Hpt Hpd.
  assert (Hseq : forall s,
            all_bytes numeral_byte s = true ->
            (exists e, strconv.ParseUint s = Err e) ->
            (exists e, strconv.ParseInt s = Err e) ->
            StringToTTConvFactory.GetIntegerConverter fac s
            = Err (ErrSeqUnexpectedValue s) /\
            StringToTTConvFactory.GetNumberConverter fac s
            = float_or_fail s).
  { intros s Hs [eu Hu] [ei Hi].
    destruct (@numeric_converters_numeral _ _ _ s Hpt Hpd Hs)
      as (Hcu & Hci & Hcf).
    rewrite Hu in Hcu. rewrite Hi in Hci. cbn [lift] in Hcu, Hci.
    unfold StringToTTConvFactory.GetIntegerConverter,
      StringToTTConvFactory.GetNumberConverter, MakeSequenceConverter.
    cbn [FuncConverter.Convert MakeFuncConverter FuncConverter.convFunc].
    rewrite !(@sequence_loop_skip _ _ _ _ _ _ _ Hcu).
    rewrite !(@sequence_loop_skip _ _ _ _ _ _ _ Hci).
    split; [reflexivity|].
    cbn [sequence_loop]. rewrite Hcf. unfold float_or_fail, fmt_v, Fmt_string.
    destruct (strconv_ParseFloat s); reflexivity. }
  assert (H20 : 10 ^ 20 = 10 ^ Z.of_nat 20) by reflexivity.
  split; intros Hx.
  - unfold strconv.maxUint64 in Hx.
    assert (Hne : fmt_u x <> "") by apply digits_nonempty.
    assert (Hd : all_digits (fmt_u x) = true)
      by (apply digits_all_digits; lia).
    assert (Hv : dval (fmt_u x) 0 = x)
      by (apply dval_digits; lia).
    apply Hseq.
    + apply fmt_u_numeral. lia.
    + rewrite (ParseUint_digits Hne Hd), Hv. unfold strconv.maxUint64.
      replace (x <=? 2 ^ 64 - 1) with false by lia. eauto.
    + rewrite (ParseInt_unsigned Hne Hd), Hv.
      replace (x <? 2 ^ 63) with false by lia. eauto.
  - assert (Hne : fmt_u x <> "") by apply digits_nonempty.
    assert (Hd : all_digits (fmt_u x) = true)
      by (apply digits_all_digits; lia).
    assert (Hv : dval (fmt_u x) 0 = x)
      by (apply dval_digits; lia).
    apply Hseq.
    + cbn [all_bytes]. change (numeral_byte "-") with true. cbn [andb].
      apply fmt_u_numeral. lia.
    + apply ParseUint_not_digits. reflexivity.
    + rewrite (ParseInt_minus Hne Hd), Hv.
      replace (x <=? 2 ^ 63) with false by lia. eauto.
Qed.

Lemma integer_overflow_to_float_witness :
  let fac := MakeStringToTTConvFactory in
  let x := 18446744073709551616 in
  (strconv.maxUint64 < x < 10 ^ 20 ->
   StringToTTConvFactory.GetIntegerConverter fac (fmt_u x)
   = Err (ErrSeqUnexpectedValue (fmt_u x)) /\
   @StringToTTConvFactory.GetNumberConverter refusing_libs fac (fmt_u x)
   = @float_or_fail refusing_libs (fmt_u x)) /\
  (2 ^ 63 < x < 10 ^ 20 ->
   StringToTTConvFactory.GetIntegerConverter fac (String "-" (fmt_u x))
   = Err (ErrSeqUnexpectedValue (String "-" (fmt_u x))) /\
   @StringToTTConvFactory.GetNumberConverter refusing_libs fac
     (String "-" (fmt_u x))
   = @float_or_fail refusing_libs (String "-" (fmt_u x))).
Proof.
  cbv zeta.
  apply (@integer_overflow_to_float refusing_libs MakeStringToTTConvFactory
           18446744073709551616); reflexivity.
Defined.
